(** * Workflow graph engine: serializer and router handler

    A shallow embedding of

    - [apps/sim/executor/handlers/router/router-handler.ts]
      (class [RouterBlockHandler]) and
    - the class [Serializer] of the module [@/serializer]
      ([validateBlockBeforeSerialization], [serializeWorkflow],
      [serializeBlock], [extractParams], [validateSerializedBlock],
      [deserializeWorkflow], [deserializeBlock]),

    together with the block definition [Dynamics365Block] of
    [apps/sim/blocks/blocks/dynamics365.ts], which serves as a concrete
    registry entry, with its tool and parameter functions, and the
    Dynamics 365 OAuth route of [apps/sim/app/api/auth/oauth/dynamics365]
    ([parseDynamics365Error], [getDynamics365Token],
    [validateDynamics365Response] and the handlers [POST] and [GET]).

    JavaScript values are a small inductive type, exceptions are the left
    summand of a result, and the logger, the provider call and the UUID
    source are threaded through an explicit state. Objects used as
    records of parameters are finite maps of their own properties; the
    object [blocks] of [deserializeWorkflow], which is read under names
    taken from the document, is modelled with its prototype chain. *)

From Stdlib Require Import Floats.PrimFloat.
From stdpp Require Import base option list strings gmap pretty.

Set Default Proof Using "Type".
#[local] Set Warnings "-register-all".

(** ** JavaScript values *)

Module JS.

(** Values of type [any]. A [string] stands for a JavaScript string whose
    code units all lie below 256 (the Latin-1 range); numbers are IEEE
    binary64, as in JavaScript. *)
Inductive jsval : Type :=
| JUndefined
| JNull
| JBool (b : bool)
| JNum (x : float)
| JStr (s : string)
| JArr (items : list jsval)
| JObj (fields : list (string * jsval)).

(** [ToBoolean]: what [!v], [v || w] and [if (v)] test. *)
Definition truthy (v : jsval) : bool :=
  match v with
  | JUndefined | JNull => false
  | JBool b => b
  | JNum x => negb (PrimFloat.eqb x 0%float) && PrimFloat.eqb x x
  | JStr s => negb (String.eqb s "")
  | JArr _ | JObj _ => true
  end.

(** [a || b] *)
Definition js_or (a b : jsval) : jsval := if truthy a then a else b.

(** [a ?? b] *)
Definition nullish (a b : jsval) : jsval :=
  match a with
  | JUndefined | JNull => b
  | _ => a
  end.

(** [v === null] *)
Definition is_null (v : jsval) : bool :=
  match v with JNull => true | _ => false end.

(** [v !== s] for a string literal [s] *)
Definition differs_from_str (v : jsval) (s : string) : bool :=
  match v with JStr t => negb (String.eqb t s) | _ => true end.

(** What can be thrown. [ErrorWith msg v] is [new Error(`msg${v}`)] for a
    value [v] whose string conversion is not spelled out here (a number, an
    array or an object). *)
Inductive exn : Type :=
| Error (msg : string)
| ErrorWith (msg : string) (v : jsval)
| TypeError (msg : string)
| SyntaxError (msg : string).

Definition result (A : Type) : Type := exn + A.

(** [new Error(`msg${v}`)] *)
Definition error_with (msg : string) (v : jsval) : exn :=
  match v with
  | JStr s => Error (msg +:+ s)
  | JUndefined => Error (msg +:+ "undefined")
  | JNull => Error (msg +:+ "null")
  | JBool true => Error (msg +:+ "true")
  | JBool false => Error (msg +:+ "false")
  | _ => ErrorWith msg v
  end.

(** [new Error(v)] *)
Definition new_Error (v : jsval) : exn := error_with "" v.

Fixpoint assoc (k : string) (fields : list (string * jsval)) : jsval :=
  match fields with
  | [] => JUndefined
  | (k', v) :: rest => if String.eqb k k' then v else assoc k rest
  end.

(** [v.k] on a value of type [any], for a property name [k] that no
    built-in prototype defines (all the names read below are such):
    reading a property of [undefined] or [null] throws, an object gives
    its own property, anything else gives [undefined]. *)
Definition get (v : jsval) (k : string) : result jsval :=
  match v with
  | JUndefined => inl (TypeError ("Cannot read properties of undefined (reading '" +:+ k +:+ "')"))
  | JNull => inl (TypeError ("Cannot read properties of null (reading '" +:+ k +:+ "')"))
  | JObj fields => inr (assoc k fields)
  | _ => inr JUndefined
  end.

(** [obj.k] for a [Record<string, any>] held as a finite map of its own
    properties. The names read this way are parameter and field ids, none
    of which is a property name of [Object.prototype]. *)
Definition prop (obj : gmap string jsval) (k : string) : jsval :=
  default JUndefined (obj !! k).

(** *** Strings *)

(** White space and line terminators below code unit 256, as
    [String.prototype.trim] removes them: TAB, LF, VT, FF, CR, SP, NBSP. *)
Definition is_whitespace (c : Ascii.ascii) : bool :=
  let n := Ascii.N_of_ascii c in
  ((9 <=? n) && (n <=? 13) || (n =? 32) || (n =? 160))%N.

Fixpoint trimStart (s : string) : string :=
  match s with
  | EmptyString => EmptyString
  | String c rest => if is_whitespace c then trimStart rest else s
  end.

Fixpoint trimEnd (s : string) : string :=
  match s with
  | EmptyString => EmptyString
  | String c rest =>
      match trimEnd rest with
      | EmptyString => if is_whitespace c then EmptyString else String c EmptyString
      | rest' => String c rest'
      end
  end.

Definition trim (s : string) : string := trimEnd (trimStart s).

(** Upper-case letters below code unit 256: A-Z, and U+00C0-U+00DE
    without the multiplication sign U+00D7; each has its lower-case form
    32 code units higher. *)
Definition lower_char (c : Ascii.ascii) : Ascii.ascii :=
  let n := Ascii.N_of_ascii c in
  if ((65 <=? n) && (n <=? 90) || (192 <=? n) && (n <=? 222) && negb (n =? 215))%N
  then Ascii.ascii_of_N (n + 32)
  else c.

Fixpoint toLowerCase (s : string) : string :=
  match s with
  | EmptyString => EmptyString
  | String c rest => String (lower_char c) (toLowerCase rest)
  end.

(** the double-quote character *)
Definition dquote : string := String (Ascii.ascii_of_N 34) EmptyString.

(** [`${x}`] for an optional string *)
Definition show (o : option string) : string := default "undefined" o.

(** [s || d] for an optional string [s] and a literal [d] *)
Definition str_or (o : option string) (d : string) : string :=
  match o with
  | Some s => if String.eqb s "" then d else s
  | None => d
  end.

End JS.
Import JS.

(** ** Effects: exceptions over a threaded state *)

Module Eff.

(** A computation over a state [S] that returns or throws. *)
Definition M (S A : Type) : Type := S → result A * S.

#[global] Instance M_ret {S} : MRet (M S) := λ A a s, (inr a, s).

#[global] Instance M_bind {S} : MBind (M S) := λ A B f m s,
  match m s with
  | (inl e, s') => (inl e, s')
  | (inr a, s') => f a s'
  end.

Definition throw {S A} (e : exn) : M S A := λ s, (inl e, s).

(** a fallible pure step, such as a call of a function that may throw *)
Definition lift {S A} (r : result A) : M S A := λ s, (r, s).

(** [try { body } catch (error) { handler }] *)
Definition try_catch {S A} (body : M S A) (handler : exn → M S A) : M S A :=
  λ s, match body s with
       | (inl e, s') => handler e s'
       | (inr a, s') => (inr a, s')
       end.

Definition modify {S} (f : S → S) : M S unit := λ s, (inr tt, f s).

Definition gets {S A} (f : S → A) : M S A := λ s, (inr (f s), s).

(** [xs.map(f)] for an [f] with effects *)
Fixpoint map_m {S A B} (f : A → M S B) (xs : list A) : M S (list B) :=
  match xs with
  | [] => mret []
  | x :: rest => y ← f x; ys ← map_m f rest; mret (y :: ys)
  end.

(** Unfolds the operations of the effect monad. *)
Ltac run :=
  unfold mbind, M_bind, mret, M_ret, lift, throw, try_catch, modify, gets in *;
  simpl in *.

End Eff.
Import Eff.

(** ** The logging collaborator *)

Inductive Level : Type := LError | LWarn | LInfo | LDebug.

(** One call of the logger: level, message, and the error passed along (the
    other structured arguments are not kept). *)
Record LogEntry : Type := mkLog {
  level : Level;
  message : string;
  detail : option exn;
}.

(** ** Shared types ([@/serializer/types]) *)

(** A connection of the portable document. *)
Record Connection : Type := mkConnection {
  source : string;
  target : string;
  sourceHandle : option string;
  targetHandle : option string;
}.

Record Metadata : Type := mkMetadata {
  meta_id : option string;
  meta_name : option string;
  meta_description : option string;
  meta_category : option string;
  meta_color : option string;
}.

(** [config: { tool, params }]; [None] is [undefined]. *)
Record SerializedConfig : Type := mkConfig {
  cfg_tool : option string;
  cfg_params : option (gmap string jsval);
}.

(** A block of the portable document. The optional fields are the ones the
    code reads with [?.], [??] or a truthiness test. *)
Record SerializedBlock : Type := mkSerializedBlock {
  sb_id : string;
  sb_position : jsval;
  sb_config : option SerializedConfig;
  sb_inputs : option (gmap string jsval);
  sb_outputs : gmap string jsval;
  sb_metadata : option Metadata;
  sb_enabled : option bool;
}.

(** Loops are carried through unchanged. *)
Record Loop : Type := mkLoop {
  loop_id : string;
  loop_nodes : list string;
}.

(** The portable workflow document. An entry of [blocks] may be [null]
    ([None]): [validateSerializedBlock] tests for it. The connections are
    objects, as the type [SerializedConnection] has them; nothing tests
    for a [null] connection, whose [source] the router handler and
    [deserializeWorkflow] would read without a guard. *)
Record SerializedWorkflow : Type := mkWorkflow {
  version : string;
  blocks : list (option SerializedBlock);
  connections : list Connection;
  loops : gmap string Loop;
}.

(** [serializedBlock.metadata?.id] *)
Definition metadata_id (b : SerializedBlock) : option string :=
  m ← sb_metadata b; meta_id m.

(** [serializedBlock.metadata?.name] *)
Definition metadata_name (b : SerializedBlock) : option string :=
  m ← sb_metadata b; meta_name m.

(** [o?.k] for an optional record of values *)
Definition opt_prop (o : option (gmap string jsval)) (k : string) : jsval :=
  match o with
  | Some obj => prop obj k
  | None => JUndefined
  end.

(** [block.config?.params] *)
Definition config_params (b : SerializedBlock) : option (gmap string jsval) :=
  c ← sb_config b; cfg_params c.

(** ** The router handler ([router-handler.ts]) *)

Module Router.

(** [context.blockStates] maps a block id to a state with an [output]. *)
Record BlockExecState : Type := mkExecState {
  output : jsval;
}.

Record ExecutionContext : Type := mkContext {
  workflow : option SerializedWorkflow;
  workflowId : string;
  blockStates : gmap string BlockExecState;
}.

Record TargetBlock : Type := mkTarget {
  tb_id : string;
  tb_type : string;
  tb_title : string;
  tb_description : option string;
  tb_subBlocks : gmap string jsval;
  tb_currentState : jsval;
}.

Record Message : Type := mkMessage {
  role : string;
  msg_content : jsval;
}.

(** The body of the POST to [/api/providers]; [req_context] is the message
    list that the code passes through [JSON.stringify]. *)
Record ProviderRequest : Type := mkRequest {
  req_provider : string;
  req_model : jsval;
  req_systemPrompt : string;
  req_context : list Message;
  req_temperature : jsval;
  req_apiKey : jsval;
  req_workflowId : string;
}.

(** What [fetch] resolves to; [resp_json] is what [response.json()] gives. *)
Record Response : Type := mkResponse {
  resp_ok : bool;
  resp_status : N;
  resp_json : result jsval;
}.

Record Tokens : Type := mkTokens {
  tok_prompt : jsval;
  tok_completion : jsval;
  tok_total : jsval;
}.

Record SelectedPath : Type := mkSelectedPath {
  blockId : string;
  blockType : string;
  blockTitle : string;
}.

(** [BlockOutput]: the [response] object that [execute] returns. *)
Record BlockOutput : Type := mkOutput {
  out_content : jsval;
  out_model : jsval;
  out_tokens : Tokens;
  selectedPath : SelectedPath;
}.

(** The collaborators that are not part of the handler. *)
Record Environment : Type := mkEnv {
  (** [getProviderFromModel] of [@/providers/utils] *)
  getProviderFromModel : jsval → result string;
  (** [generateRouterPrompt] of [@/blocks/blocks/router] *)
  generateRouterPrompt : jsval → list TargetBlock → result string;
  (** [process.env.NEXT_PUBLIC_APP_URL] *)
  NEXT_PUBLIC_APP_URL : option string;
  (** [new URL(path, base).toString()] *)
  new_URL : string → string → result string;
  (** [fetch(url, { method: 'POST', body })]: the provider call *)
  fetch : string → ProviderRequest → result Response;
}.

(** What one execution can touch: the execution context, the logger and
    the network (the provider calls made so far, oldest first). *)
Record World : Type := mkWorld {
  w_context : ExecutionContext;
  w_log : list LogEntry;
  w_fetches : list (string * ProviderRequest);
}.

Definition log (l : Level) (msg : string) (d : option exn) : M World unit :=
  modify (λ w, mkWorld (w_context w) (w_log w ++ [mkLog l msg d]) (w_fetches w)).

Definition do_fetch (env : Environment) (url : string) (req : ProviderRequest)
  : M World Response :=
  modify (λ w, mkWorld (w_context w) (w_log w) (w_fetches w ++ [(url, req)])) ;;
  lift (fetch env url req).

(** What a step may do to the world while enumerating candidates: append
    to the log, nothing else. *)
Definition only_logs (w w' : World) : Prop :=
  w_context w' = w_context w ∧ w_fetches w' = w_fetches w
  ∧ ∃ entries, w_log w' = w_log w ++ entries.

(** [context.workflow?.connections.filter(conn => conn.source === block.id)] *)
Definition outgoingConnections (block : SerializedBlock) (context : ExecutionContext)
  : option (list Connection) :=
  wf ← workflow context;
  Some (filter (λ conn, source conn = sb_id block) (connections wf)).

(** [bs.find(b => b.id === id)]; the callback throws on a [null] entry. *)
Fixpoint find_block (id : string) (bs : list (option SerializedBlock))
  : result (option SerializedBlock) :=
  match bs with
  | [] => inr None
  | None :: _ => inl (TypeError "Cannot read properties of null (reading 'id')")
  | Some b :: rest =>
      if String.eqb (sb_id b) id then inr (Some b) else find_block id rest
  end.

(** [context.workflow?.blocks.find(b => b.id === conn.target)] *)
Definition find_target (context : ExecutionContext) (id : string)
  : result (option SerializedBlock) :=
  match workflow context with
  | Some wf => find_block id (blocks wf)
  | None => inr None
  end.

(** [!targetBlock.enabled] is false *)
Definition is_enabled (b : SerializedBlock) : bool :=
  match sb_enabled b with Some true => true | _ => false end.

(** The callback of the [forEach] in [validateRouterConfiguration]. *)
Definition validate_target (block : SerializedBlock) (context : ExecutionContext)
  (conn : Connection) : result unit :=
  match find_target context (target conn) with
  | inl e => inl e
  | inr None =>
      inl (Error ("Target block " +:+ target conn +:+ " not found for router " +:+ sb_id block))
  | inr (Some targetBlock) =>
      if is_enabled targetBlock then inr tt
      else inl (Error ("Target block " +:+ target conn +:+ " is disabled for router " +:+ sb_id block))
  end.

Fixpoint validate_targets (block : SerializedBlock) (context : ExecutionContext)
  (conns : list Connection) : result unit :=
  match conns with
  | [] => inr tt
  | conn :: rest =>
      match validate_target block context conn with
      | inl e => inl e
      | inr _ => validate_targets block context rest
      end
  end.

Definition validateRouterConfiguration (block : SerializedBlock)
  (context : ExecutionContext) : result unit :=
  match outgoingConnections block context with
  | None | Some [] =>
      inl (Error ("Router block " +:+ sb_id block +:+ " has no outgoing connections"))
  | Some conns => validate_targets block context conns
  end.

(** The system prompt of an agent target. *)
Definition target_systemPrompt (targetBlock : SerializedBlock) : jsval :=
  match metadata_id targetBlock with
  | Some "agent" =>
      let systemPrompt :=
        js_or (opt_prop (config_params targetBlock) "systemPrompt")
          (js_or (opt_prop (sb_inputs targetBlock) "systemPrompt") (JStr "")) in
      if negb (truthy systemPrompt) && bool_decide (is_Some (sb_inputs targetBlock))
      then js_or (opt_prop (sb_inputs targetBlock) "systemPrompt") (JStr "")
      else systemPrompt
  | _ => JStr ""
  end.

Definition describe_target (context : ExecutionContext) (targetBlock : SerializedBlock)
  : TargetBlock :=
  {| tb_id := sb_id targetBlock;
     tb_type := str_or (metadata_id targetBlock) "unknown";
     tb_title := str_or (metadata_name targetBlock) "Untitled Block";
     tb_description := m ← sb_metadata targetBlock; meta_description m;
     tb_subBlocks :=
       <["systemPrompt" := target_systemPrompt targetBlock]>
         (default ∅ (config_params targetBlock));
     tb_currentState :=
       match blockStates context !! sb_id targetBlock with
       | Some st => output st
       | None => JUndefined
       end |}.

(** The callback of the [map] in [getTargetBlocks]; [None] is [null]. *)
Definition target_of_connection (block : SerializedBlock) (context : ExecutionContext)
  (conn : Connection) : M World (option TargetBlock) :=
  found ← lift (find_target context (target conn));
  match found with
  | None =>
      log LWarn ("Target block " +:+ target conn +:+ " not found for router " +:+ sb_id block) None ;;
      mret None
  | Some targetBlock =>
      if is_enabled targetBlock then mret (Some (describe_target context targetBlock))
      else
        log LWarn ("Target block " +:+ target conn +:+ " is disabled for router " +:+ sb_id block) None ;;
        mret None
  end.

Definition getTargetBlocks (block : SerializedBlock) (context : ExecutionContext)
  : M World (list TargetBlock) :=
  match outgoingConnections block context with
  | None | Some [] =>
      log LError ("Router block " +:+ sb_id block +:+ " has no outgoing connections") None ;;
      mret []
  | Some conns =>
      mapped ← map_m (target_of_connection block context) conns;
      mret (omap id mapped)
  end.

(** A target is viable when the graph has it and it is enabled. *)
Definition viable (context : ExecutionContext) (id : string) : bool :=
  match find_target context id with
  | inr (Some targetBlock) => is_enabled targetBlock
  | _ => false
  end.

(** The candidate that a connection contributes, if any. *)
Definition candidate_of (context : ExecutionContext) (conn : Connection)
  : option TargetBlock :=
  match find_target context (target conn) with
  | inr (Some targetBlock) =>
      if is_enabled targetBlock then Some (describe_target context targetBlock) else None
  | _ => None
  end.

(** The warning that a connection causes, if any. *)
Definition warning_of (block : SerializedBlock) (context : ExecutionContext)
  (conn : Connection) : list LogEntry :=
  match find_target context (target conn) with
  | inr (Some targetBlock) =>
      if is_enabled targetBlock then []
      else [mkLog LWarn ("Target block " +:+ target conn +:+ " is disabled for router "
                         +:+ sb_id block) None]
  | inr None =>
      [mkLog LWarn ("Target block " +:+ target conn +:+ " not found for router "
                    +:+ sb_id block) None]
  | inl _ => []
  end.

(** [targetBlocks.find(b => b.id === chosenBlockId)] *)
Definition find_candidate (chosenBlockId : string) (targetBlocks : list TargetBlock)
  : option TargetBlock :=
  List.find (λ b, String.eqb (tb_id b) chosenBlockId) targetBlocks.

(** [result.content], as the receiver of [.trim()] *)
Definition response_content (result : jsval) : JS.result string :=
  match JS.get result "content" with
  | inl e => inl e
  | inr (JStr content) => inr content
  | inr JUndefined =>
      inl (TypeError "Cannot read properties of undefined (reading 'trim')")
  | inr JNull => inl (TypeError "Cannot read properties of null (reading 'trim')")
  | inr _ => inl (TypeError "result.content.trim is not a function")
  end.

(** The error thrown for a response that is not ok. *)
Definition provider_failure (response : Response) : exn :=
  let errorMessage :=
    JStr ("Provider API request failed with status " +:+ pretty (resp_status response)) in
  match resp_json response with
  | inr errorData =>
      match JS.get errorData "error" with
      | inr error => new_Error (if truthy error then error else errorMessage)
      | inl _ => new_Error errorMessage
      end
  | inl _ => new_Error errorMessage
  end.

(** [v.k || 0] *)
Definition count_or_zero (v : jsval) (k : string) : jsval :=
  match JS.get v k with
  | inr n => js_or n (JNum 0)
  | inl _ => JNum 0
  end.

(** [result.tokens || { prompt: 0, completion: 0, total: 0 }], then
    [tokens.x || 0] for each count ([tokens] is truthy, so reading its
    properties does not throw). *)
Definition token_counts (result : jsval) : JS.result Tokens :=
  match JS.get result "tokens" with
  | inl e => inl e
  | inr t =>
      let tokens :=
        js_or t (JObj [("prompt", JNum 0); ("completion", JNum 0); ("total", JNum 0)]) in
      inr (mkTokens (count_or_zero tokens "prompt") (count_or_zero tokens "completion")
             (count_or_zero tokens "total"))
  end.

Section Execute.

Variable env : Environment.

(** The statements of [execute] after the provider answered with a parsed
    [result] (lines 121-149). *)
Definition resolve_decision (inputs : gmap string jsval)
  (targetBlocks : list TargetBlock) (result : jsval) : M World BlockOutput :=
  content ← lift (response_content result);
  let chosenBlockId := toLowerCase (trim content) in
  match find_candidate chosenBlockId targetBlocks with
  | None =>
      log LError ("Invalid routing decision. Response content: " +:+ dquote +:+ content
                  +:+ dquote +:+ ", available blocks:") None ;;
      throw (Error ("Invalid routing decision: " +:+ chosenBlockId))
  | Some chosenBlock =>
      tokens ← lift (token_counts result);
      model ← lift (JS.get result "model");
      mret {| out_content := prop inputs "prompt";
              out_model := model;
              out_tokens := tokens;
              selectedPath :=
                {| blockId := tb_id chosenBlock;
                   blockType := str_or (Some (tb_type chosenBlock)) "unknown";
                   blockTitle := str_or (Some (tb_title chosenBlock)) "Untitled Block" |} |}
  end.

(** The statements of [execute] up to the parsed answer of the provider
    (lines 61-119): the candidates and [result]. *)
Definition ask_provider (block : SerializedBlock) (inputs : gmap string jsval)
  : M World (list TargetBlock * jsval) :=
  context ← gets w_context;
  lift (validateRouterConfiguration block context) ;;
  targetBlocks ← getTargetBlocks block context;
  match targetBlocks with
  | [] => throw (Error ("Router block " +:+ sb_id block +:+ " has no valid target blocks"))
  | _ =>
      let prompt := prop inputs "prompt" in
      let model := js_or (prop inputs "model") (JStr "gpt-4o") in
      let apiKey := prop inputs "apiKey" in
      let temperature := js_or (prop inputs "temperature") (JNum 0) in
      if negb (truthy prompt) then throw (Error "Router prompt is required")
      else
        providerId ← lift (getProviderFromModel env model);
        let baseUrl := str_or (NEXT_PUBLIC_APP_URL env) "" in
        url ← lift (new_URL env "/api/providers" baseUrl);
        let messages := [mkMessage "user" prompt] in
        systemPrompt ← lift (generateRouterPrompt env prompt targetBlocks);
        let providerRequest :=
          {| req_provider := providerId;
             req_model := model;
             req_systemPrompt := systemPrompt;
             req_context := messages;
             req_temperature := temperature;
             req_apiKey := apiKey;
             req_workflowId := workflowId context |} in
        response ← do_fetch env url providerRequest;
        if negb (resp_ok response) then throw (provider_failure response)
        else
          result ← lift (resp_json response);
          mret (targetBlocks, result)
  end.

(** The body of the [try] in [execute]. *)
Definition execute_body (block : SerializedBlock) (inputs : gmap string jsval)
  : M World BlockOutput :=
  answered ← ask_provider block inputs;
  resolve_decision inputs answered.1 answered.2.

Definition execute (block : SerializedBlock) (inputs : gmap string jsval)
  : M World BlockOutput :=
  try_catch (execute_body block inputs)
    (λ error, log LError "Router execution failed:" (Some error) ;; throw error).

End Execute.

(** [canHandle] *)
Definition canHandle (block : SerializedBlock) : bool :=
  bool_decide (metadata_id block = Some "router").

End Router.

(** ** The serializer *)

Module Serializer.

(** *** Editor-side types ([@/stores/workflows/workflow/types], [reactflow]) *)

Record SubBlockState : Type := mkSubBlock {
  sub_id : string;
  sub_type : string;
  sub_value : jsval;
}.

(** [type] is optional because [validateBlockBeforeSerialization] tests
    [!block.type]. *)
Record BlockState : Type := mkBlockState {
  bs_id : string;
  bs_type : option string;
  bs_name : string;
  bs_position : jsval;
  bs_subBlocks : gmap string SubBlockState;
  bs_outputs : gmap string jsval;
  bs_enabled : bool;
  bs_horizontalHandles : bool;
  bs_isWide : bool;
  bs_height : jsval;
}.

Record Edge : Type := mkEdge {
  edge_id : string;
  edge_source : string;
  edge_target : string;
  edge_sourceHandle : option string;
  edge_targetHandle : option string;
}.

(** *** The block registry ([@/blocks]) *)

Record SubBlockConfig : Type := mkSubBlockConfig {
  sbc_id : string;
  sbc_type : string;
  (** the optional default-value function [value: (params) => ...] *)
  sbc_value : option (gmap string jsval → result jsval);
}.

Record ToolsConfig : Type := mkTools {
  access : list string;
  (** [config?.tool] *)
  config_tool : option (gmap string jsval → result string);
}.

Record BlockConfig : Type := mkBlockConfig {
  bc_name : string;
  bc_description : option string;
  bc_category : string;
  bc_bgColor : string;
  bc_subBlocks : list SubBlockConfig;
  bc_tools : ToolsConfig;
  (** [inputs]: the declared type of each input *)
  bc_inputs : option (gmap string string);
}.

(** The collaborators of the serializer. *)
Record Environment : Type := mkEnv {
  (** [getBlock] of [@/blocks]: the registry lookup *)
  getBlock : string → option BlockConfig;
  (** [JSON.parse] *)
  JSON_parse : jsval → result jsval;
  (** the successive results of [crypto.randomUUID()] *)
  randomUUID : nat → string;
}.

(** The logger and the number of UUIDs drawn so far. *)
Record World : Type := mkWorld {
  w_log : list LogEntry;
  w_uuids : nat;
}.

Definition log (l : Level) (msg : string) (d : option exn) : M World unit :=
  modify (λ w, mkWorld (w_log w ++ [mkLog l msg d]) (w_uuids w)).

Definition crypto_randomUUID (env : Environment) : M World string :=
  n ← gets w_uuids;
  modify (λ w, mkWorld (w_log w) (S (w_uuids w))) ;;
  mret (randomUUID env n).

(** [x || undefined] for an optional handle *)
Definition or_undefined (o : option string) : option string :=
  match o with
  | Some s => if String.eqb s "" then None else Some s
  | None => None
  end.

(** [!o] for an optional string *)
Definition falsy_str (o : option string) : bool :=
  match o with
  | Some s => String.eqb s ""
  | None => true
  end.

Section WithEnvironment.

Variable env : Environment.

(** [getBlock(type)] for a [type] that may be [undefined] *)
Definition get_block (type : option string) : option BlockConfig :=
  t ← type; getBlock env t.

Definition validateBlockBeforeSerialization (block : option BlockState) : M World bool :=
  match block with
  | None => log LError "Block is undefined or null" None ;; mret false
  | Some block =>
      if falsy_str (bs_type block)
      then log LError ("Block " +:+ bs_id block +:+ " has no type defined") None ;; mret false
      else
        match get_block (bs_type block) with
        | None =>
            log LError ("Invalid block type: " +:+ show (bs_type block) +:+ " for block "
                        +:+ bs_id block) None ;;
            mret false
        | Some _ => mret true
        end
  end.

(** One step of the [forEach] over [blockConfig.subBlocks] in
    [extractParams]. *)
Definition apply_default (params : gmap string jsval) (subBlockConfig : SubBlockConfig)
  : result (gmap string jsval) :=
  let id := sbc_id subBlockConfig in
  match sbc_value subBlockConfig with
  | Some value =>
      if is_null (prop params id)
      then match value params with
           | inl e => inl e
           | inr v => inr (<[id := v]> params)
           end
      else inr params
  | None => inr params
  end.

Fixpoint apply_defaults (subBlocks : list SubBlockConfig) (params : gmap string jsval)
  : result (gmap string jsval) :=
  match subBlocks with
  | [] => inr params
  | subBlockConfig :: rest =>
      match apply_default params subBlockConfig with
      | inl e => inl e
      | inr params' => apply_defaults rest params'
      end
  end.

(** The current values: [params[id] = subBlock.value] for every entry of
    [block.subBlocks]. A sub-block named [__proto__] is beyond this map:
    for that name the assignment runs the setter of [Object.prototype]
    and creates no property, so what is proved of the parameters below is
    proved for blocks without a sub-block of that name. *)
Definition collect_values (block : BlockState) : gmap string jsval :=
  sub_value <$> bs_subBlocks block.

Definition extractParams (block : BlockState) : M World (gmap string jsval) :=
  try_catch
    (match get_block (bs_type block) with
     | None => throw (Error ("Invalid block type: " +:+ show (bs_type block)))
     | Some blockConfig =>
         lift (apply_defaults (bc_subBlocks blockConfig) (collect_values block))
     end)
    (λ error,
       log LError ("Error extracting params for block " +:+ bs_id block +:+ ":") (Some error) ;;
       throw error).

(** [blockConfig.tools.config?.tool ? blockConfig.tools.config.tool(params)
     : blockConfig.tools.access[0]] *)
Definition resolve_tool (blockConfig : BlockConfig) (params : gmap string jsval)
  : result (option string) :=
  match config_tool (bc_tools blockConfig) with
  | Some tool => match tool params with inl e => inl e | inr t => inr (Some t) end
  | None => inr (head (access (bc_tools blockConfig)))
  end.

(** [Array.isArray(params.tools) ? params.tools : JSON.parse(params.tools)],
    as the receiver of [.filter]. *)
Definition tools_array (tools : jsval) : result (list jsval) :=
  match tools with
  | JArr items => inr items
  | _ =>
      match JSON_parse env tools with
      | inl e => inl e
      | inr (JArr items) => inr items
      | inr JNull => inl (TypeError "Cannot read properties of null (reading 'filter')")
      | inr _ => inl (TypeError "tools.filter is not a function")
      end
  end.

(** [tools.filter((tool) => tool.type !== 'custom-tool')] *)
Fixpoint nonCustomTools (tools : list jsval) : result (list jsval) :=
  match tools with
  | [] => inr []
  | tool :: rest =>
      match JS.get tool "type" with
      | inl e => inl e
      | inr ty =>
          match nonCustomTools rest with
          | inl e => inl e
          | inr kept => inr (if differs_from_str ty "custom-tool" then tool :: kept else kept)
          end
      end
  end.

(** The body of the [try] that processes the tools of an agent block. *)
Definition agent_toolId (blockConfig : BlockConfig) (params : gmap string jsval)
  : result (option string) :=
  match tools_array (prop params "tools") with
  | inl e => inl e
  | inr tools =>
      match nonCustomTools tools with
      | inl e => inl e
      | inr [] => inr (Some "")
      | inr _ => resolve_tool blockConfig params
      end
  end.

(** The tool identifier of a block (lines 220-247). *)
Definition resolve_toolId (block : BlockState) (blockConfig : BlockConfig)
  (params : gmap string jsval) : M World (option string) :=
  if bool_decide (bs_type block = Some "agent") && truthy (prop params "tools")
  then
    try_catch (lift (agent_toolId blockConfig params))
      (λ error,
         log LError "Error processing tools in agent block:" (Some error) ;;
         mret (head (access (bc_tools blockConfig))))
  else lift (resolve_tool blockConfig params).

(** [{ ...block.outputs, ...(params.responseFormat
       ? { responseFormat: JSON.parse(params.responseFormat) } : {}) }] *)
Definition block_outputs (block : BlockState) (params : gmap string jsval)
  : result (gmap string jsval) :=
  if truthy (prop params "responseFormat")
  then match JSON_parse env (prop params "responseFormat") with
       | inl e => inl e
       | inr v => inr (<["responseFormat" := v]> (bs_outputs block))
       end
  else inr (bs_outputs block).

Definition serializeBlock (block : BlockState) : M World SerializedBlock :=
  try_catch
    (match get_block (bs_type block) with
     | None => throw (Error ("Invalid block type: " +:+ show (bs_type block)))
     | Some blockConfig =>
         params ← extractParams block;
         toolId ← resolve_toolId block blockConfig params;
         let inputs := JStr <$> default ∅ (bc_inputs blockConfig) in
         outputs ← lift (block_outputs block params);
         mret {| sb_id := bs_id block;
                 sb_position := bs_position block;
                 sb_config := Some {| cfg_tool := toolId; cfg_params := Some params |};
                 sb_inputs := Some inputs;
                 sb_outputs := outputs;
                 sb_metadata :=
                   Some {| meta_id := bs_type block;
                           meta_name := Some (bs_name block);
                           meta_description := bc_description blockConfig;
                           meta_category := Some (bc_category blockConfig);
                           meta_color := Some (bc_bgColor blockConfig) |};
                 sb_enabled := Some (bs_enabled block) |}
     end)
    (λ error,
       log LError ("Error serializing block " +:+ bs_id block +:+ ":") (Some error) ;;
       throw error).

(** [Object.values(blocks).filter(block => ...)]: the blocks that pass
    validation; each other one is reported. *)
Fixpoint valid_blocks (values : list (option BlockState)) : M World (list BlockState) :=
  match values with
  | [] => mret []
  | block :: rest =>
      isValid ← validateBlockBeforeSerialization block;
      (if isValid : bool then mret tt
       else log LWarn ("Skipping invalid block during serialization: "
                       +:+ show (bs_id <$> block)) None) ;;
      kept ← valid_blocks rest;
      mret (match block with
            | Some b => if isValid : bool then b :: kept else kept
            | None => kept
            end)
  end.

Definition serialize_edge (edge : Edge) : Connection :=
  {| source := edge_source edge;
     target := edge_target edge;
     sourceHandle := or_undefined (edge_sourceHandle edge);
     targetHandle := or_undefined (edge_targetHandle edge) |}.

(** [blocks] is the record of the editor, as its entries in the order of
    [Object.values]. *)
Definition serializeWorkflow (blocks : list (string * option BlockState))
  (edges : list Edge) (loops : gmap string Loop) : M World SerializedWorkflow :=
  validBlocks ← valid_blocks (blocks.*2);
  serialized ← map_m serializeBlock validBlocks;
  mret (mkWorkflow "1.0" (Some <$> serialized) (serialize_edge <$> edges) loops).

Definition validateSerializedBlock (serializedBlock : option SerializedBlock)
  : M World bool :=
  match serializedBlock with
  | None => log LError "Serialized block is undefined or null" None ;; mret false
  | Some serializedBlock =>
      match metadata_id serializedBlock with
      | None | Some "" =>
          log LError ("Block " +:+ sb_id serializedBlock +:+ " has no type defined in metadata")
            None ;;
          mret false
      | Some type =>
          match getBlock env type with
          | None =>
              log LError ("Invalid block type in metadata: " +:+ type +:+ " for block "
                          +:+ sb_id serializedBlock) None ;;
              mret false
          | Some _ => mret true
          end
      end
  end.

(** [serializedBlock.config.params[id] ?? null] *)
Definition read_param (serializedBlock : SerializedBlock) (id : string) : result jsval :=
  match sb_config serializedBlock with
  | None => inl (TypeError "Cannot read properties of undefined (reading 'params')")
  | Some config =>
      match cfg_params config with
      | None =>
          inl (TypeError ("Cannot read properties of undefined (reading '" +:+ id +:+ "')"))
      | Some params => inr (nullish (prop params id) JNull)
      end
  end.

(** The [forEach] over [blockConfig.subBlocks] in [deserializeBlock]. *)
Fixpoint restore_subBlocks (serializedBlock : SerializedBlock)
  (declared : list SubBlockConfig) (subBlocks : gmap string SubBlockState)
  : result (gmap string SubBlockState) :=
  match declared with
  | [] => inr subBlocks
  | subBlock :: rest =>
      match read_param serializedBlock (sbc_id subBlock) with
      | inl e => inl e
      | inr value =>
          restore_subBlocks serializedBlock rest
            (<[sbc_id subBlock := mkSubBlock (sbc_id subBlock) (sbc_type subBlock) value]>
               subBlocks)
      end
  end.

Definition deserializeBlock (serializedBlock : SerializedBlock) : M World BlockState :=
  try_catch
    (match metadata_id serializedBlock with
     | None | Some "" =>
         throw (Error ("Invalid block type: " +:+ show (metadata_id serializedBlock)))
     | Some blockType =>
         match getBlock env blockType with
         | None => throw (Error ("Invalid block type: " +:+ blockType))
         | Some blockConfig =>
             subBlocks ← lift (restore_subBlocks serializedBlock (bc_subBlocks blockConfig) ∅);
             mret {| bs_id := sb_id serializedBlock;
                     bs_type := Some blockType;
                     bs_name := str_or (metadata_name serializedBlock) (bc_name blockConfig);
                     bs_position := sb_position serializedBlock;
                     bs_subBlocks := subBlocks;
                     bs_outputs := sb_outputs serializedBlock;
                     bs_enabled := default true (sb_enabled serializedBlock);
                     bs_horizontalHandles := true;
                     bs_isWide := false;
                     bs_height := JNum 0 |}
         end
     end)
    (λ error,
       log LError ("Error deserializing block " +:+ sb_id serializedBlock +:+ ":")
         (Some error) ;;
       throw error).

(** *** The object [blocks] of [deserializeWorkflow]

    [blocks] starts as the object literal [{}], so its prototype is
    [Object.prototype]. [blocks[k] = b] creates or overwrites the own
    property [k], except for [k = "__proto__"]: that name is an accessor
    of [Object.prototype], and assigning an object to it replaces the
    prototype of [blocks]. [blocks[k]] reads the own property, else the
    property of the prototype chain. *)
Record BlocksObject : Type := mkBlocksObject {
  own : gmap string BlockState;
  proto : option BlockState;
}.

Definition empty_object : BlocksObject := mkBlocksObject ∅ None.

Definition set_property (k : string) (b : BlockState) (o : BlocksObject) : BlocksObject :=
  if String.eqb k "__proto__" then mkBlocksObject (own o) (Some b)
  else mkBlocksObject (<[k := b]> (own o)) (proto o).

(** The properties of [Object.prototype]; each is a function, or the
    accessor [__proto__] whose getter gives the prototype, so that reading
    any of them through [blocks] gives a truthy value. *)
Definition Object_prototype_names : list string :=
  [ "constructor"; "hasOwnProperty"; "isPrototypeOf"; "propertyIsEnumerable";
    "toLocaleString"; "toString"; "valueOf"; "__proto__";
    "__defineGetter__"; "__defineSetter__"; "__lookupGetter__"; "__lookupSetter__" ].

(** Truthiness of the own property [k] of a block object that
    [deserializeBlock] built; [None] when it has no such property. *)
Definition block_field_truthy (k : string) (b : BlockState) : option bool :=
  if String.eqb k "id" then Some (negb (String.eqb (bs_id b) ""))
  else if String.eqb k "type" then Some (negb (falsy_str (bs_type b)))
  else if String.eqb k "name" then Some (negb (String.eqb (bs_name b) ""))
  else if String.eqb k "position" then Some (truthy (bs_position b))
  else if String.eqb k "subBlocks" then Some true
  else if String.eqb k "outputs" then Some true
  else if String.eqb k "enabled" then Some (bs_enabled b)
  else if String.eqb k "horizontalHandles" then Some (bs_horizontalHandles b)
  else if String.eqb k "isWide" then Some (bs_isWide b)
  else if String.eqb k "height" then Some (truthy (bs_height b))
  else None.

(** Whether [blocks[k]] is truthy. *)
Definition has_truthy (o : BlocksObject) (k : string) : bool :=
  match own o !! k with
  | Some _ => true
  | None =>
      match proto o ≫= block_field_truthy k with
      | Some t => t
      | None => bool_decide (k ∈ Object_prototype_names)
      end
  end.

(** The body of the first [forEach] of [deserializeWorkflow], with its
    [try]/[catch]. *)
Definition deserialize_entry (blocks : BlocksObject)
  (serializedBlock : option SerializedBlock) : M World BlocksObject :=
  try_catch
    (valid ← validateSerializedBlock serializedBlock;
     match serializedBlock with
     | Some sb =>
         if valid : bool
         then block ← deserializeBlock sb; mret (set_property (bs_id block) block blocks)
         else
           log LWarn ("Skipping invalid block during deserialization: " +:+ sb_id sb) None ;;
           mret blocks
     | None =>
         log LWarn "Skipping invalid block during deserialization: undefined" None ;;
         mret blocks
     end)
    (λ error,
       log LError ("Error deserializing block " +:+ show (sb_id <$> serializedBlock) +:+ ":")
         (Some error) ;;
       mret blocks).

Fixpoint deserialize_blocks (entries : list (option SerializedBlock))
  (blocks : BlocksObject) : M World BlocksObject :=
  match entries with
  | [] => mret blocks
  | serializedBlock :: rest =>
      blocks' ← deserialize_entry blocks serializedBlock;
      deserialize_blocks rest blocks'
  end.

(** The body of the second [forEach]: the edge of a kept connection. *)
Definition deserialize_connection (blocks : BlocksObject) (connection : Connection)
  : M World (option Edge) :=
  if has_truthy blocks (source connection) && has_truthy blocks (target connection)
  then
    id ← crypto_randomUUID env;
    mret (Some {| edge_id := id;
                  edge_source := source connection;
                  edge_target := target connection;
                  edge_sourceHandle := sourceHandle connection;
                  edge_targetHandle := targetHandle connection |})
  else
    log LWarn "Skipping connection with missing blocks:" None ;;
    mret None.

Definition deserializeWorkflow (workflow : SerializedWorkflow)
  : M World (BlocksObject * list Edge) :=
  blocks ← deserialize_blocks (blocks workflow) empty_object;
  pushed ← map_m (deserialize_connection blocks) (connections workflow);
  mret (blocks, omap id pushed).

(** A block that is typed with a type of the registry. *)
Definition valid_block (b : BlockState) : Prop :=
  falsy_str (bs_type b) = false ∧ is_Some (get_block (bs_type b)).

(** What [serializeBlock] writes for a block, when it returns. *)
Definition serialized_as (b : BlockState) (sb : SerializedBlock) : Prop :=
  sb_id sb = bs_id b
  ∧ metadata_id sb = bs_type b
  ∧ sb_enabled sb = Some (bs_enabled b)
  ∧ ∃ tool params, sb_config sb = Some (mkConfig tool (Some params)).


End WithEnvironment.

End Serializer.

(** ** A block definition of the registry ([blocks/blocks/dynamics365.ts]) *)

Module Blocks.
Import Serializer.

(** [tools.config.tool] of [Dynamics365Block] (its [console.log] is left
    out). *)
Definition dynamics365_tool (params : gmap string jsval) : result string :=
  let operation := prop params "operation" in
  let salesOperation := prop params "salesOperation" in
  if negb (differs_from_str operation "sales") && negb (truthy salesOperation)
  then inl (Error ("Sales operation type is required when operation is " +:+ dquote
                   +:+ "sales" +:+ dquote))
  else
    match operation with
    | JStr "create" => inr "dynamics365_create"
    | JStr "retrieve" => inr "dynamics365_retrieve"
    | JStr "update" => inr "dynamics365_update"
    | JStr "delete" => inr "dynamics365_delete"
    | JStr "leads" => inr "dynamics365_leads"
    | JStr "sales" => inr "dynamics365_sales"
    | _ => inl (error_with "Invalid Dynamics 365 operation: " operation)
    end.

Definition Dynamics365Block : BlockConfig :=
  {| bc_name := "Dynamics 365";
     bc_description := Some "Manage Dynamics 365 CRM records";
     bc_category := "tools";
     bc_bgColor := "#0078D4";
     bc_subBlocks :=
       [ mkSubBlockConfig "operation" "dropdown" None;
         mkSubBlockConfig "credential" "oauth-input" None;
         mkSubBlockConfig "organizationUrl" "short-input" None;
         mkSubBlockConfig "entityType" "short-input" None;
         mkSubBlockConfig "id" "short-input" None;
         mkSubBlockConfig "leadOperation" "dropdown" None;
         mkSubBlockConfig "leadStatus" "dropdown" None;
         mkSubBlockConfig "salesOperation" "dropdown" (Some (λ _, inr (JStr "sales_summary")));
         mkSubBlockConfig "startDate" "date-input" None;
         mkSubBlockConfig "endDate" "date-input" None;
         mkSubBlockConfig "data" "code" None;
         mkSubBlockConfig "select" "long-input" None;
         mkSubBlockConfig "filter" "short-input" None;
         mkSubBlockConfig "maxResults" "short-input" None ];
     bc_tools :=
       {| access := [ "dynamics365_create"; "dynamics365_retrieve"; "dynamics365_update";
                      "dynamics365_delete"; "dynamics365_sales" ];
          config_tool := Some dynamics365_tool |};
     bc_inputs :=
       Some (list_to_map
               [ ("operation", "string"); ("credential", "string");
                 ("organizationUrl", "string"); ("entityType", "string"); ("id", "string");
                 ("data", "json"); ("select", "string"); ("filter", "string");
                 ("maxResults", "number"); ("leadOperation", "string");
                 ("leadStatus", "string"); ("salesOperation", "string");
                 ("startDate", "string"); ("endDate", "string") ]) |}.

End Blocks.

(** ** Concrete graphs and collaborators *)

Module Examples.
Import Router.

Definition block_of (id type name : string) (enabled : bool) : SerializedBlock :=
  {| sb_id := id;
     sb_position := JObj [("x", JNum 0); ("y", JNum 0)];
     sb_config := Some (mkConfig (Some type) (Some ∅));
     sb_inputs := Some ∅;
     sb_outputs := ∅;
     sb_metadata := Some (mkMetadata (Some type) (Some name) None None None);
     sb_enabled := Some enabled |}.

Definition router_A : SerializedBlock := block_of "A" "router" "Router" true.

(** Blocks [A] (router), [B] (agent, enabled), [C] (agent, disabled) with
    the connections [A -> B] and [A -> C]. *)
Definition graph_ABC : SerializedWorkflow :=
  mkWorkflow "1.0"
    [ Some router_A; Some (block_of "B" "agent" "Agent B" true);
      Some (block_of "C" "agent" "Agent C" false) ]
    [ mkConnection "A" "B" None None; mkConnection "A" "C" None None ]
    ∅.

(** The same blocks with the single connection [A -> B]. *)
Definition graph_AB : SerializedWorkflow :=
  mkWorkflow "1.0"
    [ Some router_A; Some (block_of "B" "agent" "Agent B" true);
      Some (block_of "C" "agent" "Agent C" false) ]
    [ mkConnection "A" "B" None None ]
    ∅.

(** A router [A] with a single enabled target whose id is lower-case. *)
Definition graph_Ab : SerializedWorkflow :=
  mkWorkflow "1.0"
    [ Some router_A; Some (block_of "b" "agent" "Agent b" true) ]
    [ mkConnection "A" "b" None None ]
    ∅.

(** A graph in which nothing leaves [A]. *)
Definition graph_isolated : SerializedWorkflow :=
  mkWorkflow "1.0"
    [ Some router_A; Some (block_of "B" "agent" "Agent B" true) ]
    [ mkConnection "B" "A" None None ]
    ∅.

Definition world_of (wf : SerializedWorkflow) : World :=
  mkWorld (mkContext (Some wf) "wf-1" ∅) [] [].

(** A provider that answers every request with the text [answer]. *)
Definition env_answering (answer : string) : Environment :=
  {| getProviderFromModel := λ _, inr "openai";
     generateRouterPrompt := λ _ _, inr "Choose the next block.";
     NEXT_PUBLIC_APP_URL := Some "http://localhost:3000";
     new_URL := λ path base, inr (base +:+ path);
     fetch := λ _ _,
       inr (mkResponse true 200
              (inr (JObj [("content", JStr answer); ("model", JStr "gpt-4o")]))) |}.

Definition inputs_prompt : gmap string jsval := {[ "prompt" := JStr "Pick one" ]}.

(** The candidate that the example graphs give for the agent [id]. *)
Definition candidate (id : string) : TargetBlock :=
  describe_target (w_context (world_of graph_AB))
    (block_of id "agent" ("Agent " +:+ id) true).

(** The world after the provider was asked once about [wf]. *)
Definition asked_once (wf : SerializedWorkflow) : World :=
  mkWorld (w_context (world_of wf)) []
    [ ("http://localhost:3000/api/providers",
       mkRequest "openai" (JStr "gpt-4o") "Choose the next block."
         [mkMessage "user" (JStr "Pick one")] (JNum 0) JUndefined "wf-1") ].

Definition answer_of (text : string) : jsval :=
  JObj [("content", JStr text); ("model", JStr "gpt-4o")].

(** *** A registry and editor graphs *)

(** An agent definition: the tool follows the [provider] parameter. *)
Definition AgentBlock : Serializer.BlockConfig :=
  {| Serializer.bc_name := "Agent";
     Serializer.bc_description := Some "Build an agent";
     Serializer.bc_category := "blocks";
     Serializer.bc_bgColor := "#7F2FFF";
     Serializer.bc_subBlocks :=
       [ Serializer.mkSubBlockConfig "systemPrompt" "long-input" None;
         Serializer.mkSubBlockConfig "tools" "tool-input" None;
         Serializer.mkSubBlockConfig "responseFormat" "code" None ];
     Serializer.bc_tools :=
       {| Serializer.access := ["openai_chat"; "anthropic_chat"];
          Serializer.config_tool :=
            Some (λ params,
                    match prop params "provider" with
                    | JStr "anthropic" => inr "anthropic_chat"
                    | JStr "openai" => inr "openai_chat"
                    | other => inl (error_with "Invalid provider: " other)
                    end) |};
     Serializer.bc_inputs := Some {[ "systemPrompt" := "string" ]} |}.

(** A definition whose [operation] field has a default and decides the
    tool. *)
Definition CrmBlock : Serializer.BlockConfig :=
  {| Serializer.bc_name := "CRM";
     Serializer.bc_description := None;
     Serializer.bc_category := "tools";
     Serializer.bc_bgColor := "#000000";
     Serializer.bc_subBlocks :=
       [ Serializer.mkSubBlockConfig "operation" "dropdown"
           (Some (λ _, inr (JStr "retrieve"))) ];
     Serializer.bc_tools :=
       {| Serializer.access := ["crm_create"; "crm_retrieve"];
          Serializer.config_tool :=
            Some (λ params,
                    match prop params "operation" with
                    | JStr "retrieve" => inr "crm_retrieve"
                    | _ => inr "crm_create"
                    end) |};
     Serializer.bc_inputs := None |}.

Definition registry (type : string) : option Serializer.BlockConfig :=
  if String.eqb type "dynamics365" then Some Blocks.Dynamics365Block
  else if String.eqb type "agent" then Some AgentBlock
  else if String.eqb type "crm" then Some CrmBlock
  else None.

(** Agrees with [JSON.parse] on the texts that the examples use. *)
Definition parse_sample (v : jsval) : result jsval :=
  match v with
  | JStr "[]" => inr (JArr [])
  | JStr "null" => inr JNull
  | _ => inl (SyntaxError "Unexpected token")
  end.

Definition serializer_env : Serializer.Environment :=
  {| Serializer.getBlock := registry;
     Serializer.JSON_parse := parse_sample;
     Serializer.randomUUID := λ n, "uuid-" +:+ pretty n |}.

Definition fresh : Serializer.World := Serializer.mkWorld [] 0.

Definition editor_block (id type : string) (enabled : bool)
  (values : list (string * jsval)) : Serializer.BlockState :=
  {| Serializer.bs_id := id;
     Serializer.bs_type := Some type;
     Serializer.bs_name := "Block " +:+ id;
     Serializer.bs_position := JObj [("x", JNum 0); ("y", JNum 0)];
     Serializer.bs_subBlocks :=
       list_to_map ((λ kv, (kv.1, Serializer.mkSubBlock kv.1 "short-input" kv.2)) <$> values);
     Serializer.bs_outputs := ∅;
     Serializer.bs_enabled := enabled;
     Serializer.bs_horizontalHandles := true;
     Serializer.bs_isWide := false;
     Serializer.bs_height := JNum 0 |}.

(** A Dynamics 365 block as the editor creates it: every declared field
    is there, nothing is filled in yet. *)
Definition new_dynamics365 : Serializer.BlockState :=
  editor_block "d1" "dynamics365" true
    ((λ c, (Serializer.sbc_id c, JNull))
       <$> Serializer.bc_subBlocks Blocks.Dynamics365Block).

(** A Dynamics 365 block set up to create records. *)
Definition create_dynamics365 : Serializer.BlockState :=
  editor_block "d2" "dynamics365" true
    [("operation", JStr "create"); ("credential", JStr "cred-1");
     ("organizationUrl", JStr "https://org.crm.dynamics.com");
     ("salesOperation", JNull)].

(** A Dynamics 365 sales block whose [salesOperation] has no entry. *)
Definition sales_dynamics365 : Serializer.BlockState :=
  editor_block "d3" "dynamics365" true [("operation", JStr "sales")].

(** An agent whose [tools] parameter is not JSON. *)
Definition agent_bad_tools : Serializer.BlockState :=
  editor_block "a1" "agent" true
    [("systemPrompt", JStr "You route."); ("tools", JStr "not json")].

(** An agent whose [tools] and [responseFormat] parameters are both not
    JSON. *)
Definition agent_bad_format : Serializer.BlockState :=
  editor_block "a3" "agent" true
    [("tools", JStr "not json"); ("responseFormat", JStr "{oops")].

(** A CRM block without an entry for [operation]. *)
Definition crm_plain : Serializer.BlockState := editor_block "c1" "crm" false [].

(** The field [salesOperation] of [Dynamics365Block], with the fields
    declared before and after it. *)
Definition salesOperation_field : Serializer.SubBlockConfig :=
  Serializer.mkSubBlockConfig "salesOperation" "dropdown"
    (Some (λ _, inr (JStr "sales_summary"))).

Definition fields_before : list Serializer.SubBlockConfig :=
  take 7 (Serializer.bc_subBlocks Blocks.Dynamics365Block).

Definition fields_after : list Serializer.SubBlockConfig :=
  drop 8 (Serializer.bc_subBlocks Blocks.Dynamics365Block).

(** An editor graph of two blocks and one edge, and its document. *)
Definition sample_graph : list (string * option Serializer.BlockState) :=
  [("d2", Some create_dynamics365); ("a1", Some agent_bad_tools)].

Definition sample_edges : list Serializer.Edge :=
  [Serializer.mkEdge "e1" "d2" "a1" (Some "") (Some "in")].

Definition sample_run : result SerializedWorkflow * Serializer.World :=
  Serializer.serializeWorkflow serializer_env sample_graph sample_edges ∅ fresh.

Definition sample_document : SerializedWorkflow :=
  match sample_run.1 with
  | inr doc => doc
  | inl _ => mkWorkflow "" [] [] ∅
  end.

End Examples.

(** ** Views of the router handler used to state its properties *)

Module RouterViews.
Import Router Examples.

(** The candidates of a router: one per outgoing connection whose target
    exists and is enabled, in the order of the connections. *)
Definition candidates (block : SerializedBlock) (context : ExecutionContext)
  : list TargetBlock :=
  omap id (candidate_of context <$> default [] (outgoingConnections block context)).

(** The request that [execute] prepares for the candidates [targetBlocks]
    (lines 69-96): the address and the body of the POST, or the error thrown
    on the way. *)
Definition provider_request (env : Environment) (context : ExecutionContext)
  (inputs : gmap string jsval) (targetBlocks : list TargetBlock)
  : result (string * ProviderRequest) :=
  if negb (truthy (prop inputs "prompt")) then inl (Error "Router prompt is required")
  else
    match getProviderFromModel env (js_or (prop inputs "model") (JStr "gpt-4o")) with
    | inl e => inl e
    | inr providerId =>
        match new_URL env "/api/providers" (str_or (NEXT_PUBLIC_APP_URL env) "") with
        | inl e => inl e
        | inr url =>
            match generateRouterPrompt env (prop inputs "prompt") targetBlocks with
            | inl e => inl e
            | inr systemPrompt =>
                inr (url,
                     {| req_provider := providerId;
                        req_model := js_or (prop inputs "model") (JStr "gpt-4o");
                        req_systemPrompt := systemPrompt;
                        req_context := [mkMessage "user" (prop inputs "prompt")];
                        req_temperature := js_or (prop inputs "temperature") (JNum 0);
                        req_apiKey := prop inputs "apiKey";
                        req_workflowId := workflowId context |})
            end
        end
    end.

(** The world after the provider call. *)
Definition sent (w : World) (url : string) (req : ProviderRequest) : World :=
  mkWorld (w_context w) (w_log w) (w_fetches w ++ [(url, req)]).

(** A provider whose answer is not ok: status 429 with the given body. *)
Definition env_refusing (body : result jsval) : Environment :=
  {| getProviderFromModel := λ _, inr "openai";
     generateRouterPrompt := λ _ _, inr "Choose the next block.";
     NEXT_PUBLIC_APP_URL := Some "http://localhost:3000";
     new_URL := λ path base, inr (base +:+ path);
     fetch := λ _ _, inr (mkResponse false 429 body) |}.

(** The output of the router [A] of [graph_Ab] for the answer [" B "]. *)
Definition output_b : BlockOutput :=
  mkOutput (JStr "Pick one") (JStr "gpt-4o") (mkTokens (JNum 0) (JNum 0) (JNum 0))
    (mkSelectedPath "b" "agent" "Agent b").


Definition rate_limited : jsval := JObj [("error", JStr "Rate limit exceeded")].

(** The router [A] with the targets [B] (enabled), [D] (missing) and [C]
    (disabled), in this order. *)
Definition graph_two_invalid : SerializedWorkflow :=
  mkWorkflow "1.0"
    [ Some router_A; Some (block_of "B" "agent" "Agent B" true);
      Some (block_of "C" "agent" "Agent C" false) ]
    [ mkConnection "A" "B" None None; mkConnection "A" "D" None None;
      mkConnection "A" "C" None None ]
    ∅.

(** A provider registry that knows the models [gpt-4o] and [claude-3], and
    a provider that reports how many tokens it used, without a count for
    the completion. *)
Definition provider_of (model : jsval) : result string :=
  match model with
  | JStr "gpt-4o" => inr "openai"
  | JStr "claude-3" => inr "anthropic"
  | _ => inl (error_with "Unknown model: " model)
  end.

Definition counted_answer (answer : string) : jsval :=
  JObj [("content", JStr answer); ("model", JStr "gpt-4o");
        ("tokens", JObj [("prompt", JNum 12); ("total", JNum 15)])].

Definition env_counting (answer : string) : Environment :=
  {| getProviderFromModel := provider_of;
     generateRouterPrompt := λ _ _, inr "Choose the next block.";
     NEXT_PUBLIC_APP_URL := Some "http://localhost:3000";
     new_URL := λ path base, inr (base +:+ path);
     fetch := λ _ _, inr (mkResponse true 200 (inr (counted_answer answer))) |}.

(** The output of the router [A] of [graph_Ab] for that provider. *)
Definition output_counted : BlockOutput :=
  mkOutput (JStr "Pick one") (JStr "gpt-4o") (mkTokens (JNum 12) (JNum 0) (JNum 15))
    (mkSelectedPath "b" "agent" "Agent b").

End RouterViews.

(** ** Views of the serializer used to state its properties *)

Module SerializerViews.
Import Serializer Examples.

(** Whether [validateBlockBeforeSerialization] accepts an entry. *)
Definition passes_validation (env : Environment) (entry : option BlockState) : bool :=
  match entry with
  | Some b => negb (falsy_str (bs_type b)) && bool_decide (is_Some (get_block env (bs_type b)))
  | None => false
  end.

(** The entries that pass validation, in their order. *)
Definition accepted_blocks (env : Environment) (values : list (option BlockState))
  : list BlockState :=
  omap (λ entry, if passes_validation env entry then entry else None) values.


(** The connection that an edge stands for. *)
Definition connection_of (e : Edge) : Connection :=
  mkConnection (edge_source e) (edge_target e) (edge_sourceHandle e) (edge_targetHandle e).

(** Whether the lookups of the second loop of [deserializeWorkflow] keep a
    connection. *)
Definition passes_lookup (blocks : BlocksObject) (c : Connection) : bool :=
  has_truthy blocks (source c) && has_truthy blocks (target c).

(** An entry of a document that [deserializeWorkflow] accepts: its type is
    in the registry and its [config.params] is there. *)
Definition well_formed (env : Environment) (sb : SerializedBlock) : bool :=
  match metadata_id sb with
  | Some type => negb (String.eqb type "") && bool_decide (is_Some (getBlock env type))
  | None => false
  end
  && bool_decide (is_Some (config_params sb)).

(** The invariant of the first loop of [deserializeWorkflow]: each own
    property of [blocks] is the block of an entry seen so far, under the id
    of that entry, and so is a prototype that an entry installed. *)
Definition restored_from (env : Environment) (entries : list (option SerializedBlock))
  (acc : BlocksObject) : Prop :=
  (∀ k b, own acc !! k = Some b →
     k ≠ "__proto__"
     ∧ ∃ sb, Some sb ∈ entries ∧ sb_id sb = k
             ∧ ∀ w0, deserializeBlock env sb w0 = (inr b, w0))
  ∧ ∀ b, proto acc = Some b →
      ∃ sb, Some sb ∈ entries ∧ sb_id sb = "__proto__"
            ∧ ∀ w0, deserializeBlock env sb w0 = (inr b, w0).

(** What a run gave, for the runs of the examples. *)
Definition document_of (run : result SerializedWorkflow * World) : SerializedWorkflow :=
  match run.1 with
  | inr doc => doc
  | inl _ => mkWorkflow "" [] [] ∅
  end.

Definition params_of (b : BlockState) : gmap string jsval :=
  match (extractParams serializer_env b fresh).1 with
  | inr params => params
  | inl _ => ∅
  end.

Definition blocks_of (run : result (BlocksObject * list Edge) * World) : BlocksObject :=
  match run.1 with
  | inr (restored, _) => restored
  | inl _ => empty_object
  end.

Definition edges_of (run : result (BlocksObject * list Edge) * World) : list Edge :=
  match run.1 with
  | inr (_, kept) => kept
  | inl _ => []
  end.

(** A graph with an entry that is [undefined], a block of an unknown type
    and an untyped block among two valid ones. *)
Definition untyped_block : BlockState :=
  mkBlockState "n1" None "Untyped" JNull ∅ ∅ true true false (JNum 0).

Definition mixed_graph : list (string * option BlockState) :=
  [ ("d2", Some create_dynamics365); ("gone", None);
    ("u1", Some (editor_block "u1" "unknown" true []));
    ("n1", Some untyped_block); ("c1", Some crm_plain) ].

Definition mixed_run : result SerializedWorkflow * World :=
  serializeWorkflow serializer_env mixed_graph sample_edges ∅ fresh.

(** A Dynamics 365 block with a name, a position, an output and a field
    that its definition does not declare. *)
Definition placed_dynamics365 : BlockState :=
  mkBlockState "d5" (Some "dynamics365") "" (JObj [("x", JNum 120); ("y", JNum 80)])
    (list_to_map
       [ ("operation", mkSubBlock "operation" "short-input" (JStr "retrieve"));
         ("entityType", mkSubBlock "entityType" "short-input" (JStr "accounts"));
         ("legacy", mkSubBlock "legacy" "short-input" (JStr "kept by the editor")) ])
    {[ "response" := JStr "json" ]} false false true (JNum 240).

Definition serialized_placed : SerializedBlock :=
  match (serializeBlock serializer_env placed_dynamics365 fresh).1 with
  | inr sb => sb
  | inl _ => mkSerializedBlock "" JNull None None ∅ None None
  end.

(** An agent block with two custom tools; its definition has a tool
    function that throws for it (no [provider] parameter). *)
Definition agent_custom_tools : BlockState :=
  editor_block "a2" "agent" true
    [("systemPrompt", JStr "You help.");
     ("tools", JArr [JObj [("type", JStr "custom-tool"); ("title", JStr "lookup")];
                     JObj [("type", JStr "custom-tool"); ("title", JStr "notify")]])].

(** An entry of a document, of a given type and configuration. *)
Definition entry_of (id type : string) (config : option SerializedConfig) : SerializedBlock :=
  {| sb_id := id;
     sb_position := JObj [("x", JNum 1); ("y", JNum 2)];
     sb_config := config;
     sb_inputs := None;
     sb_outputs := ∅;
     sb_metadata := Some (mkMetadata (Some type) None None None None);
     sb_enabled := None |}.

(** A well-formed entry with a parameter that its definition does not
    declare. *)
Definition good_entry : SerializedBlock :=
  entry_of "d9" "dynamics365"
    (Some (mkConfig (Some "dynamics365_create")
             (Some {[ "operation" := JStr "create"; "stale" := JStr "left over" ]}))).

(** A document with a broken entry (no [config]), a [null] entry, an entry
    of an unknown type, and a well-formed one. *)
Definition patchy_document : SerializedWorkflow :=
  mkWorkflow "1.0"
    [ Some (entry_of "d7" "dynamics365" None); None;
      Some (entry_of "u1" "unknown" (Some (mkConfig None (Some ∅))));
      Some good_entry ]
    [ mkConnection "d9" "d9" (Some "out") None; mkConnection "d9" "d7" None None;
      mkConnection "d9" "d9" None (Some "in") ]
    ∅.

(** Three valid blocks, the second of which has no operation yet. *)
Definition aborting_graph : list (string * option BlockState) :=
  [ ("d2", Some create_dynamics365); ("d1", Some new_dynamics365); ("c1", Some crm_plain) ].

Definition restored_good : BlockState :=
  match (deserializeBlock serializer_env good_entry fresh).1 with
  | inr b => b
  | inl _ => untyped_block
  end.

Definition patchy_run : result (BlocksObject * list Edge) * World :=
  deserializeWorkflow serializer_env patchy_document fresh.

End SerializerViews.

(** ** The parameters of the Dynamics 365 tools ([tools.config.params]) *)

Module Dynamics365.
Import Serializer Blocks.

(** [const { credential, operation, leadOperation, salesOperation,
    organizationUrl, ...rest } = params]: the other own properties. *)
Definition rest_of (params : gmap string jsval) : gmap string jsval :=
  delete "credential"
    (delete "operation"
       (delete "leadOperation" (delete "salesOperation" (delete "organizationUrl" params)))).

Definition validSalesOperations : list string :=
  ["sales_summary"; "payment_status"; "pipeline_status"].

(** [list.includes(v)] for a list of strings *)
Definition includes (list : list string) (v : jsval) : bool :=
  match v with
  | JStr s => bool_decide (s ∈ list)
  | _ => false
  end.

(** [...(v && { k: v })] at the end of an object literal *)
Definition spread_if (k : string) (v : jsval) (obj : gmap string jsval)
  : gmap string jsval :=
  if truthy v then <[k := v]> obj else obj.

(** [value != null] *)
Definition not_nullish (v : jsval) : bool :=
  match v with
  | JUndefined | JNull => false
  | _ => true
  end.

(** [tools.config.params] of [Dynamics365Block] (its [console.log]s are
    left out). In an object literal a later property replaces an earlier
    one of the same name, so the properties of a spread [...rest] that
    closes the literal win: [rest ∪ literal]. The spread defines own
    properties, [__proto__] included; the assignment [acc[key] = value]
    of the last branch does not: for the key [__proto__] it runs the
    setter of [Object.prototype], and [acc] gets no property of that
    name. *)
Definition dynamics365_params (params : gmap string jsval) : result (gmap string jsval) :=
  let credential := prop params "credential" in
  let operation := prop params "operation" in
  let leadOperation := prop params "leadOperation" in
  let salesOperation := prop params "salesOperation" in
  let organizationUrl := prop params "organizationUrl" in
  let rest := rest_of params in
  if negb (truthy organizationUrl) then inl (Error "Organization URL is required")
  else if negb (truthy credential) then inl (Error "Credentials are required")
  else if negb (differs_from_str operation "leads") then
    if negb (truthy leadOperation)
    then inl (Error ("Lead operation is required when operation is " +:+ dquote
                     +:+ "leads" +:+ dquote))
    else inr (rest ∪ {[ "accessToken" := credential; "organizationUrl" := organizationUrl;
                        "operation" := leadOperation; "entityType" := JStr "leads" ]})
  else if negb (differs_from_str operation "sales") then
    if negb (truthy salesOperation)
    then inl (Error ("Sales operation is required when operation is " +:+ dquote
                     +:+ "sales" +:+ dquote))
    else if negb (includes validSalesOperations salesOperation)
    then inl (Error ("Invalid sales operation. Must be one of: "
                     +:+ "sales_summary, payment_status, pipeline_status"))
    else
      inr (spread_if "salesPersonId" (prop rest "salesPersonId")
             (spread_if "endDate" (prop rest "endDate")
                (spread_if "startDate" (prop rest "startDate")
                   {[ "accessToken" := credential; "organizationUrl" := organizationUrl;
                      "operation" := salesOperation ]})))
  else
    let cleanParams :=
      filter (λ kv : string * jsval, not_nullish kv.2 = true) (delete "__proto__" rest) in
    inr (cleanParams ∪ {[ "accessToken" := credential; "organizationUrl" := organizationUrl ]}).

(** The names that the destructuring takes out of [rest]. *)
Definition destructured : list string :=
  ["credential"; "operation"; "leadOperation"; "salesOperation"; "organizationUrl"].

(** Parameters as [extractParams] gives them for a block of the editor:
    every declared field has a key, the fields not filled in are [null]. *)
Definition filled (values : list (string * jsval)) : gmap string jsval :=
  list_to_map values ∪ list_to_map ((λ c, (sbc_id c, JNull)) <$> bc_subBlocks Dynamics365Block).

Definition leads_params : gmap string jsval :=
  filled [ ("operation", JStr "leads"); ("credential", JStr "token-1");
           ("organizationUrl", JStr "https://org.crm.dynamics.com");
           ("leadOperation", JStr "qualify"); ("leadStatus", JStr "open") ].

Definition sales_params : gmap string jsval :=
  filled [ ("operation", JStr "sales"); ("credential", JStr "token-1");
           ("organizationUrl", JStr "https://org.crm.dynamics.com");
           ("salesOperation", JStr "pipeline_status"); ("startDate", JStr "2024-01-01");
           ("endDate", JStr ""); ("entityType", JStr "accounts") ].

Definition retrieve_params : gmap string jsval :=
  filled [ ("operation", JStr "retrieve"); ("credential", JStr "token-1");
           ("organizationUrl", JStr "https://org.crm.dynamics.com");
           ("entityType", JStr "accounts"); ("maxResults", JNum 10) ].

Definition params_out (params : gmap string jsval) : gmap string jsval :=
  match dynamics365_params params with
  | inr out => out
  | inl _ => ∅
  end.

End Dynamics365.

(** ** The Dynamics 365 OAuth route ([app/api/auth/oauth/dynamics365]) *)

Module OAuth.

(** *** Errors ([errors.ts]) *)

(** [new Dynamics365Error(message, code, statusCode, details)]. The
    argument [message] is kept as it is passed; the [message] of the error
    is its string conversion. *)
Record Dynamics365Error : Type := mkDynamics365Error {
  err_message : jsval;
  err_code : jsval;
  err_statusCode : N;
  err_details : jsval;
}.

(** What the code of the route throws and catches. [ThrownStatus] is
    the error of the [Response] constructor for a status that it refuses:
    a [RangeError] for a status outside 200..599, a [TypeError] for a body
    with a status that allows none. *)
Inductive thrown : Type :=
| ThrownDynamics365 (error : Dynamics365Error)
| ThrownError (error : exn)
| ThrownStatus (status : N).

(** A [Response] of [fetch], with its [status] (an unsigned short):
    [text()] and [json()] may reject. What [json()] resolves to is a value
    of [JSON.parse], which [NextResponse.json] can serialize. *)
Record Response : Type := mkResponse {
  res_ok : bool;
  res_status : N;
  res_statusText : string;
  res_text : result string;
  res_json : result jsval;
}.

(** *** Collaborators *)

(** A row of the table [account], as the query selects it. *)
Record Credential : Type := mkCredential {
  cred_id : string;
  cred_accessToken : option string;
  cred_refreshToken : option string;
  (** [accessTokenExpiresAt], in milliseconds since the epoch *)
  cred_expiresAt : option Z;
}.

(** What [refreshOAuthToken] resolves to. *)
Record RefreshResult : Type := mkRefreshResult {
  rr_accessToken : string;
  (** [expiresIn], in seconds *)
  rr_expiresIn : Z;
  rr_refreshToken : option string;
}.

(** The argument of [db.update(account).set(...)]. *)
Record TokenUpdate : Type := mkTokenUpdate {
  upd_accessToken : string;
  upd_accessTokenExpiresAt : Z;
  upd_refreshToken : option string;
  upd_updatedAt : Z;
}.

Record User : Type := mkUser { user_id : string }.

Record Session : Type := mkSession { session_user : option User }.

Record NextRequest : Type := mkRequest {
  request_url : string;
  request_json : result jsval;
}.

(** A call of [fetch]: the URL is [`${baseUrl}${endpoint}`], the token
    goes into the header [Authorization: Bearer ...]; the other headers
    are constants. [call_method] and [call_data] are the options [method]
    and [body] ([JSON.stringify(data)]), absent when [None]. *)
Record FetchCall : Type := mkFetchCall {
  call_baseUrl : string;
  call_endpoint : jsval;
  call_method : option jsval;
  call_token : string;
  call_data : option jsval;
}.

(** The body handed to [NextResponse.json]. *)
Inductive Body : Type :=
| BodyData (data : jsval)
  (** [{ error: msg }] for a literal message *)
| BodyMessage (msg : string)
  (** [{ error: error.message, code: error.code, details: error.details }] *)
| BodyDynamics365 (error : Dynamics365Error)
  (** [{ error: error.message }] for another error *)
| BodyError (error : exn)
  (** [{ error: error.message }] for the error of a refused status *)
| BodyStatus (status : N).

Record NextResponse : Type := mkNextResponse {
  nr_body : Body;
  nr_status : N;
}.

Record Environment : Type := mkEnv {
  (** the query on [account] for a user and the provider [dynamics365],
      with [limit(1)] *)
  db_select : string → result (list Credential);
  (** [db.update(account).set(update).where(eq(account.id, id))] *)
  db_update : string → TokenUpdate → result unit;
  (** [refreshOAuthToken(providerId, refreshToken)] of [@/lib/oauth] *)
  refreshOAuthToken : string → string → result (option RefreshResult);
  (** the successive readings of the clock, in milliseconds *)
  clock : nat → Z;
  JSON_parse : string → result jsval;
  (** [getSession()] of [@/lib/auth] *)
  getSession : result (option Session);
  (** [process.env.DYNAMICS_API_URL] *)
  DYNAMICS_API_URL : option string;
  fetch : FetchCall → result Response;
  (** [new URL(url).searchParams.get('endpoint')] *)
  searchParams_endpoint : string → result (option string);
}.

(** The log, the numbers of clock readings and of UUIDs drawn, and the
    calls made so far. *)
Record World : Type := mkWorld {
  w_log : list LogEntry;
  w_clock : nat;
  w_uuids : nat;
  w_refreshes : list (string * string);
  w_updates : list (string * TokenUpdate);
  w_fetches : list FetchCall;
}.

(** *** Effects *)

(** A computation over the world that returns or throws. *)
Definition T (A : Type) : Type := World → (thrown + A) * World.

#[global] Instance T_ret : MRet T := λ A a w, (inr a, w).

#[global] Instance T_bind : MBind T := λ A B f m w,
  match m w with
  | (inl e, w') => (inl e, w')
  | (inr a, w') => f a w'
  end.

Definition raise {A} (e : thrown) : T A := λ w, (inl e, w).

(** a collaborator that returns or throws a plain error *)
Definition call {A} (r : result A) : T A :=
  λ w, (match r with inl e => inl (ThrownError e) | inr a => inr a end, w).

(** [try { body } catch (error) { handler }] *)
Definition attempt {A} (body : T A) (handler : thrown → T A) : T A :=
  λ w, match body w with
       | (inl e, w') => handler e w'
       | (inr a, w') => (inr a, w')
       end.

Definition update_world (f : World → World) : T unit := λ w, (inr tt, f w).

(** A call of the logger; the structured argument is not kept. *)
Definition log (l : Level) (msg : string) : T unit :=
  update_world (λ w, mkWorld (w_log w ++ [mkLog l msg None]) (w_clock w) (w_uuids w)
                       (w_refreshes w) (w_updates w) (w_fetches w)).

Ltac trun :=
  unfold mbind, T_bind, mret, T_ret, raise, call, attempt, log, update_world in *;
  simpl in *.

(** The statuses of a response without a body. *)
Definition null_body_status (status : N) : bool :=
  existsb (N.eqb status) [101; 103; 204; 205; 304]%N.

(** Whether [new Response(body, { status })] takes the status for a body
    that is there. *)
Definition accepts_status (status : N) : bool :=
  (200 <=? status)%N && (status <=? 599)%N && negb (null_body_status status).

(** [NextResponse.json(body, { status })]: the body is serialized and
    handed to the [Response] constructor, which throws for a status that
    it refuses. Without [init] the status is 200. *)
Definition NextResponse_json (body : Body) (status : N) : T NextResponse :=
  if accepts_status status then mret (mkNextResponse body status)
  else raise (ThrownStatus status).

(** [!o] for an optional string *)
Definition absent (o : option string) : bool :=
  match o with
  | Some s => String.eqb s ""
  | None => true
  end.

Section WithEnvironment.

Variable env : Environment.

(** [new Date()] and [Date.now()] *)
Definition read_clock : T Z :=
  λ w, (inr (clock env (w_clock w)),
        mkWorld (w_log w) (S (w_clock w)) (w_uuids w) (w_refreshes w) (w_updates w)
          (w_fetches w)).

(** [crypto.randomUUID()]; the identifier only goes to the log. *)
Definition draw_uuid : T unit :=
  update_world (λ w, mkWorld (w_log w) (w_clock w) (S (w_uuids w)) (w_refreshes w)
                       (w_updates w) (w_fetches w)).

Definition do_refresh (providerId refreshToken : string) : T (option RefreshResult) :=
  update_world (λ w, mkWorld (w_log w) (w_clock w) (w_uuids w)
                       (w_refreshes w ++ [(providerId, refreshToken)]) (w_updates w)
                       (w_fetches w)) ;;
  call (refreshOAuthToken env providerId refreshToken).

Definition do_update (id : string) (update : TokenUpdate) : T unit :=
  update_world (λ w, mkWorld (w_log w) (w_clock w) (w_uuids w) (w_refreshes w)
                       (w_updates w ++ [(id, update)]) (w_fetches w)) ;;
  call (db_update env id update).

Definition do_fetch (c : FetchCall) : T Response :=
  update_world (λ w, mkWorld (w_log w) (w_clock w) (w_uuids w) (w_refreshes w)
                       (w_updates w) (w_fetches w ++ [c])) ;;
  call (fetch env c).

(** [`Dynamics 365 API error: ${response.status} ${response.statusText}`] *)
Definition generic_message (response : Response) : string :=
  "Dynamics 365 API error: " +:+ pretty (res_status response) +:+ " "
  +:+ res_statusText response.

(** [v?.k] *)
Definition get_opt (v : jsval) (k : string) : result jsval :=
  match v with
  | JUndefined | JNull => inr JUndefined
  | _ => JS.get v k
  end.

(** The body of the [try] of [parseDynamics365Error]. *)
Definition parse_error_data (response : Response) (errorText : string)
  : result Dynamics365Error :=
  match JSON_parse env errorText with
  | inl e => inl e
  | inr errorData =>
      match JS.get errorData "error" with
      | inl e => inl e
      | inr field =>
          let error := js_or field (JObj []) in
          match JS.get error "message", JS.get error "innererror",
                JS.get error "code", JS.get error "details" with
          | inr message, inr innererror, inr code, inr details =>
              match get_opt innererror "message" with
              | inl e => inl e
              | inr inner_message =>
                  inr (mkDynamics365Error
                         (js_or (js_or message inner_message)
                            (JStr (generic_message response)))
                         code (res_status response)
                         (JObj [("details", details); ("innerError", innererror);
                                ("raw", errorData)]))
              end
          | inl e, _, _, _ | _, inl e, _, _ | _, _, inl e, _ | _, _, _, inl e => inl e
          end
      end
  end.

Definition parseDynamics365Error (response : Response) (errorText : string)
  : Dynamics365Error :=
  match parse_error_data response errorText with
  | inr error => error
  | inl _ =>
      mkDynamics365Error
        (js_or (JStr errorText) (JStr (generic_message response)))
        JUndefined (res_status response) (JObj [("raw", JStr errorText)])
  end.

(** *** Tokens ([utils.ts]) *)

(** [credential.accessTokenExpiresAt &&
     (credential.accessTokenExpiresAt <= new Date(now.getTime() + 5 * 60 * 1000))] *)
Definition isExpired (credential : Credential) (now : Z) : bool :=
  match cred_expiresAt credential with
  | Some expiresAt => bool_decide (expiresAt ≤ now + 5 * 60 * 1000)%Z
  | None => false
  end.

(** The [try] around [db.update]: whether the update went through. *)
Definition store_refreshed (credential : Credential) (refreshResult : RefreshResult)
  : T bool :=
  attempt
    (expiresFrom ← read_clock;
     updatedAt ← read_clock;
     do_update (cred_id credential)
       {| upd_accessToken := rr_accessToken refreshResult;
          upd_accessTokenExpiresAt := (expiresFrom + rr_expiresIn refreshResult * 1000)%Z;
          upd_refreshToken :=
            if absent (rr_refreshToken refreshResult) then cred_refreshToken credential
            else rr_refreshToken refreshResult;
          upd_updatedAt := updatedAt |} ;;
     read_clock ;;
     read_clock ;;
     log LInfo "Successfully refreshed and updated token" ;;
     mret true)
    (λ dbError, log LError "Failed to update token in database" ;; mret false).

Definition getDynamics365Token (userId : string) : T (option string) :=
  attempt
    (credentials ← call (db_select env userId);
     match credentials with
     | [] => log LWarn "No Dynamics 365 credentials found for user" ;; mret None
     | credential :: _ =>
         if absent (cred_accessToken credential)
         then log LWarn "No Dynamics 365 credentials found for user" ;; mret None
         else
           now ← read_clock;
           log LInfo "Token status check" ;;
           if negb (isExpired credential now) then mret (cred_accessToken credential)
           else if absent (cred_refreshToken credential)
           then log LError "No refresh token available for expired token" ;; mret None
           else
             refreshResult ← do_refresh "dynamics365"
                               (default "" (cred_refreshToken credential));
             match refreshResult with
             | None =>
                 read_clock ;;
                 log LError "Failed to refresh Dynamics 365 token" ;;
                 mret None
             | Some refreshResult =>
                 stored ← store_refreshed credential refreshResult;
                 if stored : bool then mret (Some (rr_accessToken refreshResult))
                 else mret None
             end
     end)
    (λ error, log LError "Error managing Dynamics 365 token:" ;; mret None).

Definition validateDynamics365Response (response : Response) : T jsval :=
  if negb (res_ok response)
  then
    errorText ← call (res_text response);
    let error := parseDynamics365Error response errorText in
    log LError "Dynamics 365 API error" ;;
    raise (ThrownDynamics365 error)
  else call (res_json response).

(** *** The handlers ([route.ts]) *)

(** [session?.user?.id] *)
Definition session_user_id (session : option Session) : option string :=
  s ← session; u ← session_user s; Some (user_id u).

(** [process.env.DYNAMICS_API_URL || 'https://org.api.crm.dynamics.com/api/data/v9.2'] *)
Definition baseUrl : string :=
  str_or (DYNAMICS_API_URL env) "https://org.api.crm.dynamics.com/api/data/v9.2".

(** [const { k, ... } = body]: reading a property of the pattern *)
Definition destructure (body : jsval) (k : string) : result jsval :=
  match body with
  | JUndefined =>
      inl (TypeError ("Cannot destructure property '" +:+ k
                      +:+ "' of 'body' as it is undefined."))
  | JNull =>
      inl (TypeError ("Cannot destructure property '" +:+ k +:+ "' of 'body' as it is null."))
  | _ => JS.get body k
  end.

(** The [catch] of both handlers; what [NextResponse.json] throws here is
    thrown by the handler. *)
Definition route_failure (error : thrown) : T NextResponse :=
  log LError "Error in Dynamics 365 route:" ;;
  match error with
  | ThrownDynamics365 e =>
      NextResponse_json (BodyDynamics365 e)
        (if N.eqb (err_statusCode e) 0 then 500%N else err_statusCode e)
  | ThrownError e => NextResponse_json (BodyError e) 500
  | ThrownStatus status => NextResponse_json (BodyStatus status) 500
  end.

(** The part that both handlers share: the session and the token, then
    [proceed] with the token. *)
Definition authenticated (proceed : string → T NextResponse) : T NextResponse :=
  session ← call (getSession env);
  if absent (session_user_id session)
  then log LWarn "Unauthorized request" ;; NextResponse_json (BodyMessage "Unauthorized") 401
  else
    accessToken ← getDynamics365Token (default "" (session_user_id session));
    if absent accessToken
    then
      log LError "Failed to get valid token" ;;
      NextResponse_json (BodyMessage "No valid Dynamics 365 credentials found") 401
    else proceed (default "" accessToken).

Definition POST (request : NextRequest) : T NextResponse :=
  draw_uuid ;;
  attempt
    (log LInfo "Processing POST request" ;;
     authenticated
       (λ accessToken,
          body ← call (request_json request);
          endpoint ← call (destructure body "endpoint");
          method ← call (destructure body "method");
          data ← call (destructure body "data");
          let method := match method with JUndefined => JStr "GET" | _ => method end in
          if negb (truthy endpoint)
          then
            read_clock ;;
            log LWarn "Missing endpoint in request" ;;
            NextResponse_json (BodyMessage "Endpoint is required") 400
          else
            read_clock ;;
            log LInfo "Making Dynamics 365 API request" ;;
            response ← do_fetch {| call_baseUrl := baseUrl;
                                   call_endpoint := endpoint;
                                   call_method := Some method;
                                   call_token := accessToken;
                                   call_data := if truthy data then Some data else None |};
            responseData ← validateDynamics365Response response;
            log LInfo "Successfully processed request" ;;
            NextResponse_json (BodyData responseData) 200))
    route_failure.

Definition GET (request : NextRequest) : T NextResponse :=
  draw_uuid ;;
  attempt
    (log LInfo "Processing GET request" ;;
     authenticated
       (λ accessToken,
          endpoint ← call (searchParams_endpoint env (request_url request));
          if absent endpoint
          then
            log LWarn "Missing endpoint in request" ;;
            NextResponse_json (BodyMessage "Endpoint is required") 400
          else
            read_clock ;;
            log LInfo "Making Dynamics 365 API request" ;;
            response ← do_fetch {| call_baseUrl := baseUrl;
                                   call_endpoint := JStr (default "" endpoint);
                                   call_method := None;
                                   call_token := accessToken;
                                   call_data := None |};
            data ← validateDynamics365Response response;
            log LInfo "Successfully processed request" ;;
            NextResponse_json (BodyData data) 200))
    route_failure.

End WithEnvironment.

End OAuth.

(** ** Views of the OAuth route used to state its properties *)

Module OAuthViews.
Import OAuth.

(** The update that [getDynamics365Token] writes for a refreshed token,
    when the clock has been read [n] times before the update is built. *)
Definition refreshed_update (env : Environment) (credential : Credential)
  (r : RefreshResult) (n : nat) : TokenUpdate :=
  {| upd_accessToken := rr_accessToken r;
     upd_accessTokenExpiresAt := (clock env n + rr_expiresIn r * 1000)%Z;
     upd_refreshToken :=
       if absent (rr_refreshToken r) then cred_refreshToken credential
       else rr_refreshToken r;
     upd_updatedAt := clock env (S n) |}.

Definition last_level (w : World) : option Level := level <$> last (w_log w).

(** Whether a log entry reports a problem. *)
Definition is_problem (l : option Level) : bool :=
  match l with
  | Some LError | Some LWarn => true
  | _ => false
  end.

(** The runs of [getDynamics365Token], case by case. *)
Inductive token_run (env : Environment) (userId : string) (w : World)
  : option string → World → Prop :=
| run_select_throws e w' :
    db_select env userId = inl e →
    w_refreshes w' = w_refreshes w → w_updates w' = w_updates w →
    is_problem (last_level w') = true →
    token_run env userId w None w'
| run_no_credential credentials w' :
    db_select env userId = inr credentials →
    absent (head credentials ≫= cred_accessToken) = true →
    w_refreshes w' = w_refreshes w → w_updates w' = w_updates w →
    is_problem (last_level w') = true →
    token_run env userId w None w'
| run_fresh credential others token w' :
    db_select env userId = inr (credential :: others) →
    cred_accessToken credential = Some token → token ≠ "" →
    isExpired credential (clock env (w_clock w)) = false →
    w_refreshes w' = w_refreshes w → w_updates w' = w_updates w →
    w_clock w' = S (w_clock w) →
    last_level w' = Some LInfo →
    token_run env userId w (Some token) w'
| run_no_refresh_token credential others w' :
    db_select env userId = inr (credential :: others) →
    absent (cred_accessToken credential) = false →
    isExpired credential (clock env (w_clock w)) = true →
    absent (cred_refreshToken credential) = true →
    w_refreshes w' = w_refreshes w → w_updates w' = w_updates w →
    is_problem (last_level w') = true →
    token_run env userId w None w'
| run_refresh_fails credential others refreshToken w' :
    db_select env userId = inr (credential :: others) →
    absent (cred_accessToken credential) = false →
    isExpired credential (clock env (w_clock w)) = true →
    cred_refreshToken credential = Some refreshToken → refreshToken ≠ "" →
    (∀ r, refreshOAuthToken env "dynamics365" refreshToken ≠ inr (Some r)) →
    w_refreshes w' = w_refreshes w ++ [("dynamics365", refreshToken)] →
    w_updates w' = w_updates w →
    is_problem (last_level w') = true →
    token_run env userId w None w'
| run_refreshed credential others refreshToken r w' :
    db_select env userId = inr (credential :: others) →
    absent (cred_accessToken credential) = false →
    isExpired credential (clock env (w_clock w)) = true →
    cred_refreshToken credential = Some refreshToken → refreshToken ≠ "" →
    refreshOAuthToken env "dynamics365" refreshToken = inr (Some r) →
    w_refreshes w' = w_refreshes w ++ [("dynamics365", refreshToken)] →
    w_updates w'
    = w_updates w
      ++ [(cred_id credential, refreshed_update env credential r (S (w_clock w)))] →
    last_level w'
    = Some (match db_update env (cred_id credential)
                    (refreshed_update env credential r (S (w_clock w))) with
            | inr _ => LInfo
            | inl _ => LError
            end) →
    token_run env userId w
      (match db_update env (cred_id credential)
               (refreshed_update env credential r (S (w_clock w))) with
       | inr _ => Some (rr_accessToken r)
       | inl _ => None
       end) w'.

(** The outcome of a handler once it has made the call [c]. *)
Definition forwarded (env : Environment) (c : FetchCall) : thrown + NextResponse :=
  match fetch env c with
  | inl e => inr (mkNextResponse (BodyError e) 500)
  | inr response =>
      if res_ok response
      then match res_json response with
           | inr data => inr (mkNextResponse (BodyData data) 200)
           | inl e => inr (mkNextResponse (BodyError e) 500)
           end
      else match res_text response with
           | inr errorText =>
               let error := parseDynamics365Error env response errorText in
               let status :=
                 if N.eqb (err_statusCode error) 0 then 500%N else err_statusCode error in
               if accepts_status status
               then inr (mkNextResponse (BodyDynamics365 error) status)
               else inl (ThrownStatus status)
           | inl e => inr (mkNextResponse (BodyError e) 500)
           end
  end.

Definition is_data (b : Body) : bool :=
  match b with
  | BodyData _ => true
  | _ => false
  end.

(** The runs of a handler: without a user nothing is touched; another
    refusal makes no request; otherwise one request is made, with the
    token that [getDynamics365Token] gave for the user of the session. *)
Inductive route_run (env : Environment) (w : World)
  : thrown + NextResponse → World → Prop :=
| route_unauthorized session w' :
    getSession env = inr session →
    session_user_id session = None ∨ session_user_id session = Some "" →
    w_fetches w' = w_fetches w → w_refreshes w' = w_refreshes w →
    w_updates w' = w_updates w →
    route_run env w (inr (mkNextResponse (BodyMessage "Unauthorized") 401)) w'
| route_refused resp w' :
    w_fetches w' = w_fetches w →
    nr_status resp ∈ [400%N; 401%N; 500%N] →
    is_data (nr_body resp) = false →
    route_run env w (inr resp) w'
| route_forwarded session userId w0 w1 token c w' :
    getSession env = inr session →
    session_user_id session = Some userId → userId ≠ "" →
    getDynamics365Token env userId w0 = (inr (Some token), w1) →
    w_fetches w0 = w_fetches w →
    token ≠ "" →
    call_token c = token →
    call_baseUrl c = baseUrl env →
    truthy (call_endpoint c) = true →
    w_fetches w' = w_fetches w ++ [c] →
    route_run env w (forwarded env c) w'.

(** *** Concrete collaborators *)

(** The text [{"error":{"message":"Rate limited","code":"0x80072321"}}]. *)
Definition error_text : string :=
  "{" +:+ dquote +:+ "error" +:+ dquote +:+ ":{" +:+ dquote +:+ "message" +:+ dquote +:+ ":"
  +:+ dquote +:+ "Rate limited" +:+ dquote +:+ "," +:+ dquote +:+ "code" +:+ dquote +:+ ":"
  +:+ dquote +:+ "0x80072321" +:+ dquote +:+ "}}".

(** Agrees with [JSON.parse] on the texts that the examples use. *)
Definition parse_text (text : string) : result jsval :=
  if String.eqb text error_text
  then inr (JObj [("error", JObj [("message", JStr "Rate limited");
                                   ("code", JStr "0x80072321")])])
  else if String.eqb text "null" then inr JNull
  else if String.eqb text "{}" then inr (JObj [])
  else inl (SyntaxError "Unexpected token").

Definition signed_in : result (option Session) :=
  inr (Some (mkSession (Some (mkUser "user-1")))).

(** The clock starts at [noon] and advances by a millisecond per
    reading. *)
Definition noon : Z := 1700000000000.

Definition oauth_env (session : result (option Session)) (credentials : list Credential)
  (update : result unit) (upstream : result Response) : Environment :=
  {| db_select := λ userId, if String.eqb userId "user-1" then inr credentials else inr [];
     db_update := λ _ _, update;
     refreshOAuthToken :=
       λ _ refreshToken,
         if String.eqb refreshToken "refresh-1"
         then inr (Some (mkRefreshResult "new-token" 3600 None))
         else inr None;
     clock := λ n, (noon + Z.of_nat n)%Z;
     JSON_parse := parse_text;
     getSession := session;
     DYNAMICS_API_URL := None;
     fetch := λ _, upstream;
     searchParams_endpoint :=
       λ url, if String.eqb url "https://app.example/api?endpoint=/accounts"
              then inr (Some "/accounts") else inr None |}.

(** A credential that expires [margin] milliseconds after [noon]. *)
Definition expiring_in (margin : Z) : Credential :=
  mkCredential "cred-1" (Some "old-token") (Some "refresh-1") (Some (noon + margin)%Z).

Definition accounts : Response :=
  mkResponse true 200 "OK" (inl (Error "body used"))
    (inr (JObj [("value", JArr [])])).

Definition rate_limited : Response :=
  mkResponse false 429 "Too Many Requests" (inr error_text) (inl (Error "body used")).

(** A response without a body, which is not ok. *)
Definition not_modified : Response :=
  mkResponse false 304 "Not Modified" (inr "") (inl (Error "body used")).

Definition start : World := mkWorld [] 0 0 [] [] [].

Definition post_accounts : NextRequest :=
  mkRequest "https://app.example/api"
    (inr (JObj [("endpoint", JStr "/accounts"); ("data", JObj [("name", JStr "Contoso")]);
                ("method", JStr "POST")])).

Definition get_accounts : NextRequest :=
  mkRequest "https://app.example/api?endpoint=/accounts" (inl (Error "no body")).

(** The environments of the examples: the token is fresh, about to
    expire, or about to expire while the database refuses the update. *)
Definition env_fresh (upstream : result Response) : Environment :=
  oauth_env signed_in [expiring_in 300001] (inr tt) upstream.

Definition env_expiring (upstream : result Response) : Environment :=
  oauth_env signed_in [expiring_in 300000] (inr tt) upstream.

Definition env_read_only : Environment :=
  oauth_env signed_in [expiring_in 300000] (inl (Error "connection lost")) (inr accounts).

Definition env_signed_out : Environment :=
  oauth_env (inr None) [expiring_in 300000] (inr tt) (inr accounts).

(** The call that the handlers make for the account list. *)
Definition accounts_call (method : option jsval) (token : string) (data : option jsval)
  : FetchCall :=
  mkFetchCall "https://org.api.crm.dynamics.com/api/data/v9.2" (JStr "/accounts") method
    token data.

End OAuthViews.

(** * Properties of the router handler *)

Module RouterProofs.
Import Router Examples RouterViews.

Lemma only_logs_refl w : only_logs w w.
Proof. repeat split; exists []; by rewrite app_nil_r. Qed.

Lemma only_logs_trans w1 w2 w3 : only_logs w1 w2 → only_logs w2 w3 → only_logs w1 w3.
Proof.
  intros (Hc1 & Hf1 & l1 & Hl1) (Hc2 & Hf2 & l2 & Hl2).
  repeat split; [congruence | congruence |].
  exists (l1 ++ l2). by rewrite Hl2, Hl1, app_assoc.
Qed.

Lemma only_logs_log l msg d w : only_logs w (log l msg d w).2.
Proof. repeat split; by exists [mkLog l msg d]. Qed.

Lemma target_of_connection_only_logs block context conn w :
  only_logs w (target_of_connection block context conn w).2.
Proof.
  unfold target_of_connection. run.
  destruct (find_target context (target conn)) as [e | [targetBlock |]]; simpl.
  - apply only_logs_refl.
  - destruct (is_enabled targetBlock); simpl;
      [apply only_logs_refl | apply only_logs_log].
  - apply only_logs_log.
Qed.

Lemma map_m_only_logs {A B} (f : A → M World B) xs :
  (∀ x w, only_logs w (f x w).2) → ∀ w, only_logs w (map_m f xs w).2.
Proof.
  intros Hf. induction xs as [| x xs IH]; intros w; simpl.
  - apply only_logs_refl.
  - run. specialize (Hf x w). destruct (f x w) as [[e | y] w1]; simpl in *; [done |].
    specialize (IH w1). destruct (map_m f xs w1) as [[e | ys] w2]; simpl in *;
      eauto using only_logs_trans.
Qed.

Lemma getTargetBlocks_only_logs block context w :
  only_logs w (getTargetBlocks block context w).2.
Proof.
  unfold getTargetBlocks.
  destruct (outgoingConnections block context) as [[| conn conns] |].
  - apply only_logs_log.
  - run.
    pose proof (map_m_only_logs (target_of_connection block context) (conn :: conns)
                  (target_of_connection_only_logs block context) w) as H.
    simpl in H. run.
    destruct (target_of_connection block context conn w) as [[e | y] w1]; simpl in *; [done |].
    destruct (map_m (target_of_connection block context) conns w1) as [[e | ys] w2]; done.
  - apply only_logs_log.
Qed.

Lemma find_block_id id bs b : find_block id bs = inr (Some b) → sb_id b = id.
Proof.
  induction bs as [| [b' |] bs IH]; simpl; [done | | done].
  destruct (String.eqb (sb_id b') id) eqn:Heq; [| done].
  intros [= ->]. by apply String.eqb_eq.
Qed.

Lemma find_block_total id bs : Forall is_Some bs → ∃ o, find_block id bs = inr o.
Proof.
  induction 1 as [| [b |] bs Hb _ IH]; simpl; [by eexists | | by destruct Hb].
  destruct (String.eqb (sb_id b) id); [by eexists | done].
Qed.

(** Without [null] entries among the blocks, the enumeration maps every
    connection to its candidate and logs the warnings in order. *)
Lemma map_targets block context wf (conns : list Connection) w :
  workflow context = Some wf → Forall is_Some (blocks wf) →
  map_m (target_of_connection block context) conns w
  = (inr (candidate_of context <$> conns),
     mkWorld (w_context w) (w_log w ++ mjoin (warning_of block context <$> conns))
       (w_fetches w)).
Proof.
  intros Hwf Hsome. revert w. induction conns as [| conn conns IH]; intros w; simpl.
  - run. rewrite app_nil_r. by destruct w.
  - run. unfold target_of_connection at 1, candidate_of at 1, warning_of at 1. run.
    destruct (find_block_total (target conn) (blocks wf) Hsome) as [o Ho].
    unfold find_target. rewrite Hwf, Ho. simpl.
    destruct o as [targetBlock |]; simpl.
    + destruct (is_enabled targetBlock); simpl; rewrite IH; simpl;
        [done | by rewrite <- app_assoc].
    + rewrite IH. simpl. by rewrite <- app_assoc.
Qed.

Lemma candidate_ids context (conns : list Connection) :
  tb_id <$> omap id (candidate_of context <$> conns)
  = target <$> filter (λ c, viable context (target c) = true) conns.
Proof.
  induction conns as [| conn conns IH]; [done |].
  rewrite filter_cons. simpl.
  case_decide as Hv; unfold viable in Hv; unfold candidate_of at 1;
    destruct (find_target context (target conn)) as [e | [targetBlock |]] eqn:Hfind;
    simpl; try done.
  - rewrite Hv. simpl. f_equal; [| exact IH].
    unfold find_target in Hfind. destruct (workflow context); [| done].
    by apply find_block_id in Hfind.
  - by destruct (is_enabled targetBlock).
Qed.

(** Validation accepts exactly the connections whose target is viable. *)
Lemma validate_target_viable block context conn :
  validate_target block context conn = inr tt ↔ viable context (target conn) = true.
Proof.
  unfold validate_target, viable.
  destruct (find_target context (target conn)) as [e | [targetBlock |]]; try done.
  by destruct (is_enabled targetBlock).
Qed.

(** Validation stops at the first connection whose target it rejects. *)
Lemma validate_targets_first block context (conns : list Connection) conn :
  conn ∈ conns → viable context (target conn) = false →
  ∃ pre bad post e,
    conns = pre ++ bad :: post
    ∧ Forall (λ c, viable context (target c) = true) pre
    ∧ viable context (target bad) = false
    ∧ validate_target block context bad = inl e
    ∧ validate_targets block context conns = inl e.
Proof.
  induction conns as [| c conns IH]; intros Hin Hbad; [by apply elem_of_nil in Hin |].
  simpl. destruct (validate_target block context c) as [e | []] eqn:Hc.
  - exists [], c, conns, e. repeat split; try done.
    destruct (viable context (target c)) eqn:Hv; [| done].
    apply (validate_target_viable block) in Hv. congruence.
  - apply validate_target_viable in Hc.
    apply elem_of_cons in Hin as [-> | Hin]; [congruence |].
    destruct (IH Hin Hbad) as (pre & bad & post & e & -> & Hpre & Hv & He & Hrun).
    exists (c :: pre), bad, post, e. repeat split; try done. by constructor.
Qed.

Section Handler.

Variable env : Environment.

(** What [ask_provider] does to the world: the context stays, and at most
    one provider call is made, for the model [inputs.model || 'gpt-4o'] and
    the provider resolved from that model. *)
Lemma ask_provider_effect block inputs w :
  let w' := (ask_provider env block inputs w).2 in
  w_context w' = w_context w ∧
  (w_fetches w' = w_fetches w ∨
   ∃ url req,
     w_fetches w' = w_fetches w ++ [(url, req)] ∧
     req_model req = js_or (prop inputs "model") (JStr "gpt-4o") ∧
     getProviderFromModel env (req_model req) = inr (req_provider req)).
Proof.
  unfold ask_provider. run.
  destruct (validateRouterConfiguration block (w_context w)) as [e | []]; simpl; [auto |].
  destruct (getTargetBlocks_only_logs block (w_context w) w) as (Hc & Hf & _).
  destruct (getTargetBlocks block (w_context w) w) as [[e | targetBlocks] w1];
    simpl in *; [auto |].
  destruct targetBlocks as [| tb tbs]; simpl; [auto |].
  destruct (truthy (prop inputs "prompt")); simpl; [| auto].
  destruct (getProviderFromModel env _) as [e | providerId] eqn:Hprov; simpl; [auto |].
  destruct (new_URL env _ _) as [e | url]; simpl; [auto |].
  destruct (generateRouterPrompt env _ _) as [e | systemPrompt]; simpl; [auto |].
  unfold do_fetch. run.
  assert (Hsent : ∀ req log,
    req_model req = js_or (prop inputs "model") (JStr "gpt-4o") →
    req_provider req = providerId →
    let w2 := mkWorld (w_context w1) log (w_fetches w1 ++ [(url, req)]) in
    w_context w2 = w_context w ∧
    (w_fetches w2 = w_fetches w ∨
     ∃ url req, w_fetches w2 = w_fetches w ++ [(url, req)] ∧
       req_model req = js_or (prop inputs "model") (JStr "gpt-4o") ∧
       getProviderFromModel env (req_model req) = inr (req_provider req))).
  { intros req log Hm Hp. simpl. split; [done |]. right.
    exists url, req. rewrite Hf, Hm, Hp. by rewrite Hprov. }
  destruct (fetch env url _) as [e | response]; simpl; [by eapply (Hsent _ []) |].
  destruct (resp_ok response); simpl; [| by eapply (Hsent _ [])].
  destruct (resp_json response) as [e | result]; simpl; by eapply (Hsent _ []).
Qed.

(** Resolving the decision makes no provider call and leaves the context. *)
Lemma resolve_decision_frame inputs targetBlocks result w :
  let w' := (resolve_decision inputs targetBlocks result w).2 in
  w_context w' = w_context w ∧ w_fetches w' = w_fetches w.
Proof.
  unfold resolve_decision. run.
  destruct (response_content result) as [e | content]; simpl; [done |].
  destruct (find_candidate _ targetBlocks) as [chosenBlock |]; simpl; [| done].
  destruct (token_counts result) as [e | tokens]; simpl; [done |].
  destruct (JS.get result "model"); done.
Qed.

(** The handler reads the execution context and never writes it. *)
Lemma execute_context block inputs w :
  w_context (execute env block inputs w).2 = w_context w.
Proof.
  unfold execute, execute_body. run.
  destruct (ask_provider_effect block inputs w) as [Hc _].
  destruct (ask_provider env block inputs w) as [[e | answered] w1]; simpl in *; [done |].
  destruct (resolve_decision_frame inputs answered.1 answered.2 w1) as [Hc' _].
  destruct (resolve_decision inputs answered.1 answered.2 w1) as [[e | out] w2];
    simpl in *; congruence.
Qed.

(** A response whose [content] can be trimmed is an object. *)
Lemma response_content_object result content :
  response_content result = inr content →
  ∃ fields, result = JObj fields ∧ assoc "content" fields = JStr content.
Proof.
  unfold response_content. destruct result; simpl; try done.
  intros H. eexists; split; [done |].
  destruct (assoc "content" fields); by simplify_eq.
Qed.

(** [find] returns a candidate with the id that was looked up. *)
Lemma find_candidate_id chosenBlockId targetBlocks chosenBlock :
  find_candidate chosenBlockId targetBlocks = Some chosenBlock →
  tb_id chosenBlock = chosenBlockId ∧ chosenBlock ∈ targetBlocks.
Proof.
  unfold find_candidate. intros H. apply find_some in H as [Hin Heq].
  split; [by apply String.eqb_eq | by apply list_elem_of_In].
Qed.

(** [execute] rethrows what its body throws, after logging it. *)
Lemma execute_result block inputs w :
  (execute env block inputs w).1 = (execute_body env block inputs w).1.
Proof.
  unfold execute. run.
  by destruct (execute_body env block inputs w) as [[e | out] w1].
Qed.

Lemma execute_fetches block inputs w :
  w_fetches (execute env block inputs w).2 = w_fetches (execute_body env block inputs w).2.
Proof.
  unfold execute. run.
  by destruct (execute_body env block inputs w) as [[e | out] w1].
Qed.

Lemma no_outgoing block context wf :
  workflow context = Some wf →
  (∀ conn, conn ∈ connections wf → source conn ≠ sb_id block) →
  outgoingConnections block context = Some [].
Proof.
  intros Hwf Hnone. unfold outgoingConnections. rewrite Hwf. simpl. f_equal.
  induction (connections wf) as [| conn conns IH]; [done |].
  rewrite filter_cons. destruct (decide (source conn = sb_id block)) as [Heq | _].
  - destruct (Hnone conn); [by left | done].
  - apply IH. intros c Hc. apply Hnone. by right.
Qed.

(** C8. A router block that no connection leaves fails with the
    configuration error [Router block <id> has no outgoing connections],
    and no provider call has been made when it fails. *)
Theorem router_without_connections_fails block inputs w wf :
  workflow (w_context w) = Some wf →
  (∀ conn, conn ∈ connections wf → source conn ≠ sb_id block) →
  (execute env block inputs w).1
    = inl (Error ("Router block " +:+ sb_id block +:+ " has no outgoing connections"))
  ∧ w_fetches (execute env block inputs w).2 = w_fetches w.
Proof.
  intros Hwf Hnone.
  rewrite execute_result, execute_fetches.
  unfold execute_body, ask_provider, validateRouterConfiguration. run.
  by rewrite (no_outgoing block (w_context w) wf Hwf Hnone).
Qed.

(** C7. When the trimmed, lower-cased text of the provider's answer is the
    id of no candidate, [execute] throws [Invalid routing decision: <that
    text>], returns no output, and the execution context (with its
    [blockStates]) is what it was before the call. *)
Theorem unmatched_decision_is_fatal block inputs w targetBlocks result w1 content :
  ask_provider env block inputs w = (inr (targetBlocks, result), w1) →
  response_content result = inr content →
  (∀ tb, tb ∈ targetBlocks → tb_id tb ≠ toLowerCase (trim content)) →
  (execute env block inputs w).1
    = inl (Error ("Invalid routing decision: " +:+ toLowerCase (trim content)))
  ∧ w_context (execute env block inputs w).2 = w_context w
  ∧ blockStates (w_context (execute env block inputs w).2) = blockStates (w_context w).
Proof.
  intros Hask Hcontent Hnone.
  split; [| split; [apply execute_context | by rewrite execute_context]].
  rewrite execute_result. unfold execute_body. run. rewrite Hask. simpl.
  unfold resolve_decision. run. rewrite Hcontent. simpl.
  destruct (find_candidate _ targetBlocks) as [chosenBlock |] eqn:Hfind; [| done].
  apply find_candidate_id in Hfind as [Hid Hin]. by destruct (Hnone chosenBlock).
Qed.

(** C3, as the code has it. With a single candidate, when the trimmed,
    lower-cased text of the answer is the candidate's id exactly as the
    graph spells it, [execute] returns a [selectedPath] whose [blockId] is
    that id. *)
Theorem exact_lowercase_match_selects block inputs w tb result w1 content :
  ask_provider env block inputs w = (inr ([tb], result), w1) →
  response_content result = inr content →
  toLowerCase (trim content) = tb_id tb →
  ∃ out, (execute env block inputs w).1 = inr out
         ∧ blockId (selectedPath out) = tb_id tb.
Proof.
  intros Hask Hcontent Hid.
  rewrite execute_result. unfold execute_body. run. rewrite Hask. simpl.
  unfold resolve_decision. run. rewrite Hcontent. simpl.
  apply response_content_object in Hcontent as (fields & -> & _).
  rewrite Hid. unfold find_candidate. simpl. rewrite String.eqb_refl. simpl.
  eexists. split; reflexivity.
Qed.

(** C2, as the code has it. In a workflow whose list of blocks has no
    [null] entry, when a connection leaving the router has a target that is
    missing or disabled, [execute] fails in the pre-execution validation,
    with the error of the first such connection ([Target block T not found
    for router R] for a missing target, [Target block T is disabled for
    router R] for a disabled one) and before any provider call, whatever
    the other targets are; no target is selected. The enumeration
    [getTargetBlocks] on its own keeps exactly the targets that exist and
    are enabled, so it drops that target, and it logs a warning that names
    it. *)
Theorem invalid_target_fails_validation block inputs w wf
  (conns : list Connection) conn :
  workflow (w_context w) = Some wf →
  Forall is_Some (blocks wf) →
  outgoingConnections block (w_context w) = Some conns →
  conn ∈ conns →
  viable (w_context w) (target conn) = false →
  (∃ pre bad post e,
     conns = pre ++ bad :: post
     ∧ Forall (λ c, viable (w_context w) (target c) = true) pre
     ∧ viable (w_context w) (target bad) = false
     ∧ (find_target (w_context w) (target bad) = inr None
        ∧ e = Error ("Target block " +:+ target bad +:+ " not found for router "
                     +:+ sb_id block)
        ∨ (∃ targetBlock,
             find_target (w_context w) (target bad) = inr (Some targetBlock)
             ∧ is_enabled targetBlock = false)
          ∧ e = Error ("Target block " +:+ target bad +:+ " is disabled for router "
                       +:+ sb_id block))
     ∧ validate_target block (w_context w) bad = inl e
     ∧ (execute env block inputs w).1 = inl e)
  ∧ w_fetches (execute env block inputs w).2 = w_fetches w
  ∧ ∃ targetBlocks w',
      getTargetBlocks block (w_context w) w = (inr targetBlocks, w')
      ∧ (tb_id <$> targetBlocks)
        = (target <$> filter (λ c, viable (w_context w) (target c) = true) conns)
      ∧ (target conn ∉ tb_id <$> targetBlocks)
      ∧ ∃ entry,
          entry ∈ w_log w' ∧ level entry = LWarn
          ∧ (message entry = "Target block " +:+ target conn +:+ " not found for router "
                             +:+ sb_id block
             ∨ message entry = "Target block " +:+ target conn +:+ " is disabled for router "
                               +:+ sb_id block).
Proof.
  intros Hwf Hsome Hout Hin Hbad.
  destruct (validate_targets_first block (w_context w) conns conn Hin Hbad)
    as (pre & bad & post & e & Hsplit & Hpre & Hbv & Hbe & Hval).
  assert (Hvalidate : validateRouterConfiguration block (w_context w) = inl e).
  { unfold validateRouterConfiguration. rewrite Hout.
    destruct conns; [by apply elem_of_nil in Hin | done]. }
  split; [| split].
  - exists pre, bad, post, e. do 3 (split; [done |]). split; [| split; [done |]].
    + revert Hbe. unfold validate_target.
      destruct (find_block_total (target bad) (blocks wf) Hsome) as [o Ho].
      unfold find_target. rewrite Hwf, Ho.
      destruct o as [targetBlock |].
      * destruct (is_enabled targetBlock) eqn:Henabled; [done |].
        intros [= <-]. right. split; [by exists targetBlock | done].
      * intros [= <-]. by left.
    + rewrite execute_result. unfold execute_body, ask_provider. run. by rewrite Hvalidate.
  - rewrite execute_fetches. unfold execute_body, ask_provider. run. by rewrite Hvalidate.
  - unfold getTargetBlocks. rewrite Hout.
    destruct conns as [| c0 conns0] eqn:Hconns; [by apply elem_of_nil in Hin |].
    rewrite <- Hconns in *. clear Hconns. run.
    rewrite (map_targets block (w_context w) wf conns w Hwf Hsome). simpl.
    eexists _, _. split; [reflexivity |]. split; [apply candidate_ids |]. split.
    + rewrite candidate_ids. intros Hmem.
      apply list_elem_of_fmap in Hmem as (c & Hc & Hcin).
      apply list_elem_of_filter in Hcin as [Hcv _]. rewrite <- Hc in Hcv. congruence.
    + simpl.
      assert (∃ entry, entry ∈ warning_of block (w_context w) conn ∧ level entry = LWarn
                ∧ (message entry = "Target block " +:+ target conn
                                   +:+ " not found for router " +:+ sb_id block
                   ∨ message entry = "Target block " +:+ target conn
                                     +:+ " is disabled for router " +:+ sb_id block))
        as (entry & Hentry & Hlevel & Hmsg).
      { unfold warning_of, viable in *.
        destruct (find_block_total (target conn) (blocks wf) Hsome) as [o Ho].
        unfold find_target in *. rewrite Hwf in *. rewrite Ho in *.
        destruct o as [targetBlock |].
        - rewrite Hbad. eexists. split; [by left |]. split; [done | by right].
        - eexists. split; [by left |]. split; [done | by left]. }
      exists entry. split; [| done].
      apply elem_of_app. right. apply list_elem_of_join.
      exists (warning_of block (w_context w) conn). split; [done |].
      by apply list_elem_of_fmap_2.
Qed.

End Handler.

Lemma router_without_connections_fails_witness :
  (execute (env_answering "b") router_A inputs_prompt (world_of graph_isolated)).1
    = inl (Error "Router block A has no outgoing connections")
  ∧ w_fetches (execute (env_answering "b") router_A inputs_prompt
                 (world_of graph_isolated)).2 = [].
Proof.
  apply (router_without_connections_fails (env_answering "b") router_A inputs_prompt
           (world_of graph_isolated) graph_isolated).
  - reflexivity.
  - intros conn Hin. apply list_elem_of_singleton in Hin. by subst.
Defined.

Lemma unmatched_decision_is_fatal_witness :
  (execute (env_answering "c") router_A inputs_prompt (world_of graph_AB)).1
    = inl (Error "Invalid routing decision: c")
  ∧ w_context (execute (env_answering "c") router_A inputs_prompt (world_of graph_AB)).2
    = w_context (world_of graph_AB)
  ∧ blockStates
      (w_context (execute (env_answering "c") router_A inputs_prompt (world_of graph_AB)).2)
    = blockStates (w_context (world_of graph_AB)).
Proof.
  apply (unmatched_decision_is_fatal (env_answering "c") router_A inputs_prompt
           (world_of graph_AB) [candidate "B"] (answer_of "c")
           (asked_once graph_AB) "c").
  - reflexivity.
  - reflexivity.
  - intros tb Hin. apply list_elem_of_singleton in Hin. by subst.
Defined.

Lemma exact_lowercase_match_selects_witness :
  ∃ out,
    (execute (env_answering " B ") router_A inputs_prompt (world_of graph_Ab)).1 = inr out
    ∧ blockId (selectedPath out) = "b".
Proof.
  apply (exact_lowercase_match_selects (env_answering " B ") router_A inputs_prompt
           (world_of graph_Ab) (candidate "b") (answer_of " B ")
           (asked_once graph_Ab) " B ").
  - reflexivity.
  - reflexivity.
  - reflexivity.
Defined.

(** C3, as stated, fails: the graph has the single enabled candidate [B],
    the answer [b] equals that id up to case, and [execute] throws. *)
Lemma case_insensitive_match_fails :
  (getTargetBlocks router_A (w_context (world_of graph_AB)) (world_of graph_AB)).1
    = inr [candidate "B"]
  ∧ toLowerCase (trim "b") = toLowerCase (tb_id (candidate "B"))
  ∧ (execute (env_answering "b") router_A inputs_prompt (world_of graph_AB)).1
    = inl (Error "Invalid routing decision: b").
Proof. repeat split; reflexivity. Qed.

Lemma invalid_target_fails_validation_witness :
  (∃ pre bad post e,
     [mkConnection "A" "B" None None; mkConnection "A" "D" None None;
      mkConnection "A" "C" None None] = pre ++ bad :: post
     ∧ Forall (λ c, viable (w_context (world_of graph_two_invalid)) (target c) = true) pre
     ∧ viable (w_context (world_of graph_two_invalid)) (target bad) = false
     ∧ (find_target (w_context (world_of graph_two_invalid)) (target bad) = inr None
        ∧ e = Error ("Target block " +:+ target bad +:+ " not found for router "
                     +:+ sb_id router_A)
        ∨ (∃ targetBlock,
             find_target (w_context (world_of graph_two_invalid)) (target bad)
             = inr (Some targetBlock)
             ∧ is_enabled targetBlock = false)
          ∧ e = Error ("Target block " +:+ target bad +:+ " is disabled for router "
                       +:+ sb_id router_A))
     ∧ validate_target router_A (w_context (world_of graph_two_invalid)) bad = inl e
     ∧ (execute (env_answering "c") router_A inputs_prompt
          (world_of graph_two_invalid)).1 = inl e)
  ∧ w_fetches (execute (env_answering "c") router_A inputs_prompt
                 (world_of graph_two_invalid)).2
    = w_fetches (world_of graph_two_invalid)
  ∧ ∃ targetBlocks w',
      getTargetBlocks router_A (w_context (world_of graph_two_invalid))
        (world_of graph_two_invalid)
      = (inr targetBlocks, w')
      ∧ (tb_id <$> targetBlocks)
        = (target <$> filter (λ c, viable (w_context (world_of graph_two_invalid))
                                      (target c) = true)
                        [mkConnection "A" "B" None None; mkConnection "A" "D" None None;
                         mkConnection "A" "C" None None])
      ∧ (target (mkConnection "A" "C" None None) ∉ tb_id <$> targetBlocks)
      ∧ ∃ entry,
          entry ∈ w_log w' ∧ level entry = LWarn
          ∧ (message entry = "Target block " +:+ target (mkConnection "A" "C" None None)
                             +:+ " not found for router " +:+ sb_id router_A
             ∨ message entry = "Target block " +:+ target (mkConnection "A" "C" None None)
                               +:+ " is disabled for router " +:+ sb_id router_A).
Proof.
  apply (invalid_target_fails_validation (env_answering "c") router_A inputs_prompt
           (world_of graph_two_invalid) graph_two_invalid
           [mkConnection "A" "B" None None; mkConnection "A" "D" None None;
            mkConnection "A" "C" None None]
           (mkConnection "A" "C" None None)).
  - reflexivity.
  - repeat constructor; by eexists.
  - reflexivity.
  - do 2 right. by left.
  - reflexivity.
Defined.

(** Of the two rejected targets, the missing [D] comes first among the
    connections: the error names it, not the disabled [C], although the
    theorem was asked about [C]. *)
Example first_invalid_target_is_reported :
  (execute (env_answering "c") router_A inputs_prompt (world_of graph_two_invalid)).1
  = inl (Error "Target block D not found for router A").
Proof. reflexivity. Qed.

(** C2, as stated, fails: [A] has the enabled target [B] and the disabled
    target [C], the candidate set after filtering is [B], not empty, and
    [execute] fails all the same, on the disabled target alone. *)
Lemma disabled_target_alone_is_fatal :
  viable (w_context (world_of graph_ABC)) "B" = true
  ∧ viable (w_context (world_of graph_ABC)) "C" = false
  ∧ (getTargetBlocks router_A (w_context (world_of graph_ABC)) (world_of graph_ABC)).1
    = inr [candidate "B"]
  ∧ (execute (env_answering "b") router_A inputs_prompt (world_of graph_ABC)).1
    = inl (Error "Target block C is disabled for router A").
Proof. repeat split; reflexivity. Qed.

End RouterProofs.

(** * Properties of the serializer *)

Module SerializerProofs.
Import Serializer Blocks Examples.

Section Defaults.

Variable env : Environment.

Lemma apply_defaults_app pre post params :
  apply_defaults (pre ++ post) params
  = match apply_defaults pre params with
    | inl e => inl e
    | inr sofar => apply_defaults post sofar
    end.
Proof.
  revert params. induction pre as [| c pre IH]; intros params; simpl; [done |].
  destruct (apply_default params c); [done | apply IH].
Qed.

(** A step changes at most the parameter of its own field, and only when
    that parameter is [null]. *)
Lemma apply_default_other params c params' id :
  apply_default params c = inr params' →
  id ≠ sbc_id c ∨ is_null (prop params id) = false →
  params' !! id = params !! id.
Proof.
  unfold apply_default. intros Hstep Hid.
  destruct (sbc_value c) as [value |]; [| by simplify_eq].
  destruct (is_null (prop params (sbc_id c))) eqn:Hnull; [| by simplify_eq].
  destruct (value params) as [e | v]; [done |]. simplify_eq.
  destruct Hid as [Hne | Hnn].
  - by rewrite lookup_insert_ne.
  - destruct (decide (sbc_id c = id)) as [<- | Hne]; [congruence |].
    by rewrite lookup_insert_ne.
Qed.

Lemma apply_defaults_undeclared subBlocks params params' id :
  apply_defaults subBlocks params = inr params' →
  id ∉ sbc_id <$> subBlocks →
  params' !! id = params !! id.
Proof.
  revert params. induction subBlocks as [| c cs IH]; intros params; simpl.
  - by intros [= ->].
  - destruct (apply_default params c) as [e | params1] eqn:Hstep; [done |].
    intros Hrest Hid. apply not_elem_of_cons in Hid as [Hne Hid].
    rewrite (IH params1 Hrest Hid).
    eapply apply_default_other; eauto.
Qed.

(** A parameter that is not [null] is never replaced. *)
Lemma apply_defaults_keeps subBlocks params params' id :
  apply_defaults subBlocks params = inr params' →
  is_null (prop params id) = false →
  params' !! id = params !! id.
Proof.
  revert params. induction subBlocks as [| c cs IH]; intros params; simpl.
  - by intros [= ->].
  - destruct (apply_default params c) as [e | params1] eqn:Hstep; [done |].
    intros Hrest Hnn.
    assert (params1 !! id = params !! id) as Hsame
      by (eapply apply_default_other; eauto).
    rewrite (IH params1 Hrest); [done |].
    unfold prop in *. by rewrite Hsame.
Qed.

(** [extractParams] returns what the pass over the declared fields gives. *)
Lemma extractParams_result block w params :
  (extractParams env block w).1 = inr params ↔
  ∃ blockConfig,
    get_block env (bs_type block) = Some blockConfig
    ∧ apply_defaults (bc_subBlocks blockConfig) (collect_values block) = inr params.
Proof.
  unfold extractParams. run.
  destruct (get_block env (bs_type block)) as [blockConfig |]; simpl.
  - destruct (apply_defaults _ _) as [e | params0] eqn:Hpass; simpl.
    + split; [done | intros (? & [= <-] & ?); congruence].
    + split.
      * intros [= ->]. by exists blockConfig.
      * intros (? & [= <-] & ?). congruence.
  - split; [done | intros (? & ? & ?); done].
Qed.

Lemma apply_defaults_total subBlocks params :
  (∀ c value p, c ∈ subBlocks → sbc_value c = Some value → ∃ v, value p = inr v) →
  ∃ params', apply_defaults subBlocks params = inr params'.
Proof.
  revert params. induction subBlocks as [| c cs IH]; intros params Htotal; simpl.
  - by eexists.
  - assert (∃ params1, apply_default params c = inr params1) as [params1 ->].
    { unfold apply_default. destruct (sbc_value c) as [value |] eqn:Hv; [| by eexists].
      destruct (is_null _); [| by eexists].
      destruct (Htotal c value params) as [v ->]; [by left | done | by eexists]. }
    apply IH. intros c' value p Hin. apply Htotal. by right.
Qed.

(** C6, as the code has it. For a block without a sub-block named
    [__proto__], and a declared field that is the only one with its id:
    when its current value is [null] and its definition has a default-value
    function, the effective parameter is that function applied to the
    parameters as they are after the fields declared before it (one pass in
    declaration order); otherwise the parameter is the current value. Any
    parameter whose current value is not [null], an absent one included, is
    left as it is. The pass returns whenever the default-value functions
    do. *)
Theorem defaults_single_pass block blockConfig pre c post w :
  bs_subBlocks block !! "__proto__" = None →
  get_block env (bs_type block) = Some blockConfig →
  bc_subBlocks blockConfig = pre ++ c :: post →
  sbc_id c ∉ sbc_id <$> pre →
  sbc_id c ∉ sbc_id <$> post →
  (∀ params, (extractParams env block w).1 = inr params →
     (∃ sofar,
        apply_defaults pre (collect_values block) = inr sofar
        ∧ match sbc_value c with
          | Some value =>
              if is_null (prop (collect_values block) (sbc_id c))
              then value sofar = inr (prop params (sbc_id c))
              else params !! sbc_id c = collect_values block !! sbc_id c
          | None => params !! sbc_id c = collect_values block !! sbc_id c
          end)
     ∧ ∀ id, is_null (prop (collect_values block) id) = false →
             params !! id = collect_values block !! id)
  ∧ ((∀ d value p, d ∈ bc_subBlocks blockConfig → sbc_value d = Some value →
                   ∃ v, value p = inr v) →
     ∃ params, (extractParams env block w).1 = inr params).
Proof.
  intros _ Hblock Hsplit Hpre Hpost. split.
  - intros params Hparams.
    apply extractParams_result in Hparams as (bc & Hbc & Hpass).
    rewrite Hblock in Hbc. simplify_eq. rewrite Hsplit in Hpass.
    split; [| intros id Hnn; by eapply apply_defaults_keeps].
    rewrite apply_defaults_app in Hpass.
    destruct (apply_defaults pre (collect_values block)) as [e | sofar] eqn:Hbefore;
      [done |].
    exists sofar. split; [done |]. simpl in Hpass.
    destruct (apply_default sofar c) as [e | after] eqn:Hstep; [done |].
    pose proof (apply_defaults_undeclared pre _ _ _ Hbefore Hpre) as Hsofar.
    pose proof (apply_defaults_undeclared post _ _ _ Hpass Hpost) as Hafter.
    unfold apply_default in Hstep. unfold prop in *. rewrite Hsofar in Hstep.
    destruct (sbc_value c) as [value |]; [| simplify_eq; congruence].
    destruct (is_null (default JUndefined (collect_values block !! sbc_id c)));
      [| simplify_eq; congruence].
    destruct (value sofar) as [e | v]; [done |]. simplify_eq.
    by rewrite Hafter, lookup_insert_eq.
  - intros Htotal.
    destruct (apply_defaults_total (bc_subBlocks blockConfig) (collect_values block) Htotal)
      as [params Hpass].
    exists params. apply extractParams_result. by exists blockConfig.
Qed.


(** *** Serializing a valid graph *)

Lemma validate_ok b w :
  valid_block env b → validateBlockBeforeSerialization env (Some b) w = (inr true, w).
Proof.
  intros [Htyped [blockConfig Hconfig]]. unfold validateBlockBeforeSerialization.
  by rewrite Htyped, Hconfig.
Qed.

Lemma valid_blocks_all bs w :
  Forall (valid_block env) bs → valid_blocks env (Some <$> bs) w = (inr bs, w).
Proof.
  induction 1 as [| b bs Hb _ IH]; [done |].
  rewrite fmap_cons. cbn [valid_blocks]. unfold mbind, M_bind.
  rewrite (validate_ok b w Hb). run. by rewrite IH.
Qed.

Lemma serializeBlock_shape b w sb w' :
  serializeBlock env b w = (inr sb, w') → serialized_as b sb.
Proof.
  unfold serializeBlock. run.
  destruct (get_block env (bs_type b)) as [blockConfig |]; simpl; [| done].
  destruct (extractParams env b w) as [[e | params] w1]; simpl; [done |].
  destruct (resolve_toolId env b blockConfig params w1) as [[e | toolId] w2]; simpl; [done |].
  destruct (block_outputs env b params) as [e | outputs]; simpl; [done |].
  intros [= <- <-]. repeat split; simpl; eauto.
Qed.

Lemma map_m_Forall2 {S A B} (f : A → M S B) (R : A → B → Prop) xs w ys w' :
  (∀ x w y w', f x w = (inr y, w') → R x y) →
  map_m f xs w = (inr ys, w') → Forall2 R xs ys.
Proof.
  intros Hf. revert w ys. induction xs as [| x xs IH]; intros w ys; simpl; run.
  - intros [= <- <-]. constructor.
  - destruct (f x w) as [[e | y] w1] eqn:Hx; simpl; [done |].
    destruct (map_m f xs w1) as [[e | ys'] w2] eqn:Hxs; simpl; [done |].
    intros [= <- <-]. constructor; eauto.
Qed.

(** [serializeWorkflow] returns a document whenever each valid block
    serializes. *)
Lemma serialize_returns_when_blocks_do (graph : list (string * option BlockState)) bs
  (edges : list Edge) loops w :
  graph.*2 = Some <$> bs →
  Forall (valid_block env) bs →
  (∀ b w0, b ∈ bs → ∃ sb w1, serializeBlock env b w0 = (inr sb, w1)) →
  ∃ doc w', serializeWorkflow env graph edges loops w = (inr doc, w').
Proof.
  intros Hgraph Hvalid Hblocks.
  unfold serializeWorkflow. unfold mbind, M_bind.
  rewrite Hgraph, (valid_blocks_all bs w Hvalid).
  assert (∃ sbs w', map_m (serializeBlock env) bs w = (inr sbs, w')) as (sbs & w' & ->).
  { clear Hgraph Hvalid. revert w.
    induction bs as [| b bs IH]; intros w; simpl; run; [by eexists _, _ |].
    destruct (Hblocks b w) as (sb & w1 & ->); [by left |].
    destruct (IH (λ b0 w0 Hin, Hblocks b0 w0 (list_elem_of_further _ _ _ Hin)) w1)
      as (sbs & w' & ->).
    by eexists _, _. }
  run. by eexists _, _.
Qed.

(** *** Deserializing what was serialized *)

Lemma restore_subBlocks_ok sb tool params declared subBlocks :
  sb_config sb = Some (mkConfig tool (Some params)) →
  ∃ restored, restore_subBlocks sb declared subBlocks = inr restored.
Proof.
  intros Hconfig. revert subBlocks.
  induction declared as [| c cs IH]; intros subBlocks; simpl; [by eexists |].
  unfold read_param. rewrite Hconfig. simpl. apply IH.
Qed.


Lemma set_property_own k b acc :
  k ≠ "__proto__" →
  set_property k b acc = mkBlocksObject (<[k := b]> (own acc)) (proto acc).
Proof.
  intros Hk. unfold set_property.
  destruct (String.eqb k "__proto__") eqn:Heq; [| done].
  by apply String.eqb_eq in Heq.
Qed.


(** The second loop of [deserializeWorkflow] never throws, and pushes an
    edge for exactly the connections whose two lookups are truthy. *)
Lemma deserialize_connections_ok acc (conns : list Connection) w :
  ∃ pushed w',
    map_m (deserialize_connection env acc) conns w = (inr pushed, w')
    ∧ (∀ c, c ∈ conns →
         has_truthy acc (source c) = true → has_truthy acc (target c) = true →
         ∃ e, Some e ∈ pushed
              ∧ edge_source e = source c ∧ edge_target e = target c
              ∧ edge_sourceHandle e = sourceHandle c
              ∧ edge_targetHandle e = targetHandle c)
    ∧ ∀ e, Some e ∈ pushed →
        ∃ c, c ∈ conns
             ∧ has_truthy acc (source c) = true ∧ has_truthy acc (target c) = true
             ∧ edge_source e = source c ∧ edge_target e = target c.
Proof.
  revert w. induction conns as [| c conns IH]; intros w; simpl; run.
  - eexists _, _. split; [done |]. split; intros ? Hin; by apply elem_of_nil in Hin.
  - unfold deserialize_connection at 1. unfold crypto_randomUUID. run.
    destruct (has_truthy acc (source c)) eqn:Hs, (has_truthy acc (target c)) eqn:Ht;
      simpl;
      match goal with
      | |- context [map_m _ conns ?w1] =>
          destruct (IH w1) as (pushed & w' & -> & Hkept & Honly)
      end; simpl; eexists _, _; (split; [reflexivity |]); split.
    all: try (intros c0 Hin Hs0 Ht0; apply elem_of_cons in Hin as [-> | Hin];
              [ first [ congruence | eexists; split; [by left | done] ]
              | destruct (Hkept c0 Hin Hs0 Ht0) as (e & ? & ?);
                exists e; split; [by right | done] ]).
    all: intros e Hin; apply elem_of_cons in Hin as [Heq | Hin];
      [ first [ discriminate Heq
              | injection Heq as ->; exists c; repeat split; simpl; by (done || left) ]
      | destruct (Honly e Hin) as (c0 & ? & ?); exists c0; split; [by right | done] ].
Qed.

(** *** Deserializing any document *)

(** A property name of [Object.prototype] reads as truthy through
    [blocks], whatever blocks were stored. *)
Lemma inherited_names_read_truthy acc k :
  k ∈ Object_prototype_names → has_truthy acc k = true.
Proof.
  intros Hk. unfold has_truthy.
  destruct (own acc !! k); [done |].
  destruct (proto acc) as [b |]; simpl; [| by apply bool_decide_eq_true].
  assert (block_field_truthy k b = None) as ->; [| by apply bool_decide_eq_true].
  unfold Object_prototype_names in Hk.
  repeat (apply elem_of_cons in Hk as [-> | Hk]; [reflexivity |]).
  by apply elem_of_nil in Hk.
Qed.

(** The [try]/[catch] around each entry: an entry never throws. *)
Lemma deserialize_entry_total acc entry w :
  ∃ acc' w', deserialize_entry env acc entry w = (inr acc', w').
Proof.
  unfold deserialize_entry. run.
  destruct (validateSerializedBlock env entry w) as [[e | valid] w1]; simpl;
    [by eexists _, _ |].
  destruct entry as [sb |]; simpl; [| by eexists _, _].
  destruct valid; simpl; [| by eexists _, _].
  destruct (deserializeBlock env sb w1) as [[e | block] w2]; simpl; by eexists _, _.
Qed.

Lemma deserialize_blocks_total entries acc w :
  ∃ acc' w', deserialize_blocks env entries acc w = (inr acc', w').
Proof.
  revert acc w. induction entries as [| entry entries IH]; intros acc w; simpl; run.
  - by eexists _, _.
  - destruct (deserialize_entry_total acc entry w) as (acc1 & w1 & ->). apply IH.
Qed.

(** [deserializeWorkflow] returns for every document. *)
Lemma deserializeWorkflow_total doc w :
  ∃ restored kept w', deserializeWorkflow env doc w = (inr (restored, kept), w').
Proof.
  unfold deserializeWorkflow. unfold mbind, M_bind.
  destruct (deserialize_blocks_total (blocks doc) empty_object w) as (restored & w1 & ->).
  destruct (deserialize_connections_ok restored (connections doc) w1)
    as (pushed & w2 & -> & _). run. by eexists _, _, _.
Qed.

(** The endpoints of a kept edge passed the lookup; when the prototype of
    [blocks] was not replaced, an endpoint that is not a property name of
    [Object.prototype] is the id of an accepted block. *)
Lemma kept_edges_have_accepted_endpoints doc w restored kept w' e :
  deserializeWorkflow env doc w = (inr (restored, kept), w') →
  e ∈ kept →
  has_truthy restored (edge_source e) = true
  ∧ has_truthy restored (edge_target e) = true
  ∧ (proto restored = None →
     (edge_source e ∉ Object_prototype_names → is_Some (own restored !! edge_source e))
     ∧ (edge_target e ∉ Object_prototype_names → is_Some (own restored !! edge_target e))).
Proof.
  unfold deserializeWorkflow. unfold mbind, M_bind.
  destruct (deserialize_blocks_total (blocks doc) empty_object w) as (acc & w1 & ->).
  destruct (deserialize_connections_ok acc (connections doc) w1)
    as (pushed & w2 & -> & _ & Honly). run.
  intros [= <- <- <-] Hin.
  apply list_elem_of_omap in Hin as (o & Ho & Hsome). simpl in Hsome. subst o.
  destruct (Honly e Ho) as (c & _ & Hs & Ht & -> & ->).
  split; [done |]. split; [done |].
  intros Hproto. unfold has_truthy in Hs, Ht. rewrite Hproto in Hs, Ht. simpl in *.
  split; intros Hname.
  - destruct (own acc !! source c); [by eexists |].
    by apply bool_decide_eq_true in Hs.
  - destruct (own acc !! target c); [by eexists |].
    by apply bool_decide_eq_true in Ht.
Qed.


End Defaults.

Lemma defaults_single_pass_witness :
  (∀ params,
     (extractParams serializer_env create_dynamics365 fresh).1 = inr params →
     (∃ sofar,
        apply_defaults fields_before (collect_values create_dynamics365) = inr sofar
        ∧ match sbc_value salesOperation_field with
          | Some value =>
              if is_null (prop (collect_values create_dynamics365)
                            (sbc_id salesOperation_field))
              then value sofar = inr (prop params (sbc_id salesOperation_field))
              else params !! sbc_id salesOperation_field
                   = collect_values create_dynamics365 !! sbc_id salesOperation_field
          | None => params !! sbc_id salesOperation_field
                    = collect_values create_dynamics365 !! sbc_id salesOperation_field
          end)
     ∧ ∀ id, is_null (prop (collect_values create_dynamics365) id) = false →
             params !! id = collect_values create_dynamics365 !! id)
  ∧ ((∀ d value p, d ∈ bc_subBlocks Dynamics365Block → sbc_value d = Some value →
                   ∃ v, value p = inr v) →
     ∃ params, (extractParams serializer_env create_dynamics365 fresh).1 = inr params).
Proof.
  apply (defaults_single_pass serializer_env create_dynamics365 Dynamics365Block
           fields_before salesOperation_field fields_after fresh).
  - reflexivity.
  - reflexivity.
  - reflexivity.
  - vm_compute. intros Hin. by repeat (apply elem_of_cons in Hin as [Hin | Hin]; [done |]);
      apply elem_of_nil in Hin.
  - vm_compute. intros Hin. by repeat (apply elem_of_cons in Hin as [Hin | Hin]; [done |]);
      apply elem_of_nil in Hin.
Defined.

(** The default of that block is computed: [salesOperation] was [null]. *)
Example default_applied :
  ∃ params,
    (extractParams serializer_env create_dynamics365 fresh).1 = inr params
    ∧ prop params "salesOperation" = JStr "sales_summary"
    ∧ prop params "operation" = JStr "create".
Proof. eexists. repeat split; reflexivity. Qed.

(** C6, as stated, fails for an absent value: the block has no entry for
    [salesOperation], the field definition has a default-value function,
    and the effective parameter stays [undefined]. *)
Lemma absent_value_gets_no_default :
  collect_values sales_dynamics365 !! "salesOperation" = None
  ∧ salesOperation_field ∈ bc_subBlocks Dynamics365Block
  ∧ (∃ value, sbc_value salesOperation_field = Some value
              ∧ ∀ p, value p = inr (JStr "sales_summary"))
  ∧ ∃ params,
      (extractParams serializer_env sales_dynamics365 fresh).1 = inr params
      ∧ prop params "salesOperation" = JUndefined.
Proof.
  split; [reflexivity |]. split; [| split].
  - do 7 right. by left.
  - eexists. split; [reflexivity | done].
  - eexists. split; reflexivity.
Qed.


(** The parse of [responseFormat] is outside the fallback: an agent whose
    [tools] and [responseFormat] are both unparsable logs the tools error,
    then throws the second parse error, and the graph that holds it is not
    serialized. *)
Example unparsable_response_format_is_thrown :
  serializeBlock serializer_env agent_bad_format fresh
  = (inl (SyntaxError "Unexpected token"),
     mkWorld [mkLog LError "Error processing tools in agent block:"
                (Some (SyntaxError "Unexpected token"));
              mkLog LError "Error serializing block a3:"
                (Some (SyntaxError "Unexpected token"))] 0)
  ∧ (serializeWorkflow serializer_env
       [("a3", Some agent_bad_format); ("d2", Some create_dynamics365)] [] ∅ fresh).1
    = inl (SyntaxError "Unexpected token").
Proof. split; reflexivity. Qed.


(** C4: one block aborts [serializeWorkflow]. The graph holds a new
    Dynamics 365 block, which is valid (present, typed, its type in the
    registry), and the block [d2]; the error thrown for the first is thrown
    by the whole call, and no document is returned although [d2] serializes
    on its own. *)
Theorem serialize_aborts_on_one_block :
  (validateBlockBeforeSerialization serializer_env (Some new_dynamics365) fresh).1 = inr true
  ∧ (∃ serialized, (serializeBlock serializer_env create_dynamics365 fresh).1
                   = inr serialized)
  ∧ serializeWorkflow serializer_env
      [("d1", Some new_dynamics365); ("d2", Some create_dynamics365)] [] ∅ fresh
    = (inl (Error "Invalid Dynamics 365 operation: null"),
       mkWorld [mkLog LError "Error serializing block d1:"
                  (Some (Error "Invalid Dynamics 365 operation: null"))] 0).
Proof.
  split; [reflexivity |]. split; [eexists; reflexivity | reflexivity].
Qed.

(** C9: a connection between names that no block carries is kept. The
    document has no blocks at all; [blocks["constructor"]] and
    [blocks["toString"]] are the functions inherited from
    [Object.prototype], both truthy, so the edge is pushed. *)
Theorem dangling_connection_kept :
  deserializeWorkflow serializer_env
    (mkWorkflow "1.0" [] [mkConnection "constructor" "toString" None None] ∅) fresh
  = (inr (empty_object, [mkEdge "uuid-0" "constructor" "toString" None None]),
     mkWorld [] 1).
Proof. reflexivity. Qed.


(** The edge of that graph after the round trip: a new id, the empty
    source handle gone. *)
Example round_trip_edge :
  ∃ restored w2,
    deserializeWorkflow serializer_env sample_document sample_run.2
    = (inr (restored, [mkEdge "uuid-0" "d2" "a1" None (Some "in")]), w2).
Proof. eexists _, _. reflexivity. Qed.


End SerializerProofs.

(** * Further properties of the router handler *)

Module RouterFacts.
Import Router RouterViews Examples RouterProofs.

Lemma viable_found context id :
  viable context id = true →
  ∃ targetBlock, find_target context id = inr (Some targetBlock)
                 ∧ is_enabled targetBlock = true ∧ sb_id targetBlock = id.
Proof.
  unfold viable. destruct (find_target context id) as [e | [targetBlock |]] eqn:Hfind;
    try done.
  intros Henabled. exists targetBlock. repeat split; try done.
  unfold find_target in Hfind. destruct (workflow context); [| done].
  by apply find_block_id in Hfind.
Qed.

(** Validation accepts a list of connections only if every target is
    viable. *)
Lemma validated_targets block context (conns : list Connection) :
  validate_targets block context conns = inr tt →
  Forall (λ conn, viable context (target conn) = true) conns.
Proof.
  induction conns as [| conn conns IH]; simpl; intros Hvalid; [constructor |].
  destruct (validate_target block context conn) as [e | []] eqn:Hconn; [done |].
  constructor; [| by apply IH].
  unfold validate_target in Hconn. unfold viable.
  destruct (find_target context (target conn)) as [e | [targetBlock |]]; try done.
  by destruct (is_enabled targetBlock).
Qed.

(** For viable targets the enumeration neither drops nor logs. *)
Lemma map_viable_targets block context (conns : list Connection) w :
  Forall (λ conn, viable context (target conn) = true) conns →
  map_m (target_of_connection block context) conns w
  = (inr (candidate_of context <$> conns), w).
Proof.
  induction 1 as [| conn conns Hconn _ IH]; [done |].
  rewrite fmap_cons. cbn [map_m]. unfold mbind, M_bind.
  destruct (viable_found _ _ Hconn) as (targetBlock & Hfind & Henabled & _).
  unfold target_of_connection at 1, candidate_of at 1. run.
  rewrite Hfind. simpl. rewrite Henabled. simpl. by rewrite IH.
Qed.

Lemma validated_enumeration block context :
  validateRouterConfiguration block context = inr tt →
  ∃ conns : list Connection,
    outgoingConnections block context = Some conns
    ∧ conns ≠ []
    ∧ Forall (λ conn, viable context (target conn) = true) conns
    ∧ (∀ w, getTargetBlocks block context w = (inr (candidates block context), w))
    ∧ (tb_id <$> candidates block context) = (target <$> conns).
Proof.
  unfold validateRouterConfiguration, getTargetBlocks, candidates.
  destruct (outgoingConnections block context) as [[| conn conns] |]; try done.
  intros Hvalid. apply validated_targets in Hvalid.
  exists (conn :: conns). repeat split; try done.
  - intros w. unfold mbind, M_bind. by rewrite (map_viable_targets _ _ _ w Hvalid).
  - simpl default. rewrite candidate_ids. f_equal.
    clear -Hvalid. induction Hvalid as [| c cs Hc _ IH]; [done |].
    rewrite filter_cons. by case_decide; [rewrite IH |].
Qed.

Lemma candidates_not_nil block context :
  validateRouterConfiguration block context = inr tt → candidates block context ≠ [].
Proof.
  intros Hvalid. destruct (validated_enumeration _ _ Hvalid) as (conns & _ & Hne & _ & _ & Hids).
  intros Hnil. rewrite Hnil in Hids. by destruct conns.
Qed.

Section Handler.

Variable env : Environment.

(** [ask_provider], step by step. *)
Lemma ask_provider_run block inputs w :
  ask_provider env block inputs w
  = match validateRouterConfiguration block (w_context w) with
    | inl e => (inl e, w)
    | inr _ =>
        match provider_request env (w_context w) inputs (candidates block (w_context w)) with
        | inl e => (inl e, w)
        | inr (url, req) =>
            match fetch env url req with
            | inl e => (inl e, sent w url req)
            | inr response =>
                if resp_ok response
                then match resp_json response with
                     | inl e => (inl e, sent w url req)
                     | inr result =>
                         (inr (candidates block (w_context w), result), sent w url req)
                     end
                else (inl (provider_failure response), sent w url req)
            end
        end
    end.
Proof.
  unfold ask_provider. unfold mbind at 1, M_bind at 1, gets. unfold mbind at 1, M_bind at 1, lift.
  destruct (validateRouterConfiguration block (w_context w)) as [e | []] eqn:Hvalid; [done |].
  destruct (validated_enumeration _ _ Hvalid) as (conns & _ & _ & _ & Henum & _).
  pose proof (candidates_not_nil _ _ Hvalid) as Hne.
  unfold mbind at 1, M_bind at 1. rewrite Henum.
  destruct (candidates block (w_context w)) as [| tb tbs] eqn:Hcands; [done |].
  unfold provider_request.
  destruct (truthy (prop inputs "prompt")); simpl; [| done].
  run.
  destruct (getProviderFromModel env _) as [e | providerId]; simpl; [done |].
  destruct (new_URL env _ _) as [e | url]; simpl; [done |].
  destruct (generateRouterPrompt env _ _) as [e | systemPrompt]; simpl; [done |].
  unfold do_fetch, sent. run.
  destruct (fetch env url _) as [e | response]; simpl; [done |].
  destruct (resp_ok response); simpl; [| done].
  by destruct (resp_json response).
Qed.

Lemma provider_request_prompt context inputs targetBlocks sending :
  provider_request env context inputs targetBlocks = inr sending →
  truthy (prop inputs "prompt") = true.
Proof. unfold provider_request. by destruct (truthy (prop inputs "prompt")). Qed.

(** C10. When [inputs.model] is absent or otherwise falsy, the handler
    uses the model ['gpt-4o']. Every provider call of the execution (there
    is at most one) carries that model and the provider that
    [getProviderFromModel('gpt-4o')] gave. And the execution does resolve
    the provider of ['gpt-4o'] and send that model once it has a valid
    configuration and a prompt: when [getProviderFromModel('gpt-4o')]
    throws, [execute] throws that error without a call; when it gives a
    provider, and the address and the system prompt can be built, exactly
    one call is made, for the model ['gpt-4o'] and that provider. *)
Theorem default_model_is_gpt_4o block inputs w :
  truthy (prop inputs "model") = false →
  (∃ calls,
     w_fetches (execute env block inputs w).2 = w_fetches w ++ calls
     ∧ length calls ≤ 1
     ∧ ∀ url req, (url, req) ∈ calls →
         req_model req = JStr "gpt-4o"
         ∧ getProviderFromModel env (JStr "gpt-4o") = inr (req_provider req))
  ∧ (validateRouterConfiguration block (w_context w) = inr tt →
     truthy (prop inputs "prompt") = true →
     match getProviderFromModel env (JStr "gpt-4o") with
     | inl e =>
         (execute env block inputs w).1 = inl e
         ∧ w_fetches (execute env block inputs w).2 = w_fetches w
     | inr providerId =>
         ∀ targetBlocks w1 url systemPrompt,
           getTargetBlocks block (w_context w) w = (inr targetBlocks, w1) →
           new_URL env "/api/providers" (str_or (NEXT_PUBLIC_APP_URL env) "") = inr url →
           generateRouterPrompt env (prop inputs "prompt") targetBlocks = inr systemPrompt →
           ∃ req,
             w_fetches (execute env block inputs w).2 = w_fetches w ++ [(url, req)]
             ∧ req_model req = JStr "gpt-4o"
             ∧ req_provider req = providerId
     end).
Proof.
  intros Hmodel. split.
  - rewrite execute_fetches. unfold execute_body. run.
    destruct (ask_provider_effect env block inputs w) as [_ Hcalls].
    destruct (ask_provider env block inputs w) as [[e | answered] w1]; simpl in *.
    + destruct Hcalls as [-> | (url & req & -> & Hm & Hp)].
      * exists []. rewrite app_nil_r. split; [done |]. split; [simpl; lia |].
        intros ?? Hin. by apply elem_of_nil in Hin.
      * exists [(url, req)]. split; [done |]. split; [done |].
        intros url' req' Hin. apply list_elem_of_singleton in Hin. simplify_eq.
        unfold js_or in Hm. rewrite Hmodel in Hm. by rewrite <- Hm.
    + destruct (resolve_decision_frame inputs answered.1 answered.2 w1) as [_ Hf].
      destruct (resolve_decision inputs answered.1 answered.2 w1) as [[e | out] w2];
        simpl in *; rewrite Hf;
        (destruct Hcalls as [-> | (url & req & -> & Hm & Hp)];
         [ exists []; rewrite app_nil_r; split; [done |]; split; [simpl; lia |];
           intros ?? Hin; by apply elem_of_nil in Hin
         | exists [(url, req)]; split; [done |]; split; [done |];
           intros url' req' Hin; apply list_elem_of_singleton in Hin; simplify_eq;
           unfold js_or in Hm; rewrite Hmodel in Hm; by rewrite <- Hm ]).
  - intros Hvalid Hprompt.
    destruct (validated_enumeration _ _ Hvalid) as (_ & _ & _ & _ & Henum & _).
    rewrite execute_result, execute_fetches. unfold execute_body.
    unfold mbind, M_bind. rewrite ask_provider_run, Hvalid.
    unfold provider_request, js_or. rewrite Hprompt, Hmodel. simpl.
    destruct (getProviderFromModel env (JStr "gpt-4o")) as [e | providerId]; [done |].
    intros targetBlocks w1 url systemPrompt Htargets Hurl Hsystem.
    rewrite Henum in Htargets. injection Htargets as <- <-.
    rewrite Hurl, Hsystem.
    match goal with |- context [fetch env url ?r] => exists r end.
    split; [| split; reflexivity].
    destruct (fetch env url _) as [e | response]; simpl; [done |].
    destruct (resp_ok response); simpl; [| done].
    destruct (resp_json response) as [e | result]; simpl; [done |].
    match goal with |- context [resolve_decision ?i ?t ?r ?w0] =>
      pose proof (resolve_decision_frame i t r w0) as [_ Hframe];
      destruct (resolve_decision i t r w0) as [[e | out] w2] end; simpl in *;
      by rewrite Hframe.
Qed.

(** What a successful execution went through. *)
Lemma execute_success_inv block inputs w out w' :
  execute env block inputs w = (inr out, w') →
  validateRouterConfiguration block (w_context w) = inr tt
  ∧ ∃ url req response result content chosenBlock,
      provider_request env (w_context w) inputs (candidates block (w_context w))
      = inr (url, req)
      ∧ fetch env url req = inr response
      ∧ resp_ok response = true
      ∧ resp_json response = inr result
      ∧ response_content result = inr content
      ∧ find_candidate (toLowerCase (trim content)) (candidates block (w_context w))
        = Some chosenBlock
      ∧ token_counts result = inr (out_tokens out)
      ∧ blockId (selectedPath out) = tb_id chosenBlock
      ∧ out_content out = prop inputs "prompt"
      ∧ w' = sent w url req.
Proof.
  unfold execute, execute_body, try_catch. unfold mbind at 1, M_bind at 1.
  rewrite ask_provider_run.
  destruct (validateRouterConfiguration block (w_context w)) as [e | []]; [done |].
  destruct (provider_request env _ _ _) as [e | [url req]] eqn:Hreq; [done |].
  destruct (fetch env url req) as [e | response] eqn:Hfetch; [done |].
  destruct (resp_ok response) eqn:Hok; [| done].
  destruct (resp_json response) as [e | result] eqn:Hjson; [done |].
  simpl. unfold resolve_decision. run.
  destruct (response_content result) as [e | content] eqn:Hcontent; simpl; [done |].
  destruct (find_candidate _ _) as [chosenBlock |] eqn:Hfind; simpl; [| done].
  destruct (token_counts result) as [e | tokens] eqn:Htokens; simpl; [done |].
  destruct (JS.get result "model") as [e | model]; simpl; [done |].
  intros [= <- <-]. split; [done |].
  by eexists url, req, response, result, content, chosenBlock.
Qed.

(** X1. With a valid router configuration and a missing (falsy) prompt,
    [execute] throws [Router prompt is required] and no provider call is
    made. *)
Theorem missing_prompt_is_fatal block inputs w :
  validateRouterConfiguration block (w_context w) = inr tt →
  truthy (prop inputs "prompt") = false →
  (execute env block inputs w).1 = inl (Error "Router prompt is required")
  ∧ w_fetches (execute env block inputs w).2 = w_fetches w.
Proof.
  intros Hvalid Hprompt.
  rewrite execute_result, execute_fetches. unfold execute_body.
  unfold mbind, M_bind. rewrite ask_provider_run, Hvalid.
  unfold provider_request. by rewrite Hprompt.
Qed.

(** X2. Once the configuration of a router is valid, [getTargetBlocks]
    returns one candidate for every outgoing connection, in the order of
    the connections and with the ids of their targets, and logs nothing:
    there is at least one candidate, and every target is present and
    enabled. *)
Theorem valid_router_lists_every_target block context w :
  validateRouterConfiguration block context = inr tt →
  ∃ (conns : list Connection) targetBlocks,
    outgoingConnections block context = Some conns
    ∧ getTargetBlocks block context w = (inr targetBlocks, w)
    ∧ (tb_id <$> targetBlocks) = (target <$> conns)
    ∧ targetBlocks ≠ []
    ∧ Forall (λ conn, viable context (target conn) = true) conns.
Proof.
  intros Hvalid.
  destruct (validated_enumeration _ _ Hvalid) as (conns & Hout & _ & Hviable & Henum & Hids).
  exists conns, (candidates block context).
  repeat split; try done. by apply candidates_not_nil.
Qed.

(** X3. When [execute] returns, the selected block is the target of a
    connection leaving the router, that target is present and enabled, the
    output carries the prompt of the inputs, exactly one provider call was
    made, and neither the log nor the execution context changed. *)
Theorem selected_path_is_a_viable_target block inputs w out w' :
  execute env block inputs w = (inr out, w') →
  (∃ (conns : list Connection) conn,
     outgoingConnections block (w_context w) = Some conns
     ∧ conn ∈ conns
     ∧ blockId (selectedPath out) = target conn
     ∧ viable (w_context w) (target conn) = true)
  ∧ out_content out = prop inputs "prompt"
  ∧ truthy (prop inputs "prompt") = true
  ∧ w_context w' = w_context w
  ∧ w_log w' = w_log w
  ∧ ∃ url req, w_fetches w' = w_fetches w ++ [(url, req)].
Proof.
  intros Hrun.
  destruct (execute_success_inv _ _ _ _ _ Hrun)
    as (Hvalid & url & req & response & result & content & chosenBlock
        & Hreq & _ & _ & _ & _ & Hfind & _ & Hid & Hcontent & ->).
  destruct (validated_enumeration _ _ Hvalid) as (conns & Hout & _ & Hviable & _ & Hids).
  apply find_candidate_id in Hfind as [_ Hin].
  assert (tb_id chosenBlock ∈ target <$> conns) as Hmem
    by (rewrite <- Hids; by apply list_elem_of_fmap_2).
  apply list_elem_of_fmap in Hmem as (conn & Htarget & Hconn).
  split; [| split; [done | split; [by eapply provider_request_prompt |]]].
  - exists conns, conn. repeat split; try done; [congruence |].
    by eapply (proj1 (Forall_forall _ _)) in Hviable.
  - repeat split. by eexists _, _.
Qed.


(** Closes a branch in which the error is the only entry logged. *)
Ltac logged_alone :=
  run; intros Hrun; injection Hrun as ? ?; subst; exists []; simpl;
  (split; [done | split; [lia | constructor]]).

(** X5. Whenever [execute] throws, the last entry of the log is the error
    [Router execution failed:] with the error thrown; before it the
    execution has logged at most one entry, an error as well (the warnings
    of [getTargetBlocks] never appear). *)
Theorem failure_is_logged_last block inputs w e :
  (execute env block inputs w).1 = inl e →
  ∃ entries,
    w_log (execute env block inputs w).2
    = w_log w ++ entries ++ [mkLog LError "Router execution failed:" (Some e)]
    ∧ length entries ≤ 1
    ∧ Forall (λ entry, level entry = LError) entries.
Proof.
  destruct (execute env block inputs w) as [[e1 | out] w'] eqn:Hrun; simpl; [| done].
  intros [= ->]. revert Hrun.
  unfold execute, execute_body, try_catch. unfold mbind at 1, M_bind at 1.
  rewrite ask_provider_run.
  destruct (validateRouterConfiguration block (w_context w)) as [e0 | []]; simpl;
    [logged_alone |].
  destruct (provider_request env _ _ _) as [e0 | [url req]]; simpl; [logged_alone |].
  destruct (fetch env url req) as [e0 | response]; simpl; [logged_alone |].
  destruct (resp_ok response); simpl; [| logged_alone].
  destruct (resp_json response) as [e0 | result]; simpl; [logged_alone |].
  unfold resolve_decision. run.
  destruct (response_content result) as [e0 | content]; simpl; [logged_alone |].
  destruct (find_candidate _ _) as [chosenBlock |]; simpl.
  - destruct (token_counts result) as [e0 | tokens]; simpl; [logged_alone |].
    destruct (JS.get result "model") as [e0 | model]; simpl; [logged_alone | done].
  - intros [= <- <-]. eexists [_]. rewrite <- app_assoc. simpl.
    split; [reflexivity |]. split; [lia |]. by repeat constructor.
Qed.

(** X6. The token counts of a returned output come from the provider's
    answer: when the [tokens] of the answer are truthy, each of [prompt],
    [completion] and [total] is the count of that name in [tokens] if that
    count is truthy, and the number 0 otherwise; when the answer has no
    truthy [tokens], all three are 0. *)
Theorem token_counts_default_to_zero block inputs w out w' :
  execute env block inputs w = (inr out, w') →
  ∃ url req response result tokens,
    last (w_fetches w') = Some (url, req)
    ∧ fetch env url req = inr response
    ∧ resp_json response = inr result
    ∧ JS.get result "tokens" = inr tokens
    ∧ if truthy tokens
      then
        ∀ name count,
          (name, count) ∈ [("prompt", tok_prompt (out_tokens out));
                           ("completion", tok_completion (out_tokens out));
                           ("total", tok_total (out_tokens out))] →
          ∃ reported,
            JS.get tokens name = inr reported
            ∧ count = (if truthy reported then reported else JNum 0)
      else out_tokens out = mkTokens (JNum 0) (JNum 0) (JNum 0).
Proof.
  intros Hrun.
  destruct (execute_success_inv _ _ _ _ _ Hrun)
    as (_ & url & req & response & result & content & chosenBlock
        & _ & Hfetch & _ & Hjson & _ & _ & Htokens & _ & _ & ->).
  unfold token_counts in Htokens.
  destruct (JS.get result "tokens") as [e | tokens] eqn:Hget; [done |].
  injection Htokens as <-.
  exists url, req, response, result, tokens.
  split; [unfold sent; simpl; by rewrite last_snoc |]. do 3 (split; [done |]).
  unfold js_or. destruct (truthy tokens) eqn:Htruthy; [| done].
  assert (∀ name, ∃ reported,
            JS.get tokens name = inr reported
            ∧ count_or_zero tokens name = (if truthy reported then reported else JNum 0))
    as Hcount.
  { intros name. unfold count_or_zero, js_or.
    destruct tokens; try done; simpl; by eexists. }
  intros name count Hin. simpl.
  repeat (apply elem_of_cons in Hin as [[= -> ->] | Hin]; [apply Hcount |]).
  by apply elem_of_nil in Hin.
Qed.

End Handler.

Lemma missing_prompt_is_fatal_witness :
  (execute (env_answering "b") router_A ∅ (world_of graph_AB)).1
    = inl (Error "Router prompt is required")
  ∧ w_fetches (execute (env_answering "b") router_A ∅ (world_of graph_AB)).2 = [].
Proof.
  apply (missing_prompt_is_fatal (env_answering "b") router_A ∅ (world_of graph_AB));
    reflexivity.
Defined.

Lemma valid_router_lists_every_target_witness :
  ∃ (conns : list Connection) targetBlocks,
    outgoingConnections router_A (w_context (world_of graph_AB)) = Some conns
    ∧ getTargetBlocks router_A (w_context (world_of graph_AB)) (world_of graph_AB)
      = (inr targetBlocks, world_of graph_AB)
    ∧ (tb_id <$> targetBlocks) = (target <$> conns)
    ∧ targetBlocks ≠ []
    ∧ Forall (λ conn, viable (w_context (world_of graph_AB)) (target conn) = true) conns.
Proof.
  apply (valid_router_lists_every_target router_A (w_context (world_of graph_AB))
           (world_of graph_AB)).
  reflexivity.
Defined.

Lemma selected_path_is_a_viable_target_witness :
  (∃ (conns : list Connection) conn,
     outgoingConnections router_A (w_context (world_of graph_Ab)) = Some conns
     ∧ conn ∈ conns
     ∧ blockId (selectedPath output_b) = target conn
     ∧ viable (w_context (world_of graph_Ab)) (target conn) = true)
  ∧ out_content output_b = prop inputs_prompt "prompt"
  ∧ truthy (prop inputs_prompt "prompt") = true
  ∧ w_context (asked_once graph_Ab) = w_context (world_of graph_Ab)
  ∧ w_log (asked_once graph_Ab) = w_log (world_of graph_Ab)
  ∧ ∃ url req,
      w_fetches (asked_once graph_Ab) = w_fetches (world_of graph_Ab) ++ [(url, req)].
Proof.
  apply (selected_path_is_a_viable_target (env_answering " B ") router_A inputs_prompt
           (world_of graph_Ab) output_b (asked_once graph_Ab)).
  reflexivity.
Defined.


(** The two messages of a refused call. *)
Example provider_failure_messages :
  (execute (env_refusing (inr rate_limited)) router_A inputs_prompt (world_of graph_AB)).1
    = inl (Error "Rate limit exceeded")
  ∧ (execute (env_refusing (inl (SyntaxError "Unexpected token <"))) router_A inputs_prompt
       (world_of graph_AB)).1
    = inl (Error "Provider API request failed with status 429").
Proof. split; reflexivity. Qed.

Lemma failure_is_logged_last_witness :
  ∃ entries,
    w_log (execute (env_answering "c") router_A inputs_prompt (world_of graph_AB)).2
    = w_log (world_of graph_AB) ++ entries
      ++ [mkLog LError "Router execution failed:"
            (Some (Error "Invalid routing decision: c"))]
    ∧ length entries ≤ 1
    ∧ Forall (λ entry, level entry = LError) entries.
Proof.
  apply (failure_is_logged_last (env_answering "c") router_A inputs_prompt
           (world_of graph_AB) (Error "Invalid routing decision: c")).
  reflexivity.
Defined.

Lemma token_counts_default_to_zero_witness :
  ∃ url req response result tokens,
    last (w_fetches (asked_once graph_Ab)) = Some (url, req)
    ∧ fetch (env_counting " B ") url req = inr response
    ∧ resp_json response = inr result
    ∧ JS.get result "tokens" = inr tokens
    ∧ if truthy tokens
      then
        ∀ name count,
          (name, count) ∈ [("prompt", tok_prompt (out_tokens output_counted));
                           ("completion", tok_completion (out_tokens output_counted));
                           ("total", tok_total (out_tokens output_counted))] →
          ∃ reported,
            JS.get tokens name = inr reported
            ∧ count = (if truthy reported then reported else JNum 0)
      else out_tokens output_counted = mkTokens (JNum 0) (JNum 0) (JNum 0).
Proof.
  apply (token_counts_default_to_zero (env_counting " B ") router_A inputs_prompt
           (world_of graph_Ab) output_counted (asked_once graph_Ab)).
  reflexivity.
Defined.

(** The provider reported 12 and 15 tokens and no count for the
    completion; without [tokens] in the answer every count is 0. *)
Example reported_counts_are_kept :
  (execute (env_counting " B ") router_A inputs_prompt (world_of graph_Ab)).1
  = inr output_counted
  ∧ (execute (env_answering " B ") router_A inputs_prompt (world_of graph_Ab)).1
    = inr output_b.
Proof. split; reflexivity. Qed.

Lemma default_model_is_gpt_4o_witness :
  (∃ calls,
     w_fetches (execute (env_counting "b") router_A inputs_prompt (world_of graph_Ab)).2
     = w_fetches (world_of graph_Ab) ++ calls
     ∧ length calls ≤ 1
     ∧ ∀ url req, (url, req) ∈ calls →
         req_model req = JStr "gpt-4o"
         ∧ getProviderFromModel (env_counting "b") (JStr "gpt-4o")
           = inr (req_provider req))
  ∧ (validateRouterConfiguration router_A (w_context (world_of graph_Ab)) = inr tt →
     truthy (prop inputs_prompt "prompt") = true →
     match getProviderFromModel (env_counting "b") (JStr "gpt-4o") with
     | inl e =>
         (execute (env_counting "b") router_A inputs_prompt (world_of graph_Ab)).1 = inl e
         ∧ w_fetches (execute (env_counting "b") router_A inputs_prompt
                        (world_of graph_Ab)).2
           = w_fetches (world_of graph_Ab)
     | inr providerId =>
         ∀ targetBlocks w1 url systemPrompt,
           getTargetBlocks router_A (w_context (world_of graph_Ab)) (world_of graph_Ab)
           = (inr targetBlocks, w1) →
           new_URL (env_counting "b") "/api/providers"
             (str_or (NEXT_PUBLIC_APP_URL (env_counting "b")) "") = inr url →
           generateRouterPrompt (env_counting "b") (prop inputs_prompt "prompt") targetBlocks
           = inr systemPrompt →
           ∃ req,
             w_fetches (execute (env_counting "b") router_A inputs_prompt
                          (world_of graph_Ab)).2
             = w_fetches (world_of graph_Ab) ++ [(url, req)]
             ∧ req_model req = JStr "gpt-4o"
             ∧ req_provider req = providerId
     end).
Proof.
  apply (default_model_is_gpt_4o (env_counting "b") router_A inputs_prompt
           (world_of graph_Ab)).
  reflexivity.
Defined.

(** The call is really made in that execution, for the default model and
    the provider registered for it; a model given in the inputs takes its
    place. *)
Example default_model_call_made :
  w_fetches (execute (env_counting "b") router_A inputs_prompt (world_of graph_Ab)).2
  = [ ("http://localhost:3000/api/providers",
       mkRequest "openai" (JStr "gpt-4o") "Choose the next block."
         [mkMessage "user" (JStr "Pick one")] (JNum 0) JUndefined "wf-1") ]
  ∧ w_fetches (execute (env_counting "b") router_A
                 (<["model" := JStr "claude-3"]> inputs_prompt) (world_of graph_Ab)).2
    = [ ("http://localhost:3000/api/providers",
         mkRequest "anthropic" (JStr "claude-3") "Choose the next block."
           [mkMessage "user" (JStr "Pick one")] (JNum 0) JUndefined "wf-1") ].
Proof. split; reflexivity. Qed.

End RouterFacts.

(** * Further properties of the serializer *)

Module SerializerFacts.
Import Serializer Blocks Examples SerializerViews SerializerProofs.

Section Facts.

Variable env : Environment.

(** *** Validation before serialization *)

Lemma validate_run entry w :
  ∃ w',
    validateBlockBeforeSerialization env entry w = (inr (passes_validation env entry), w')
    ∧ w_uuids w' = w_uuids w.
Proof.
  unfold validateBlockBeforeSerialization, passes_validation.
  destruct entry as [b |]; [| by eexists].
  destruct (falsy_str (bs_type b)); simpl; [by eexists |].
  destruct (get_block env (bs_type b)) as [blockConfig |]; simpl.
  - by eexists.
  - by eexists.
Qed.

Lemma valid_blocks_run values w :
  ∃ w', valid_blocks env values w = (inr (accepted_blocks env values), w')
        ∧ w_uuids w' = w_uuids w.
Proof.
  revert w. induction values as [| entry values IH]; intros w.
  - by eexists.
  - cbn [valid_blocks]. unfold mbind, M_bind.
    destruct (validate_run entry w) as (w1 & -> & Hw1).
    unfold accepted_blocks. cbn [omap list_omap]. fold (accepted_blocks env values).
    destruct (passes_validation env entry) eqn:Hpass; run.
    + destruct (IH w1) as (w2 & -> & Hw2). simpl.
      destruct entry as [b |]; [| done]. eexists. split; [done | congruence].
    + destruct (IH (mkWorld (w_log w1 ++ [mkLog LWarn ("Skipping invalid block during serialization: " +:+ show (bs_id <$> entry)) None]) (w_uuids w1)))
        as (w2 & -> & Hw2). simpl in *.
      destruct entry as [b |]; eexists; (split; [done | congruence]).
Qed.

Lemma accepted_blocks_spec values b :
  b ∈ accepted_blocks env values ↔ Some b ∈ values ∧ valid_block env b.
Proof.
  unfold accepted_blocks. rewrite list_elem_of_omap. split.
  - intros (entry & Hin & Hsome).
    destruct (passes_validation env entry) eqn:Hpass; [| done]. subst entry.
    split; [done |]. unfold passes_validation in Hpass.
    apply andb_true_iff in Hpass as [Htyped Hknown].
    apply negb_true_iff in Htyped. apply bool_decide_eq_true in Hknown. by split.
  - intros [Hin [Htyped Hknown]]. exists (Some b). split; [done |].
    unfold passes_validation. rewrite Htyped. simpl.
    by rewrite bool_decide_eq_true_2.
Qed.

(** X7. When [serializeWorkflow] returns, the blocks of the document are
    the entries of the graph that pass validation (typed, with a type of
    the registry), in their order, each under its own id, type and
    [enabled] flag; every other entry is left out. The edges become the
    connections one for one, the loops and the version [1.0] are written
    as they are, and no identifier is drawn. *)
Theorem document_holds_the_valid_blocks (graph : list (string * option BlockState))
  (edges : list Edge) (lps : gmap string Loop) w doc w' :
  serializeWorkflow env graph edges lps w = (inr doc, w') →
  (∃ sbs,
     blocks doc = Some <$> sbs
     ∧ Forall2 serialized_as (accepted_blocks env graph.*2) sbs)
  ∧ (∀ b, b ∈ accepted_blocks env graph.*2 ↔ Some b ∈ graph.*2 ∧ valid_block env b)
  ∧ connections doc = (serialize_edge <$> edges)
  ∧ loops doc = lps
  ∧ version doc = "1.0"
  ∧ w_uuids w' = w_uuids w.
Proof.
  unfold serializeWorkflow. unfold mbind, M_bind.
  destruct (valid_blocks_run graph.*2 w) as (w1 & -> & Hw1). simpl.
  destruct (map_m (serializeBlock env) (accepted_blocks env graph.*2) w1)
    as [[e | sbs] w2] eqn:Hmap; run; [done |].
  intros [= <- <-]. simpl.
  split; [| split; [apply accepted_blocks_spec | repeat split]].
  - exists sbs. split; [done |].
    eapply map_m_Forall2; [| exact Hmap]. apply serializeBlock_shape.
  - rewrite <- Hw1. clear Hw1. revert w1 sbs Hmap.
    induction (accepted_blocks env graph.*2) as [| b bs IH]; intros w1 sbs; simpl; run.
    + by intros [= <- <-].
    + destruct (serializeBlock env b w1) as [[e | sb] w3] eqn:Hb; simpl; [done |].
      destruct (map_m (serializeBlock env) bs w3) as [[e | sbs'] w4] eqn:Hbs; simpl; [done |].
      intros [= <- <-]. rewrite (IH _ _ Hbs).
      revert Hb. unfold serializeBlock. run.
      destruct (get_block env (bs_type b)) as [blockConfig |]; simpl; [| done].
      unfold extractParams. run.
      destruct (get_block env (bs_type b)); simpl; [| done].
      destruct (apply_defaults _ _) as [e | params]; simpl; [done |].
      unfold resolve_toolId.
      destruct (bool_decide _ && truthy _); run.
      * destruct (agent_toolId env blockConfig params); simpl;
          (destruct (block_outputs env b params); simpl; [done | by intros [= <- <-]]).
      * destruct (resolve_tool blockConfig params); simpl; [done |].
        destruct (block_outputs env b params); simpl; [done | by intros [= <- <-]].
Qed.

(** *** Effective parameters *)

Lemma apply_default_keys params c params' id :
  apply_default params c = inr params' →
  is_Some (params' !! id) ↔ is_Some (params !! id).
Proof.
  unfold apply_default. intros Hstep.
  destruct (sbc_value c) as [value |]; [| by simplify_eq].
  destruct (is_null (prop params (sbc_id c))) eqn:Hnull; [| by simplify_eq].
  destruct (value params) as [e | v]; [done |]. simplify_eq.
  destruct (decide (sbc_id c = id)) as [<- | Hne].
  - rewrite lookup_insert_eq. unfold prop in Hnull.
    destruct (params !! sbc_id c); [| done]. split; eauto.
  - by rewrite lookup_insert_ne.
Qed.

Lemma apply_defaults_keys subBlocks params params' id :
  apply_defaults subBlocks params = inr params' →
  is_Some (params' !! id) ↔ is_Some (params !! id).
Proof.
  revert params. induction subBlocks as [| c cs IH]; intros params; simpl.
  - by intros [= ->].
  - destruct (apply_default params c) as [e | params1] eqn:Hstep; [done |].
    intros Hrest. rewrite (IH params1 Hrest). eapply apply_default_keys; eauto.
Qed.


(** X8. For a block without a sub-block named [__proto__], the effective
    parameters have exactly the keys of the block's sub-blocks: a default
    never adds a parameter, and nothing is dropped. A parameter differs
    from the sub-block's value only where that value is [null] and the
    block definition declares the field. *)
Theorem params_follow_the_sub_blocks block w params :
  bs_subBlocks block !! "__proto__" = None →
  (extractParams env block w).1 = inr params →
  (∀ id, is_Some (params !! id) ↔ is_Some (bs_subBlocks block !! id))
  ∧ (∀ id, is_null (prop (collect_values block) id) = false →
       params !! id = (sub_value <$> bs_subBlocks block !! id))
  ∧ ∀ blockConfig id,
      get_block env (bs_type block) = Some blockConfig →
      id ∉ sbc_id <$> bc_subBlocks blockConfig →
      params !! id = (sub_value <$> bs_subBlocks block !! id).
Proof.
  intros _ Hparams.
  apply extractParams_result in Hparams as (blockConfig & Hconfig & Hpass).
  split; [| split].
  - intros id. rewrite (apply_defaults_keys _ _ _ id Hpass).
    unfold collect_values. rewrite lookup_fmap. apply fmap_is_Some.
  - intros id Hnn. rewrite (apply_defaults_keeps _ _ _ id Hpass Hnn).
    unfold collect_values. by rewrite lookup_fmap.
  - intros blockConfig' id Hconfig' Hid. simplify_eq.
    rewrite (apply_defaults_undeclared _ _ _ id Hpass Hid).
    unfold collect_values. by rewrite lookup_fmap.
Qed.

(** *** Custom tools *)



(** *** Restoring one block *)


(** What [deserializeBlock] gives when it returns; it logs only when it
    throws. *)
Lemma deserializeBlock_run sb w b w' :
  deserializeBlock env sb w = (inr b, w') →
  w' = w
  ∧ ∃ type blockConfig subBlocks,
      metadata_id sb = Some type ∧ type ≠ ""
      ∧ getBlock env type = Some blockConfig
      ∧ restore_subBlocks sb (bc_subBlocks blockConfig) ∅ = inr subBlocks
      ∧ b = mkBlockState (sb_id sb) (Some type)
              (str_or (metadata_name sb) (bc_name blockConfig)) (sb_position sb)
              subBlocks (sb_outputs sb) (default true (sb_enabled sb)) true false (JNum 0).
Proof.
  unfold deserializeBlock. run.
  destruct (metadata_id sb) as [[| a type] |]; simpl; try done.
  destruct (getBlock env (String a type)) as [blockConfig |] eqn:Hconfig; simpl; [| done].
  destruct (restore_subBlocks sb (bc_subBlocks blockConfig) ∅) as [e | subBlocks] eqn:Hsub;
    simpl; [done |].
  intros [= <- <-]. split; [done |]. by eexists _, _, _.
Qed.

Lemma deserializeBlock_anywhere sb w b w' :
  deserializeBlock env sb w = (inr b, w') → ∀ w0, deserializeBlock env sb w0 = (inr b, w0).
Proof.
  intros Hrun w0.
  apply deserializeBlock_run in Hrun
    as (_ & type & blockConfig & subBlocks & Hmeta & Htype & Hconfig & Hsub & ->).
  unfold deserializeBlock. run. rewrite Hmeta.
  destruct type as [| a type]; [done |]. simpl. rewrite Hconfig. simpl.
  by rewrite Hsub.
Qed.



(** *** Restoring a document *)

Lemma validateSerializedBlock_uuids entry w :
  ∃ valid w', validateSerializedBlock env entry w = (inr valid, w')
              ∧ w_uuids w' = w_uuids w.
Proof.
  unfold validateSerializedBlock.
  destruct entry as [sb |]; [| by eexists _, _].
  destruct (metadata_id sb) as [[| a type] |]; try by eexists _, _.
  destruct (getBlock env (String a type)); by eexists _, _.
Qed.

(** An entry either leaves [blocks] as it is, or assigns the block that
    [deserializeBlock] gives for it. It never throws and draws no
    identifier. *)
Lemma deserialize_entry_run acc entry w :
  ∃ acc' w',
    deserialize_entry env acc entry w = (inr acc', w')
    ∧ w_uuids w' = w_uuids w
    ∧ (acc' = acc
       ∨ ∃ sb b, entry = Some sb
                 ∧ (∀ w0, deserializeBlock env sb w0 = (inr b, w0))
                 ∧ acc' = set_property (sb_id sb) b acc).
Proof.
  unfold deserialize_entry. run.
  destruct (validateSerializedBlock_uuids entry w) as (valid & w1 & -> & Hw1). simpl.
  destruct entry as [sb |]; simpl;
    [| eexists _, _; (split; [done | split; [simpl; congruence | by left]])].
  destruct valid; simpl;
    [| eexists _, _; (split; [done | split; [simpl; congruence | by left]])].
  destruct (deserializeBlock env sb w1) as [[e | b] w2] eqn:Hblock; simpl.
  - eexists _, _. split; [done |]. split; [| by left].
    revert Hblock. unfold deserializeBlock. run.
    destruct (metadata_id sb) as [[| a type] |]; simpl; try (intros [= <- <-]; simpl; congruence).
    destruct (getBlock env (String a type)); simpl; try (intros [= <- <-]; simpl; congruence).
    destruct (restore_subBlocks _ _ _); simpl; [| done]. intros [= <- <-]. simpl. congruence.
  - pose proof (deserializeBlock_anywhere _ _ _ _ Hblock) as Hany.
    apply deserializeBlock_run in Hblock as (-> & type & blockConfig & subBlocks & _ & _ & _ & _ & ->).
    simpl. eexists _, _. split; [done |]. split; [done |]. right. by eexists _, _.
Qed.

Lemma restored_from_more seen entry acc :
  restored_from env seen acc → restored_from env (seen ++ [entry]) acc.
Proof.
  intros [Hown Hproto]. split.
  - intros k b Hk. destruct (Hown k b Hk) as (Hne & sb & Hin & Hrest).
    split; [done |]. exists sb. split; [| done]. apply elem_of_app. by left.
  - intros b Hb. destruct (Hproto b Hb) as (sb & Hin & Hrest).
    exists sb. split; [| done]. apply elem_of_app. by left.
Qed.

Lemma deserialize_blocks_run entries seen acc w :
  restored_from env seen acc →
  ∃ acc' w',
    deserialize_blocks env entries acc w = (inr acc', w')
    ∧ w_uuids w' = w_uuids w
    ∧ restored_from env (seen ++ entries) acc'.
Proof.
  revert seen acc w. induction entries as [| entry entries IH]; intros seen acc w Hinv.
  - rewrite app_nil_r. eexists _, _. split; [done |]. split; [done | exact Hinv].
  - cbn [deserialize_blocks]. unfold mbind, M_bind.
    destruct (deserialize_entry_run acc entry w) as (acc1 & w1 & -> & Hw1 & Hstep). simpl.
    assert (restored_from env (seen ++ [entry]) acc1) as Hinv1.
    { destruct Hstep as [-> | (sb & b & -> & Hblock & ->)];
        [by apply restored_from_more |].
      apply (restored_from_more _ (Some sb)) in Hinv. destruct Hinv as [Hown Hproto].
      assert (Some sb ∈ seen ++ [Some sb]) as Hlast
        by (apply elem_of_app; right; by apply list_elem_of_singleton).
      unfold set_property.
      destruct (String.eqb (sb_id sb) "__proto__") eqn:Hname; split; simpl.
      - done.
      - intros b' [= <-]. apply String.eqb_eq in Hname. by exists sb.
      - intros k b' Hk. apply String.eqb_neq in Hname.
        destruct (decide (sb_id sb = k)) as [<- | Hne].
        + rewrite lookup_insert_eq in Hk. injection Hk as <-. split; [done |]. by exists sb.
        + rewrite lookup_insert_ne in Hk by done. by apply Hown.
      - done. }
    destruct (IH (seen ++ [entry]) acc1 w1 Hinv1) as (acc' & w' & -> & Hw' & Hinv').
    eexists _, _. split; [done |]. split; [congruence |].
    by rewrite <- app_assoc in Hinv'.
Qed.

(** What the entries after a position do to a property: an entry with
    another id leaves it alone, and no entry removes it. *)
Lemma deserialize_blocks_keeps entries acc w acc' w' k :
  deserialize_blocks env entries acc w = (inr acc', w') →
  (is_Some (own acc !! k) → is_Some (own acc' !! k))
  ∧ (Forall (λ entry, ∀ sb, entry = Some sb → sb_id sb ≠ k) entries →
     own acc' !! k = own acc !! k).
Proof.
  revert acc w. induction entries as [| entry entries IH]; intros acc w.
  - simpl. run. by intros [= <- <-].
  - cbn [deserialize_blocks]. unfold mbind, M_bind.
    destruct (deserialize_entry_run acc entry w) as (acc1 & w1 & -> & _ & Hstep). simpl.
    intros Hrest. destruct (IH _ _ Hrest) as [Hsome Hsame]. split.
    + intros Hk. apply Hsome.
      destruct Hstep as [-> | (sb & b & -> & _ & ->)]; [done |].
      unfold set_property. destruct (String.eqb (sb_id sb) "__proto__"); simpl; [done |].
      destruct (decide (sb_id sb = k)) as [<- | Hne];
        [rewrite lookup_insert_eq; eauto | by rewrite lookup_insert_ne].
    + intros Hothers. apply Forall_cons in Hothers as [Hentry Hothers].
      rewrite (Hsame Hothers).
      destruct Hstep as [-> | (sb & b & -> & _ & ->)]; [done |].
      unfold set_property. destruct (String.eqb (sb_id sb) "__proto__"); simpl; [done |].
      rewrite lookup_insert_ne; [done |]. by apply Hentry.
Qed.

(** A well-formed entry is accepted, whatever [blocks] holds. *)
Lemma well_formed_entry sb acc w :
  well_formed env sb = true →
  ∃ b, deserialize_entry env acc (Some sb) w = (inr (set_property (sb_id sb) b acc), w)
       ∧ ∀ w0, deserializeBlock env sb w0 = (inr b, w0).
Proof.
  unfold well_formed. intros [Htyped [params Hparams]%bool_decide_eq_true]%andb_true_iff.
  destruct (metadata_id sb) as [type |] eqn:Hmeta; [| done].
  apply andb_true_iff in Htyped as [Htype [blockConfig Hconfig]%bool_decide_eq_true].
  apply negb_true_iff, String.eqb_neq in Htype.
  assert (∃ tool, sb_config sb = Some (mkConfig tool (Some params))) as [tool Hcfg].
  { unfold config_params in Hparams. destruct (sb_config sb) as [[tool ps] |]; [| done].
    simpl in Hparams. subst ps. by exists tool. }
  destruct (restore_subBlocks_ok sb tool params (bc_subBlocks blockConfig) ∅ Hcfg)
    as [subBlocks Hsub].
  assert (∀ w0, deserializeBlock env sb w0
                = (inr (mkBlockState (sb_id sb) (Some type)
                          (str_or (metadata_name sb) (bc_name blockConfig)) (sb_position sb)
                          subBlocks (sb_outputs sb) (default true (sb_enabled sb))
                          true false (JNum 0)), w0)) as Hblock.
  { intros w0. unfold deserializeBlock. run. rewrite Hmeta.
    destruct type as [| a type]; [done |]. simpl. rewrite Hconfig. simpl. by rewrite Hsub. }
  eexists. split; [| exact Hblock].
  unfold deserialize_entry, validateSerializedBlock. unfold mbind, M_bind, try_catch.
  rewrite Hmeta. destruct type as [| a type]; [done |]. rewrite Hconfig. simpl.
  by rewrite Hblock.
Qed.

Lemma deserialize_blocks_split pre sb post acc w acc' w' :
  well_formed env sb = true →
  deserialize_blocks env (pre ++ Some sb :: post) acc w = (inr acc', w') →
  ∃ acc1 w1 b,
    deserialize_blocks env post (set_property (sb_id sb) b acc1) w1 = (inr acc', w')
    ∧ ∀ w0, deserializeBlock env sb w0 = (inr b, w0).
Proof.
  intros Hwell. revert acc w. induction pre as [| entry pre IH]; intros acc w.
  - rewrite app_nil_l. cbn [deserialize_blocks]. unfold mbind, M_bind.
    destruct (well_formed_entry sb acc w Hwell) as (b & -> & Hblock). simpl.
    intros Hrest. by exists acc, w, b.
  - rewrite <- app_comm_cons. cbn [deserialize_blocks]. unfold mbind, M_bind.
    destruct (deserialize_entry_run acc entry w) as (acc1 & w1 & -> & _). simpl.
    apply IH.
Qed.

Lemma deserialize_connection_run acc c w :
  deserialize_connection env acc c w
  = if passes_lookup acc c
    then (inr (Some (mkEdge (randomUUID env (w_uuids w)) (source c) (target c)
                       (sourceHandle c) (targetHandle c))),
          mkWorld (w_log w) (S (w_uuids w)))
    else (inr None,
          mkWorld (w_log w ++ [mkLog LWarn "Skipping connection with missing blocks:" None])
            (w_uuids w)).
Proof.
  unfold deserialize_connection, passes_lookup.
  by destruct (has_truthy acc (source c) && has_truthy acc (target c)).
Qed.

Lemma deserialize_connections_run acc (conns : list Connection) w :
  ∃ pushed w',
    map_m (deserialize_connection env acc) conns w = (inr pushed, w')
    ∧ (connection_of <$> omap id pushed) = List.filter (passes_lookup acc) conns
    ∧ (edge_id <$> omap id pushed)
      = (randomUUID env <$> seq (w_uuids w) (length (omap id pushed)))
    ∧ w_uuids w' = w_uuids w + length (omap id pushed).
Proof.
  revert w. induction conns as [| c conns IH]; intros w.
  - eexists _, _. split; [done |]. simpl. repeat split. lia.
  - cbn [map_m List.filter]. unfold mbind, M_bind. rewrite deserialize_connection_run.
    destruct (passes_lookup acc c) eqn:Hpass; cbn [fst snd].
    + destruct (IH (mkWorld (w_log w) (S (w_uuids w))))
        as (pushed & w' & -> & Hconns & Hids & Hw').
      simpl in *. eexists _, _. split; [done |]. simpl.
      split; [f_equal; [by destruct c | exact Hconns] |].
      split; [f_equal; exact Hids | rewrite Hw', Nat.add_succ_r; reflexivity].
    + destruct (IH (mkWorld
                      (w_log w ++ [mkLog LWarn "Skipping connection with missing blocks:" None])
                      (w_uuids w))) as (pushed & w' & -> & Hconns & Hids & Hw').
      simpl in *. eexists _, _. split; [done |]. simpl. by repeat split.
Qed.

(** [deserializeWorkflow] returns for every document of the type
    [SerializedWorkflow], also when entries of [blocks] are [null],
    untyped, of an unknown type or without [config]. *)
Lemma deserializeWorkflow_returns doc w :
  ∃ restored kept w',
    deserializeWorkflow env doc w = (inr (restored, kept), w')
    ∧ restored_from env (blocks doc) restored.
Proof.
  unfold deserializeWorkflow. unfold mbind, M_bind.
  assert (restored_from env [] empty_object) as Hempty by (split; intros; done).
  destruct (deserialize_blocks_run (blocks doc) [] empty_object w Hempty)
    as (restored & w1 & -> & _ & Hfrom). simpl in Hfrom.
  destruct (deserialize_connections_run restored (connections doc) w1)
    as (pushed & w2 & -> & _). run.
  by eexists _, _, _.
Qed.

(** X12. When [deserializeWorkflow] returns, each own property of the
    restored [blocks] is the block that [deserializeBlock] gives for an
    entry of the document, stored under the id of that entry; that id is
    never [__proto__], for which the assignment replaces the prototype of
    [blocks] instead. *)
Theorem restored_blocks_come_from_entries doc w restored kept w' :
  deserializeWorkflow env doc w = (inr (restored, kept), w') →
  (∀ k b, own restored !! k = Some b →
     k ≠ "__proto__" ∧ bs_id b = k
     ∧ ∃ sb, Some sb ∈ blocks doc ∧ sb_id sb = k
             ∧ ∀ w0, deserializeBlock env sb w0 = (inr b, w0))
  ∧ ∀ b, proto restored = Some b →
      ∃ sb, Some sb ∈ blocks doc ∧ sb_id sb = "__proto__"
            ∧ ∀ w0, deserializeBlock env sb w0 = (inr b, w0).
Proof.
  intros Hrun.
  destruct (deserializeWorkflow_returns doc w)
    as (restored0 & kept0 & w0' & Hrun0 & [Hown Hproto]).
  rewrite Hrun in Hrun0. injection Hrun0 as <- <- <-.
  split; [| done].
  intros k b Hk. destruct (Hown k b Hk) as (Hne & sb & Hin & Hid & Hblock).
  split; [done |]. split; [| by exists sb].
  destruct (deserializeBlock_run _ _ _ _ (Hblock w))
    as (_ & type & blockConfig & subBlocks & _ & _ & _ & _ & ->). done.
Qed.

(** X13. A well-formed entry of a document (typed with a type of the
    registry, with [config.params]) is restored whatever the other
    entries are: [blocks] has a property under its id, and that property
    is its own block unless a later entry has the same id. *)
Theorem well_formed_entry_is_restored doc pre sb post w restored kept w' :
  blocks doc = pre ++ Some sb :: post →
  well_formed env sb = true →
  sb_id sb ≠ "__proto__" →
  deserializeWorkflow env doc w = (inr (restored, kept), w') →
  is_Some (own restored !! sb_id sb)
  ∧ (Forall (λ entry, ∀ sb', entry = Some sb' → sb_id sb' ≠ sb_id sb) post →
     ∃ b, own restored !! sb_id sb = Some b
          ∧ ∀ w0, deserializeBlock env sb w0 = (inr b, w0)).
Proof.
  intros Hdoc Hwell Hname. unfold deserializeWorkflow. unfold mbind, M_bind.
  rewrite Hdoc.
  destruct (deserialize_blocks env (pre ++ Some sb :: post) empty_object w)
    as [[e | acc] w1] eqn:Hblocks; simpl; [done |].
  destruct (deserialize_connections_run acc (connections doc) w1)
    as (pushed & w2 & -> & _). run. intros [= <- <- <-].
  destruct (deserialize_blocks_split _ _ _ _ _ _ _ Hwell Hblocks)
    as (acc1 & w3 & b & Hpost & Hblock).
  destruct (deserialize_blocks_keeps _ _ _ _ _ (sb_id sb) Hpost) as [Hsome Hsame].
  rewrite (set_property_own _ _ _ Hname) in Hsome, Hsame. simpl in Hsome, Hsame.
  rewrite lookup_insert_eq in Hsome, Hsame. split; [by apply Hsome |].
  intros Hothers. exists b. split; [by apply Hsame | done].
Qed.

(** X14. The edges that [deserializeWorkflow] gives are the connections
    of the document whose two lookups in [blocks] are truthy, in the
    order of the document, with their handles; their ids are the next
    results of [crypto.randomUUID], one per kept connection, and none is
    drawn for a skipped connection. *)
Theorem kept_edges_follow_the_document doc w restored kept w' :
  deserializeWorkflow env doc w = (inr (restored, kept), w') →
  (connection_of <$> kept) = List.filter (passes_lookup restored) (connections doc)
  ∧ (edge_id <$> kept) = (randomUUID env <$> seq (w_uuids w) (length kept))
  ∧ w_uuids w' = w_uuids w + length kept.
Proof.
  unfold deserializeWorkflow. unfold mbind, M_bind.
  assert (restored_from env [] empty_object) as Hempty by (split; intros; done).
  destruct (deserialize_blocks_run (blocks doc) [] empty_object w Hempty)
    as (acc & w1 & -> & Hw1 & _). simpl.
  destruct (deserialize_connections_run acc (connections doc) w1)
    as (pushed & w2 & -> & Hconns & Hids & Hw2). run.
  intros [= <- <- <-]. rewrite <- Hw1. done.
Qed.

(** *** When serialization fails *)

Lemma map_m_fails {S A B} (f : A → M S B) xs w e w' :
  map_m f xs w = (inl e, w') →
  ∃ pre x post ys w0,
    xs = pre ++ x :: post ∧ map_m f pre w = (inr ys, w0) ∧ f x w0 = (inl e, w').
Proof.
  revert w. induction xs as [| x xs IH]; intros w; simpl; run; [done |].
  destruct (f x w) as [[e1 | y] w1] eqn:Hx; simpl.
  - intros [= <- <-]. exists [], x, xs, [], w. by repeat split.
  - destruct (map_m f xs w1) as [[e2 | ys] w2] eqn:Hxs; simpl; [| done].
    intros [= <- <-]. destruct (IH _ Hxs) as (pre & x' & post & ys & w0 & -> & Hpre & Hfail).
    exists (x :: pre), x', post. eexists _, _. split; [done |]. simpl. run.
    rewrite Hx. simpl. rewrite Hpre. simpl. by split.
Qed.

Lemma serializeBlock_fails b w e w' :
  serializeBlock env b w = (inl e, w') →
  last (w_log w')
  = Some (mkLog LError ("Error serializing block " +:+ bs_id b +:+ ":") (Some e)).
Proof.
  unfold serializeBlock. unfold try_catch.
  match goal with |- context [match ?body w with _ => _ end] =>
    destruct (body w) as [[e1 | sb] w1] end; [| done].
  run. intros [= <- <-]. simpl. by rewrite last_snoc.
Qed.

(** X29. When [serializeWorkflow] throws, the error is that of the first
    accepted block, in the order of the graph, that [serializeBlock]
    fails on: the blocks before it were serialized, the blocks after it
    are not looked at, and the last log entry reports that block with the
    error. *)
Theorem first_failing_block_aborts (graph : list (string * option BlockState))
  (edges : list Edge) (lps : gmap string Loop) w e w' :
  serializeWorkflow env graph edges lps w = (inl e, w') →
  ∃ pre b post sbs w0 w1,
    accepted_blocks env graph.*2 = pre ++ b :: post
    ∧ map_m (serializeBlock env) pre w0 = (inr sbs, w1)
    ∧ Forall2 serialized_as pre sbs
    ∧ serializeBlock env b w1 = (inl e, w')
    ∧ last (w_log w')
      = Some (mkLog LError ("Error serializing block " +:+ bs_id b +:+ ":") (Some e)).
Proof.
  unfold serializeWorkflow. unfold mbind, M_bind.
  destruct (valid_blocks_run graph.*2 w) as (w0 & -> & _). simpl.
  destruct (map_m (serializeBlock env) (accepted_blocks env graph.*2) w0)
    as [[e1 | sbs] w2] eqn:Hmap; run; [| done].
  intros [= <- <-].
  destruct (map_m_fails _ _ _ _ _ Hmap) as (pre & b & post & sbs & w1 & Hsplit & Hpre & Hfail).
  exists pre, b, post, sbs, w0, w1. split; [done |]. split; [done |].
  split; [| split; [done | by eapply serializeBlock_fails]].
  eapply map_m_Forall2; [| exact Hpre]. apply serializeBlock_shape.
Qed.

End Facts.

Lemma document_holds_the_valid_blocks_witness :
  (∃ sbs,
     blocks (document_of mixed_run) = Some <$> sbs
     ∧ Forall2 serialized_as (accepted_blocks serializer_env mixed_graph.*2) sbs)
  ∧ (∀ b, b ∈ accepted_blocks serializer_env mixed_graph.*2
          ↔ Some b ∈ mixed_graph.*2 ∧ valid_block serializer_env b)
  ∧ connections (document_of mixed_run) = (serialize_edge <$> sample_edges)
  ∧ loops (document_of mixed_run) = ∅
  ∧ version (document_of mixed_run) = "1.0"
  ∧ w_uuids mixed_run.2 = w_uuids fresh.
Proof.
  apply (document_holds_the_valid_blocks serializer_env mixed_graph sample_edges ∅ fresh
           (document_of mixed_run) mixed_run.2).
  reflexivity.
Defined.

(** Of the five entries of the graph, the two valid ones are written. *)
Example invalid_entries_left_out :
  accepted_blocks serializer_env mixed_graph.*2 = [create_dynamics365; crm_plain]
  ∧ omap (fmap sb_id) (blocks (document_of mixed_run)) = ["d2"; "c1"]
  ∧ length (blocks (document_of mixed_run)) = 2
  ∧ length (w_log mixed_run.2) = 6.
Proof. repeat split; reflexivity. Qed.

Lemma params_follow_the_sub_blocks_witness :
  (∀ id, is_Some (params_of create_dynamics365 !! id)
         ↔ is_Some (bs_subBlocks create_dynamics365 !! id))
  ∧ (∀ id, is_null (prop (collect_values create_dynamics365) id) = false →
       params_of create_dynamics365 !! id
       = (sub_value <$> bs_subBlocks create_dynamics365 !! id))
  ∧ ∀ blockConfig id,
      get_block serializer_env (bs_type create_dynamics365) = Some blockConfig →
      id ∉ sbc_id <$> bc_subBlocks blockConfig →
      params_of create_dynamics365 !! id
      = (sub_value <$> bs_subBlocks create_dynamics365 !! id).
Proof.
  apply (params_follow_the_sub_blocks serializer_env create_dynamics365 fresh
           (params_of create_dynamics365)).
  - reflexivity.
  - reflexivity.
Defined.


(** The tool function of the agent definition throws for these
    parameters: it is not consulted. *)
Example custom_tools_skip_a_failing_tool_function :
  resolve_tool AgentBlock (params_of agent_custom_tools)
  = inl (Error "Invalid provider: undefined").
Proof. reflexivity. Qed.


(** The parameter [stale] of the entry has no sub-block; the declared
    field [filter], which has no parameter, has the value [null]. *)
Example stale_parameter_dropped :
  prop (default ∅ (config_params good_entry)) "stale" = JStr "left over"
  ∧ bs_subBlocks restored_good !! "stale" = None
  ∧ bs_subBlocks restored_good !! "filter" = Some (mkSubBlock "filter" "short-input" JNull).
Proof. repeat split; reflexivity. Qed.


(** The block had no name, vertical handles, was wide and 240 high, and
    had a field [legacy]: it comes back named after its definition, with
    the fixed layout and without that field. *)
Example round_trip_resets_the_layout :
  ∃ b', deserializeBlock serializer_env serialized_placed fresh = (inr b', fresh)
        ∧ bs_name b' = "Dynamics 365"
        ∧ (bs_horizontalHandles placed_dynamics365, bs_horizontalHandles b') = (false, true)
        ∧ (bs_isWide placed_dynamics365, bs_isWide b') = (true, false)
        ∧ (bs_height placed_dynamics365, bs_height b') = (JNum 240, JNum 0)
        ∧ is_Some (bs_subBlocks placed_dynamics365 !! "legacy")
        ∧ bs_subBlocks b' !! "legacy" = None.
Proof. eexists. split; [reflexivity |]. repeat split; try reflexivity. by eexists. Qed.

(** A typed block is needed: with the empty type registered, a block of
    that type is serialized, and the result is refused. *)
Example untyped_block_does_not_come_back :
  let env := mkEnv (λ _, Some CrmBlock) parse_sample (λ _, "id") in
  let b := editor_block "e1" "" true [] in
  ∃ sb, serializeBlock env b fresh = (inr sb, fresh)
        ∧ (deserializeBlock env sb fresh).1 = inl (Error "Invalid block type: ").
Proof. eexists. split; reflexivity. Qed.

Lemma restored_blocks_come_from_entries_witness :
  (∀ k b, own (blocks_of patchy_run) !! k = Some b →
     k ≠ "__proto__" ∧ bs_id b = k
     ∧ ∃ sb, Some sb ∈ blocks patchy_document ∧ sb_id sb = k
             ∧ ∀ w0, deserializeBlock serializer_env sb w0 = (inr b, w0))
  ∧ ∀ b, proto (blocks_of patchy_run) = Some b →
      ∃ sb, Some sb ∈ blocks patchy_document ∧ sb_id sb = "__proto__"
            ∧ ∀ w0, deserializeBlock serializer_env sb w0 = (inr b, w0).
Proof.
  apply (restored_blocks_come_from_entries serializer_env patchy_document fresh
           (blocks_of patchy_run) (edges_of patchy_run) patchy_run.2).
  reflexivity.
Defined.

Lemma well_formed_entry_is_restored_witness :
  is_Some (own (blocks_of patchy_run) !! sb_id good_entry)
  ∧ (Forall (λ entry, ∀ sb', entry = Some sb' → sb_id sb' ≠ sb_id good_entry) [] →
     ∃ b, own (blocks_of patchy_run) !! sb_id good_entry = Some b
          ∧ ∀ w0, deserializeBlock serializer_env good_entry w0 = (inr b, w0)).
Proof.
  apply (well_formed_entry_is_restored serializer_env patchy_document
           (take 3 (blocks patchy_document)) good_entry [] fresh
           (blocks_of patchy_run) (edges_of patchy_run) patchy_run.2);
    [reflexivity | reflexivity | done | reflexivity].
Defined.

Lemma kept_edges_follow_the_document_witness :
  (connection_of <$> edges_of patchy_run)
  = List.filter (passes_lookup (blocks_of patchy_run)) (connections patchy_document)
  ∧ (edge_id <$> edges_of patchy_run)
    = (randomUUID serializer_env <$> seq (w_uuids fresh) (length (edges_of patchy_run)))
  ∧ w_uuids patchy_run.2 = w_uuids fresh + length (edges_of patchy_run).
Proof.
  apply (kept_edges_follow_the_document serializer_env patchy_document fresh
           (blocks_of patchy_run) (edges_of patchy_run) patchy_run.2).
  reflexivity.
Defined.

(** Of the three connections, the one to the broken entry is skipped; the
    two others get the first two identifiers. *)
Example skipped_connection_draws_no_identifier :
  edges_of patchy_run
  = [mkEdge "uuid-0" "d9" "d9" (Some "out") None; mkEdge "uuid-1" "d9" "d9" None (Some "in")]
  ∧ w_uuids patchy_run.2 = 2.
Proof. split; reflexivity. Qed.

Lemma first_failing_block_aborts_witness :
  ∃ pre b post sbs w0 w1,
    accepted_blocks serializer_env aborting_graph.*2 = pre ++ b :: post
    ∧ map_m (serializeBlock serializer_env) pre w0 = (inr sbs, w1)
    ∧ Forall2 serialized_as pre sbs
    ∧ serializeBlock serializer_env b w1
      = (inl (Error "Invalid Dynamics 365 operation: null"),
         (serializeWorkflow serializer_env aborting_graph [] ∅ fresh).2)
    ∧ last (w_log (serializeWorkflow serializer_env aborting_graph [] ∅ fresh).2)
      = Some (mkLog LError ("Error serializing block " +:+ bs_id b +:+ ":")
                (Some (Error "Invalid Dynamics 365 operation: null"))).
Proof.
  apply (first_failing_block_aborts serializer_env aborting_graph [] ∅ fresh
           (Error "Invalid Dynamics 365 operation: null")
           (serializeWorkflow serializer_env aborting_graph [] ∅ fresh).2).
  reflexivity.
Defined.

(** The second of three valid blocks fails: the first was serialized, the
    third is not reported anywhere. *)
Example second_block_aborts :
  accepted_blocks serializer_env aborting_graph.*2
  = [create_dynamics365; new_dynamics365; crm_plain]
  ∧ (serializeWorkflow serializer_env aborting_graph [] ∅ fresh).1
    = inl (Error "Invalid Dynamics 365 operation: null")
  ∧ w_log (serializeWorkflow serializer_env aborting_graph [] ∅ fresh).2
    = [mkLog LError "Error serializing block d1:"
         (Some (Error "Invalid Dynamics 365 operation: null"))].
Proof. repeat split; reflexivity. Qed.

End SerializerFacts.

(** * Properties of the Dynamics 365 block definition *)

Module Dynamics365Facts.
Import Serializer Blocks Dynamics365.

Lemma tool_cases params t :
  dynamics365_tool params = inr t →
  (prop params "operation", t)
  ∈ [ (JStr "create", "dynamics365_create"); (JStr "retrieve", "dynamics365_retrieve");
      (JStr "update", "dynamics365_update"); (JStr "delete", "dynamics365_delete");
      (JStr "leads", "dynamics365_leads"); (JStr "sales", "dynamics365_sales") ].
Proof.
  unfold dynamics365_tool.
  destruct (negb (differs_from_str _ _) && negb (truthy _)); [done |].
  destruct (prop params "operation") as [| | | | s | |]; try done.
  repeat (destruct s as [| [b0 b1 b2 b3 b4 b5 b6 b7] s];
          [try discriminate; try (intros [= <-]; repeat first [by left | right])
          | destruct b0; try discriminate; destruct b1; try discriminate;
            destruct b2; try discriminate; destruct b3; try discriminate;
            destruct b4; try discriminate; destruct b5; try discriminate;
            destruct b6; try discriminate; destruct b7; try discriminate]).
Qed.

(** X15. When the tool function of [Dynamics365Block] returns, the
    operation is one of the six known ones and the tool is named after it.
    The tool is one of [tools.access] except for the operation [leads],
    whose tool [dynamics365_leads] is not listed there. For [sales] the
    sales operation is set. *)
Theorem tool_is_listed_except_for_leads params t :
  dynamics365_tool params = inr t →
  ∃ op,
    prop params "operation" = JStr op
    ∧ t = "dynamics365_" +:+ op
    ∧ op ∈ ["create"; "retrieve"; "update"; "delete"; "leads"; "sales"]
    ∧ (t ∈ access (bc_tools Dynamics365Block) ↔ op ≠ "leads")
    ∧ (op = "sales" → truthy (prop params "salesOperation") = true).
Proof.
  intros Htool. pose proof (tool_cases params t Htool) as Hcases.
  assert (∀ op, prop params "operation" = JStr op → op = "sales" →
                truthy (prop params "salesOperation") = true) as Hsales.
  { intros op Hop ->. revert Htool. unfold dynamics365_tool. rewrite Hop. simpl.
    by destruct (truthy (prop params "salesOperation")). }
  repeat (apply elem_of_cons in Hcases as [[= Hop ->] | Hcases];
          [eexists; split; [exact Hop |]; split; [reflexivity |];
           split; [repeat first [by left | right] |];
           split; [| by apply Hsales];
           (split; [intros Hin Heq; try discriminate Heq;
                    repeat (apply elem_of_cons in Hin as [Hin | Hin]; [discriminate Hin |]);
                    by apply elem_of_nil in Hin
                   | intros Hne; try (by destruct Hne); repeat first [by left | right]]) |]).
  by apply elem_of_nil in Hcases.
Qed.

(** *** The parameter function *)

Lemma rest_of_lookup params k :
  rest_of params !! k = if bool_decide (k ∈ destructured) then None else params !! k.
Proof.
  unfold rest_of, destructured.
  case_bool_decide as Hk.
  - repeat (apply elem_of_cons in Hk as [-> | Hk];
            [repeat first [by rewrite lookup_delete_eq | rewrite lookup_delete_ne by done] |]).
    by apply elem_of_nil in Hk.
  - repeat (apply not_elem_of_cons in Hk as [? Hk]).
    by rewrite !lookup_delete_ne.
Qed.

Lemma spread_if_lookup k v obj j :
  spread_if k v obj !! j
  = if bool_decide (j = k) && truthy v then Some v else obj !! j.
Proof.
  unfold spread_if. case_bool_decide as Hj; simpl.
  - subst j. destruct (truthy v); [by rewrite lookup_insert_eq | done].
  - destruct (truthy v); [by rewrite lookup_insert_ne | done].
Qed.

Lemma spread_if_truthy k v obj :
  (∀ j x, obj !! j = Some x → truthy x = true) →
  ∀ j x, spread_if k v obj !! j = Some x → truthy x = true.
Proof.
  intros Hobj j x. unfold spread_if. destruct (truthy v) eqn:Hv; [| apply Hobj].
  intros [[_ <-] | [_ Hx]]%lookup_insert_Some; [done | by apply (Hobj j)].
Qed.

(** X16. Whatever the operation, when the parameter function returns: the
    organization URL and the credential were truthy; the organization URL
    is passed on as it is; the names [credential], [leadOperation] and
    [salesOperation] are not passed on; and the credential is passed on as
    [accessToken], unless the input has a parameter of that name. *)
Theorem credential_becomes_the_access_token params out :
  dynamics365_params params = inr out →
  truthy (prop params "organizationUrl") = true
  ∧ truthy (prop params "credential") = true
  ∧ out !! "organizationUrl" = params !! "organizationUrl"
  ∧ out !! "credential" = None
  ∧ out !! "leadOperation" = None
  ∧ out !! "salesOperation" = None
  ∧ (params !! "accessToken" = None → out !! "accessToken" = params !! "credential").
Proof.
  unfold dynamics365_params.
  destruct (truthy (prop params "organizationUrl")) eqn:Hurl; simpl; [| done].
  destruct (truthy (prop params "credential")) eqn:Hcred; simpl; [| done].
  assert (params !! "organizationUrl" = Some (prop params "organizationUrl")) as Hu.
  { unfold prop in *. by destruct (params !! "organizationUrl"). }
  assert (params !! "credential" = Some (prop params "credential")) as Hc.
  { unfold prop in *. by destruct (params !! "credential"). }
  intros Hout. do 2 (split; [done |]). rewrite Hu, Hc. revert Hout.
  destruct (negb (differs_from_str (prop params "operation") "leads")).
  { destruct (negb (truthy (prop params "leadOperation"))); [done |]. intros [= <-].
    rewrite !lookup_union, !rest_of_lookup. simpl.
    repeat split; try done. by intros ->. }
  destruct (negb (differs_from_str (prop params "operation") "sales")).
  { destruct (negb (truthy (prop params "salesOperation"))); [done |].
    destruct (negb (includes _ _)); [done |]. intros [= <-].
    rewrite !spread_if_lookup. simpl. repeat split; done. }
  intros [= <-].
  rewrite !lookup_union, !map_lookup_filter, !lookup_delete_ne, !rest_of_lookup by done.
  simpl. repeat split; try done. by intros ->.
Qed.

Lemma truthy_present (params : gmap string jsval) k :
  truthy (prop params k) = true → params !! k = Some (prop params k).
Proof. unfold prop. by destruct (params !! k). Qed.

(** X17. For the operation [leads], when the parameter function returns:
    the lead operation (truthy) is passed on as [operation]; the entity
    type is [leads] only when the input has no parameter [entityType],
    otherwise the value of that parameter is passed on, [null] included;
    every other parameter is passed on as it is, [null] values included. *)
Theorem leads_parameters params out :
  prop params "operation" = JStr "leads" →
  dynamics365_params params = inr out →
  truthy (prop params "leadOperation") = true
  ∧ out !! "operation" = Some (prop params "leadOperation")
  ∧ out !! "entityType" = Some (default (JStr "leads") (params !! "entityType"))
  ∧ ∀ k, k ∉ destructured → k ≠ "accessToken" → k ≠ "entityType" →
      out !! k = params !! k.
Proof.
  intros Hop. unfold dynamics365_params. rewrite Hop. simpl.
  destruct (truthy (prop params "organizationUrl")); simpl; [| done].
  destruct (truthy (prop params "credential")); simpl; [| done].
  destruct (truthy (prop params "leadOperation")); simpl; [| done].
  intros [= <-]. split; [done |].
  rewrite !lookup_union, !rest_of_lookup. simpl. split; [done |]. split.
  - by destruct (params !! "entityType").
  - intros k Hk Htoken Hentity. rewrite lookup_union, rest_of_lookup.
    rewrite bool_decide_eq_false_2 by done.
    unfold destructured in Hk. repeat (apply not_elem_of_cons in Hk as [? Hk]).
    rewrite !lookup_insert_ne, lookup_singleton_ne by done.
    by destruct (params !! k).
Qed.

(** X18. For the operation [sales], when the parameter function returns:
    the sales operation is one of the three valid ones and is passed on as
    [operation]; the credential is the access token; beside these and the
    organization URL only [startDate], [endDate] and [salesPersonId] are
    passed on, each only when truthy; every value passed on is truthy.
    The tool function then returns [dynamics365_sales]. *)
Theorem sales_parameters params out :
  prop params "operation" = JStr "sales" →
  dynamics365_params params = inr out →
  (∃ op, prop params "salesOperation" = JStr op ∧ op ∈ validSalesOperations
         ∧ out !! "operation" = Some (JStr op))
  ∧ out !! "accessToken" = params !! "credential"
  ∧ (∀ k, is_Some (out !! k) →
       k ∈ ["accessToken"; "organizationUrl"; "operation"; "startDate"; "endDate";
            "salesPersonId"])
  ∧ (∀ k, k ∈ ["startDate"; "endDate"; "salesPersonId"] →
       out !! k = if truthy (prop params k) then params !! k else None)
  ∧ (∀ k v, out !! k = Some v → truthy v = true)
  ∧ dynamics365_tool params = inr "dynamics365_sales".
Proof.
  intros Hop. unfold dynamics365_params, dynamics365_tool. rewrite Hop. simpl.
  destruct (truthy (prop params "organizationUrl")) eqn:Hurl; simpl; [| done].
  destruct (truthy (prop params "credential")) eqn:Hcred; simpl; [| done].
  destruct (truthy (prop params "salesOperation")) eqn:Hsales; simpl; [| done].
  destruct (includes validSalesOperations (prop params "salesOperation")) eqn:Hvalid;
    simpl; [| done].
  intros [= <-].
  assert (∀ k, k ∈ ["startDate"; "endDate"; "salesPersonId"] →
               prop (rest_of params) k = prop params k) as Hrest.
  { intros k Hk. unfold prop. rewrite rest_of_lookup.
    repeat (apply elem_of_cons in Hk as [-> | Hk]; [done |]). by apply elem_of_nil in Hk. }
  rewrite !Hrest by (repeat first [by left | right]).
  split; [| split; [| split; [| split; [| split; [| done]]]]].
  - destruct (prop params "salesOperation") as [| | | | op | |]; try done.
    exists op. split; [done |]. split; [by apply bool_decide_eq_true in Hvalid |].
    by rewrite !spread_if_lookup.
  - rewrite !spread_if_lookup. simpl. by rewrite (truthy_present _ _ Hcred).
  - intros k. rewrite !spread_if_lookup.
    repeat (case_bool_decide as Hk;
            [subst k; intros _; repeat first [by left | right] | simpl; clear Hk]).
    intros [v Hv].
    repeat (apply lookup_insert_Some in Hv as [[<- _] | [_ Hv]];
            [repeat first [by left | right] |]).
    apply lookup_singleton_Some in Hv as [<- _]. repeat first [by left | right].
  - intros k Hk. rewrite !spread_if_lookup.
    destruct (truthy (prop params k)) eqn:Ht.
    + rewrite (truthy_present _ _ Ht).
      repeat (apply elem_of_cons in Hk as [-> | Hk]; [simpl; by rewrite Ht |]).
      by apply elem_of_nil in Hk.
    + repeat (apply elem_of_cons in Hk as [-> | Hk];
              [simpl; rewrite Ht; by rewrite !lookup_insert_ne, lookup_singleton_ne |]).
      by apply elem_of_nil in Hk.
  - intros k v. do 3 apply spread_if_truthy. clear k v. intros k v Hv.
    repeat (apply lookup_insert_Some in Hv as [[_ <-] | [_ Hv]]; [done |]).
    by apply lookup_singleton_Some in Hv as [_ <-].
Qed.

Lemma truthy_not_nullish v : truthy v = true → not_nullish v = true.
Proof. by destruct v. Qed.

(** X19. For any other operation, when the parameter function returns: the
    operation itself is not passed on, and neither is a parameter named
    [__proto__]; no value passed on is [null] or [undefined]; and every
    other parameter that is neither, and is not named [__proto__], is
    passed on as it is. *)
Theorem other_operations_drop_nullish params out :
  differs_from_str (prop params "operation") "leads" = true →
  differs_from_str (prop params "operation") "sales" = true →
  dynamics365_params params = inr out →
  out !! "operation" = None
  ∧ out !! "__proto__" = None
  ∧ (∀ k v, out !! k = Some v → not_nullish v = true)
  ∧ ∀ k v, params !! k = Some v → k ∉ destructured → k ≠ "__proto__" →
      not_nullish v = true → out !! k = Some v.
Proof.
  intros Hleads Hsales. unfold dynamics365_params. rewrite Hleads, Hsales. simpl.
  destruct (truthy (prop params "organizationUrl")) eqn:Hurl; simpl; [| done].
  destruct (truthy (prop params "credential")) eqn:Hcred; simpl; [| done].
  intros [= <-]. split; [| split; [| split]].
  - by rewrite lookup_union, map_lookup_filter, lookup_delete_ne, rest_of_lookup.
  - by rewrite lookup_union, map_lookup_filter, lookup_delete_eq.
  - intros k v Hv. apply lookup_union_Some_raw in Hv as [Hv | [_ Hv]].
    + by apply map_lookup_filter_Some in Hv as [_ Hv].
    + apply lookup_insert_Some in Hv as [[_ <-] | [_ Hv]];
        [by apply truthy_not_nullish |].
      apply lookup_singleton_Some in Hv as [_ <-]. by apply truthy_not_nullish.
  - intros k v Hk Hname Hproto Hv. apply lookup_union_Some_raw. left.
    apply map_lookup_filter_Some. split; [| done].
    rewrite lookup_delete_ne by done.
    by rewrite rest_of_lookup, bool_decide_eq_false_2.
Qed.


Lemma tool_is_listed_except_for_leads_witness :
  ∃ op,
    prop leads_params "operation" = JStr op
    ∧ "dynamics365_leads" = "dynamics365_" +:+ op
    ∧ op ∈ ["create"; "retrieve"; "update"; "delete"; "leads"; "sales"]
    ∧ ("dynamics365_leads" ∈ access (bc_tools Dynamics365Block) ↔ op ≠ "leads")
    ∧ (op = "sales" → truthy (prop leads_params "salesOperation") = true).
Proof.
  apply (tool_is_listed_except_for_leads leads_params "dynamics365_leads"). reflexivity.
Defined.

Lemma credential_becomes_the_access_token_witness :
  truthy (prop retrieve_params "organizationUrl") = true
  ∧ truthy (prop retrieve_params "credential") = true
  ∧ params_out retrieve_params !! "organizationUrl" = retrieve_params !! "organizationUrl"
  ∧ params_out retrieve_params !! "credential" = None
  ∧ params_out retrieve_params !! "leadOperation" = None
  ∧ params_out retrieve_params !! "salesOperation" = None
  ∧ (retrieve_params !! "accessToken" = None →
     params_out retrieve_params !! "accessToken" = retrieve_params !! "credential").
Proof.
  apply (credential_becomes_the_access_token retrieve_params (params_out retrieve_params)).
  reflexivity.
Defined.

(** A parameter [accessToken] of the input takes the place of the
    credential. *)
Example access_token_parameter_wins :
  params_out (<["accessToken" := JStr "other"]> retrieve_params) !! "accessToken"
  = Some (JStr "other").
Proof. reflexivity. Qed.

Lemma leads_parameters_witness :
  truthy (prop leads_params "leadOperation") = true
  ∧ params_out leads_params !! "operation" = Some (prop leads_params "leadOperation")
  ∧ params_out leads_params !! "entityType"
    = Some (default (JStr "leads") (leads_params !! "entityType"))
  ∧ ∀ k, k ∉ destructured → k ≠ "accessToken" → k ≠ "entityType" →
      params_out leads_params !! k = leads_params !! k.
Proof.
  apply (leads_parameters leads_params (params_out leads_params)); reflexivity.
Defined.

(** For a block of the editor, whose parameters have a key for every
    declared field, the entity type that is passed on for [leads] is
    [null]; it is [leads] once the key is gone. *)
Example leads_entity_type :
  params_out leads_params !! "entityType" = Some JNull
  ∧ params_out (delete "entityType" leads_params) !! "entityType" = Some (JStr "leads").
Proof. split; reflexivity. Qed.

Lemma sales_parameters_witness :
  (∃ op, prop sales_params "salesOperation" = JStr op ∧ op ∈ validSalesOperations
         ∧ params_out sales_params !! "operation" = Some (JStr op))
  ∧ params_out sales_params !! "accessToken" = sales_params !! "credential"
  ∧ (∀ k, is_Some (params_out sales_params !! k) →
       k ∈ ["accessToken"; "organizationUrl"; "operation"; "startDate"; "endDate";
            "salesPersonId"])
  ∧ (∀ k, k ∈ ["startDate"; "endDate"; "salesPersonId"] →
       params_out sales_params !! k
       = if truthy (prop sales_params k) then sales_params !! k else None)
  ∧ (∀ k v, params_out sales_params !! k = Some v → truthy v = true)
  ∧ dynamics365_tool sales_params = inr "dynamics365_sales".
Proof.
  apply (sales_parameters sales_params (params_out sales_params)); reflexivity.
Defined.

(** The empty end date and the entity type are not passed on. *)
Example sales_passes_four_parameters :
  size (params_out sales_params) = 4
  ∧ sales_params !! "endDate" = Some (JStr "")
  ∧ params_out sales_params !! "endDate" = None
  ∧ sales_params !! "entityType" = Some (JStr "accounts")
  ∧ params_out sales_params !! "entityType" = None.
Proof. repeat split; reflexivity. Qed.

Lemma other_operations_drop_nullish_witness :
  params_out retrieve_params !! "operation" = None
  ∧ params_out retrieve_params !! "__proto__" = None
  ∧ (∀ k v, params_out retrieve_params !! k = Some v → not_nullish v = true)
  ∧ ∀ k v, retrieve_params !! k = Some v → k ∉ destructured → k ≠ "__proto__" →
      not_nullish v = true → params_out retrieve_params !! k = Some v.
Proof.
  apply (other_operations_drop_nullish retrieve_params (params_out retrieve_params));
    reflexivity.
Defined.

(** A parameter named [__proto__] is spread into the result for the
    operation [leads], and dropped by the assignment for [retrieve]. *)
Example proto_parameter_is_not_assigned :
  params_out (<["__proto__" := JStr "x"]> leads_params) !! "__proto__" = Some (JStr "x")
  ∧ params_out (<["__proto__" := JStr "x"]> retrieve_params) !! "__proto__" = None
  ∧ params_out (<["__proto__" := JStr "x"]> retrieve_params) = params_out retrieve_params.
Proof. repeat split; reflexivity. Qed.

End Dynamics365Facts.

(** * Properties of the Dynamics 365 OAuth route *)

Module OAuthFacts.
Import OAuth OAuthViews.

Section Facts.

Variable env : Environment.

(** *** Tokens *)

(** The try around the update always completes; it writes one update. *)
Lemma store_refreshed_run credential r w :
  ∃ w',
    store_refreshed env credential r w
    = (inr (match db_update env (cred_id credential)
                    (refreshed_update env credential r (w_clock w)) with
            | inr _ => true
            | inl _ => false
            end), w')
    ∧ w_fetches w' = w_fetches w ∧ w_uuids w' = w_uuids w
    ∧ w_refreshes w' = w_refreshes w
    ∧ w_updates w'
      = w_updates w ++ [(cred_id credential, refreshed_update env credential r (w_clock w))]
    ∧ last_level w'
      = Some (match db_update env (cred_id credential)
                      (refreshed_update env credential r (w_clock w)) with
              | inr _ => LInfo
              | inl _ => LError
              end).
Proof.
  unfold store_refreshed, read_clock, do_update, refreshed_update, last_level. trun.
  destruct (db_update env _ _) as [e | []]; simpl; eexists;
    (split; [reflexivity |]); simpl; by rewrite last_snoc.
Qed.

Lemma getDynamics365Token_runs userId w :
  ∃ r w',
    getDynamics365Token env userId w = (inr r, w')
    ∧ w_fetches w' = w_fetches w ∧ w_uuids w' = w_uuids w
    ∧ token_run env userId w r w'.
Proof.
  unfold getDynamics365Token, read_clock, do_refresh. trun.
  destruct (db_select env userId) as [e | credentials] eqn:Hselect; simpl.
  { eexists _, _. do 3 (split; [reflexivity |]).
    eapply run_select_throws; eauto. unfold last_level. simpl. by rewrite last_snoc. }
  destruct credentials as [| credential others]; simpl.
  { eexists _, _. do 3 (split; [reflexivity |]).
    eapply run_no_credential; eauto. unfold last_level. simpl. by rewrite last_snoc. }
  destruct (absent (cred_accessToken credential)) eqn:Htoken; simpl.
  { eexists _, _. do 3 (split; [reflexivity |]).
    eapply run_no_credential; eauto. unfold last_level. simpl. by rewrite last_snoc. }
  destruct (isExpired credential (clock env (w_clock w))) eqn:Hexpired; simpl.
  2: { destruct (cred_accessToken credential) as [token |] eqn:Hstored; [| done].
       eexists _, _. do 3 (split; [reflexivity |]).
       eapply run_fresh; eauto.
       - intros ->. done.
       - unfold last_level. simpl. by rewrite last_snoc. }
  destruct (absent (cred_refreshToken credential)) eqn:Hrefresh; simpl.
  { eexists _, _. do 3 (split; [reflexivity |]).
    eapply run_no_refresh_token; eauto. unfold last_level. simpl. by rewrite last_snoc. }
  destruct (cred_refreshToken credential) as [refreshToken |] eqn:Hrt; [| done].
  assert (refreshToken ≠ "") as Hne by (intros ->; done). simpl.
  destruct (refreshOAuthToken env "dynamics365" refreshToken) as [e | [r |]] eqn:Hcall;
    simpl.
  - eexists _, _. do 3 (split; [reflexivity |]).
    eapply run_refresh_fails; eauto; try congruence.
    unfold last_level. simpl. by rewrite last_snoc.
  - match goal with |- context [store_refreshed env credential r ?w0] =>
      destruct (store_refreshed_run credential r w0)
        as (w1 & -> & Hf & Hu & Hr & Hupd & Hlast) end.
    simpl in *.
    pose proof (run_refreshed env userId w credential others refreshToken r w1) as Hrun.
    destruct (db_update env _ _) as [e | []] eqn:Hdb; simpl;
      eexists _, _; (do 3 (split; [done |])); apply Hrun; by rewrite ?Hrt.
  - eexists _, _. do 3 (split; [reflexivity |]).
    eapply run_refresh_fails; eauto; try congruence.
    unfold last_level. simpl. by rewrite last_snoc.
Qed.

(** X20. A token that [getDynamics365Token] returns is either the stored
    token of the first credential, which is then not within five minutes
    of its expiry (no refresh is asked for and nothing is written), or
    the access token of a refresh that was asked for with the stored
    refresh token, after the update of the credential went through. *)
Theorem returned_token_is_fresh_or_refreshed userId w token w' :
  getDynamics365Token env userId w = (inr (Some token), w') →
  ∃ credential others,
    db_select env userId = inr (credential :: others)
    ∧ ((cred_accessToken credential = Some token
        ∧ isExpired credential (clock env (w_clock w)) = false
        ∧ w_refreshes w' = w_refreshes w
        ∧ w_updates w' = w_updates w)
       ∨ (isExpired credential (clock env (w_clock w)) = true
          ∧ ∃ refreshToken r,
              cred_refreshToken credential = Some refreshToken
              ∧ refreshOAuthToken env "dynamics365" refreshToken = inr (Some r)
              ∧ token = rr_accessToken r
              ∧ db_update env (cred_id credential)
                  (refreshed_update env credential r (S (w_clock w))) = inr tt
              ∧ w_refreshes w' = w_refreshes w ++ [("dynamics365", refreshToken)]
              ∧ w_updates w'
                = w_updates w
                  ++ [(cred_id credential,
                       refreshed_update env credential r (S (w_clock w)))])).
Proof.
  intros Hrun. destruct (getDynamics365Token_runs userId w) as (r & w1 & Hrun' & _ & _ & Hcase).
  rewrite Hrun in Hrun'. injection Hrun' as <- <-.
  inversion Hcase as [| | credential others token' ? Hsel Htok Hne Hexp Hr Hu Hc Hl
                      | | | credential others refreshToken r ? Hsel Htok Hexp Hrt Hne Hcall
                            Hr Hu Hl Hres]; subst.
  - exists credential, others. split; [done |]. left. by repeat split.
  - exists credential, others. split; [done |]. right. split; [done |].
    exists refreshToken, r.
    destruct (db_update env _ _) as [e | []] eqn:Hdb; [done |].
    injection Hres as <-. by repeat split.
Qed.

(** X21. [getDynamics365Token] never throws, whatever the database and
    the refresh do. It returns [null] exactly when the last thing it
    logged is a warning or an error. It asks for at most one refresh and
    writes at most one update, the update only after a refresh; it makes
    no request of its own. *)
Theorem token_lookup_never_throws userId w :
  ∃ r w',
    getDynamics365Token env userId w = (inr r, w')
    ∧ (r = None ↔ is_problem (last_level w') = true)
    ∧ (w_updates w' = w_updates w
       ∨ ∃ u, w_updates w' = w_updates w ++ [u])
    ∧ (w_refreshes w' = w_refreshes w ∧ w_updates w' = w_updates w
       ∨ ∃ call, w_refreshes w' = w_refreshes w ++ [call])
    ∧ w_fetches w' = w_fetches w.
Proof.
  destruct (getDynamics365Token_runs userId w) as (r & w' & Hrun & Hf & _ & Hcase).
  exists r, w'. split; [done |].
  destruct Hcase as [e w' Hsel Hr Hu Hl | cs w' Hsel Htok Hr Hu Hl
                     | c others token w' Hsel Htok Hne Hexp Hr Hu Hc Hl
                     | c others w' Hsel Htok Hexp Hrt Hr Hu Hl
                     | c others rt w' Hsel Htok Hexp Hrt Hne Hcall Hr Hu Hl
                     | c others rt r w' Hsel Htok Hexp Hrt Hne Hcall Hr Hu Hl].
  1, 2, 4: by repeat split; eauto.
  - rewrite Hl. simpl. repeat split; eauto; done.
  - repeat split; eauto.
  - rewrite Hl. destruct (db_update env _ _) as [e | []]; simpl; repeat split; eauto; done.
Qed.

(** X22. The margin of five minutes. With a stored token: when the
    credential has no expiry date, or one more than five minutes after
    the clock reading, the stored token is returned and no refresh is
    asked for; when the expiry date is at most five minutes after the
    reading (the bound included), the stored token is not served: a
    refresh is asked for with the stored refresh token, or, without one,
    [null] is returned. *)
Theorem expiry_margin_is_five_minutes userId w credential others token :
  db_select env userId = inr (credential :: others) →
  cred_accessToken credential = Some token →
  token ≠ "" →
  ∃ r w',
    getDynamics365Token env userId w = (inr r, w')
    ∧ (match cred_expiresAt credential with
       | Some expiresAt => (clock env (w_clock w) + 300000 < expiresAt)%Z
       | None => True
       end →
       r = Some token ∧ w_refreshes w' = w_refreshes w ∧ w_updates w' = w_updates w)
    ∧ ∀ expiresAt,
        cred_expiresAt credential = Some expiresAt →
        (expiresAt ≤ clock env (w_clock w) + 300000)%Z →
        match cred_refreshToken credential with
        | None | Some "" => r = None ∧ w_refreshes w' = w_refreshes w
        | Some refreshToken =>
            w_refreshes w' = w_refreshes w ++ [("dynamics365", refreshToken)]
            ∧ (∀ stored, r = Some stored →
                 ∃ refreshed, refreshOAuthToken env "dynamics365" refreshToken
                              = inr (Some refreshed)
                              ∧ stored = rr_accessToken refreshed)
        end.
Proof.
  intros Hselect Hstored Htoken.
  destruct (getDynamics365Token_runs userId w) as (r & w' & Hrun & _ & _ & Hcase).
  exists r, w'. split; [done |].
  assert (∀ expiresAt, cred_expiresAt credential = Some expiresAt →
            isExpired credential (clock env (w_clock w))
            = bool_decide (expiresAt ≤ clock env (w_clock w) + 300000)%Z) as Hmargin.
  { intros expiresAt Hdate. unfold isExpired. by rewrite Hdate. }
  destruct Hcase as [e w' Hsel Hr Hu Hl | cs w' Hsel Htok Hr Hu Hl
                     | c others' token' w' Hsel Htok Hne Hexp Hr Hu Hc Hl
                     | c others' w' Hsel Htok Hexp Hrt Hr Hu Hl
                     | c others' rt w' Hsel Htok Hexp Hrt Hne Hcall Hr Hu Hl
                     | c others' rt r w' Hsel Htok Hexp Hrt Hne Hcall Hr Hu Hl];
    rewrite Hselect in Hsel; try discriminate Hsel.
  - injection Hsel as <-. simpl in Htok. rewrite Hstored in Htok. simpl in Htok.
    by apply String.eqb_eq in Htok.
  - injection Hsel as <- <-. rewrite Hstored in Htok. injection Htok as <-.
    split; [done |].
    intros expiresAt Hdate Hle. rewrite (Hmargin _ Hdate) in Hexp.
    by apply bool_decide_eq_false in Hexp.
  - injection Hsel as <- <-. split.
    + unfold isExpired in Hexp.
      destruct (cred_expiresAt credential) as [expiresAt |]; [| done].
      apply bool_decide_eq_true in Hexp. intros Hlt. lia.
    + intros expiresAt Hdate Hle.
      destruct (cred_refreshToken credential) as [[| a rt] |]; done.
  - injection Hsel as <- <-. split.
    + unfold isExpired in Hexp.
      destruct (cred_expiresAt credential) as [expiresAt |]; [| done].
      apply bool_decide_eq_true in Hexp. intros Hlt. lia.
    + intros expiresAt Hdate Hle. rewrite Hrt.
      destruct rt as [| a rt]; [done |]. split; [done |]. by intros stored.
  - injection Hsel as <- <-. split.
    + unfold isExpired in Hexp.
      destruct (cred_expiresAt credential) as [expiresAt |]; [| done].
      apply bool_decide_eq_true in Hexp. intros Hlt. lia.
    + intros expiresAt Hdate Hle. rewrite Hrt.
      destruct rt as [| a rt]; [done |]. split; [done |].
      intros stored Hres. exists r. split; [done |].
      destruct (db_update env _ _) as [e | []]; [done | by injection Hres].
Qed.

(** X23. When the refresh succeeds but the update of the credential
    throws, the refreshed token is not returned: the result is [null],
    although the refresh was asked for and the update was attempted. *)
Theorem failed_update_discards_the_refreshed_token userId w credential others
    refreshToken r e :
  db_select env userId = inr (credential :: others) →
  absent (cred_accessToken credential) = false →
  isExpired credential (clock env (w_clock w)) = true →
  cred_refreshToken credential = Some refreshToken →
  refreshToken ≠ "" →
  refreshOAuthToken env "dynamics365" refreshToken = inr (Some r) →
  db_update env (cred_id credential) (refreshed_update env credential r (S (w_clock w)))
  = inl e →
  ∃ w',
    getDynamics365Token env userId w = (inr None, w')
    ∧ w_refreshes w' = w_refreshes w ++ [("dynamics365", refreshToken)]
    ∧ w_updates w'
      = w_updates w
        ++ [(cred_id credential, refreshed_update env credential r (S (w_clock w)))]
    ∧ last (w_log w') = Some (mkLog LError "Failed to update token in database" None).
Proof.
  intros Hselect Htoken Hexpired Hrt Hne Hcall Hdb.
  unfold getDynamics365Token, read_clock, do_refresh, store_refreshed, do_update. trun.
  rewrite Hselect. simpl. rewrite Htoken. simpl. rewrite Hexpired. simpl.
  rewrite Hrt. simpl.
  assert ((refreshToken =? "")%string = false) as -> by (by apply String.eqb_neq).
  simpl. rewrite Hcall. simpl.
  unfold refreshed_update in Hdb. simpl in Hdb. rewrite Hrt in Hdb. rewrite Hdb. simpl.
  eexists. split; [reflexivity |]. unfold refreshed_update. simpl. rewrite ?Hrt.
  repeat split. by rewrite last_snoc.
Qed.

(** *** Errors *)

Lemma fallback_message_truthy response errorText :
  truthy (js_or (JStr errorText) (JStr (generic_message response))) = true.
Proof.
  unfold js_or. simpl. destruct (String.eqb errorText "") eqn:Hempty; simpl; [done |].
  by rewrite Hempty.
Qed.

(** X24. The error that [parseDynamics365Error] builds always has a
    truthy message argument and the status of the response as its status
    code. When the text is not JSON, the message is the text itself (the
    generic message when the text is empty) and there is no code; when
    the text is a JSON object whose [error.message] is truthy, that is
    the message and [error.code] the code. *)
Theorem parsed_error_has_a_message response errorText :
  truthy (err_message (parseDynamics365Error env response errorText)) = true
  ∧ err_statusCode (parseDynamics365Error env response errorText) = res_status response
  ∧ (∀ e, JSON_parse env errorText = inl e →
       err_message (parseDynamics365Error env response errorText)
       = JStr (if String.eqb errorText "" then generic_message response else errorText)
       ∧ err_code (parseDynamics365Error env response errorText) = JUndefined)
  ∧ ∀ fields details,
      JSON_parse env errorText = inr (JObj fields) →
      assoc "error" fields = JObj details →
      truthy (assoc "message" details) = true →
      err_message (parseDynamics365Error env response errorText) = assoc "message" details
      ∧ err_code (parseDynamics365Error env response errorText) = assoc "code" details.
Proof.
  unfold parseDynamics365Error, parse_error_data.
  split; [| split; [| split]].
  - destruct (JSON_parse env errorText) as [e | errorData]; simpl.
    { apply fallback_message_truthy. }
    destruct (JS.get errorData "error") as [e | field]; simpl.
    { apply fallback_message_truthy. }
    destruct (JS.get (js_or field (JObj [])) "message") as [e | message]; simpl.
    { apply fallback_message_truthy. }
    destruct (JS.get (js_or field (JObj [])) "innererror") as [e | innererror]; simpl.
    { apply fallback_message_truthy. }
    destruct (JS.get (js_or field (JObj [])) "code") as [e | code]; simpl.
    { apply fallback_message_truthy. }
    destruct (JS.get (js_or field (JObj [])) "details") as [e | details]; simpl.
    { apply fallback_message_truthy. }
    destruct (get_opt innererror "message") as [e | inner]; simpl.
    { apply fallback_message_truthy. }
    unfold js_or. destruct (truthy message) eqn:Hm; simpl; [by rewrite Hm |].
    destruct (truthy inner) eqn:Hi; simpl; [by rewrite Hi | done].
  - destruct (JSON_parse env errorText) as [e | errorData]; simpl; [done |].
    destruct (JS.get errorData "error") as [e | field]; simpl; [done |].
    destruct (JS.get (js_or field (JObj [])) "message"); simpl; [done |].
    destruct (JS.get (js_or field (JObj [])) "innererror"); simpl; [done |].
    destruct (JS.get (js_or field (JObj [])) "code"); simpl; [done |].
    destruct (JS.get (js_or field (JObj [])) "details"); simpl; [done |].
    by destruct (get_opt _ "message").
  - intros e ->. simpl. unfold js_or. simpl. by destruct (String.eqb errorText "").
  - intros fields details -> Herror Hmessage. simpl. rewrite Herror. simpl.
    destruct (get_opt (assoc "innererror" details) "message") as [e | inner] eqn:Hinner.
    { exfalso. revert Hinner. unfold get_opt, JS.get.
      by destruct (assoc "innererror" details). }
    simpl. unfold js_or. rewrite Hmessage. simpl. by rewrite Hmessage.
Qed.

(** *** The handlers *)

Lemma validateDynamics365Response_run response w :
  ∃ w',
    validateDynamics365Response env response w
    = (if res_ok response
       then match res_json response with
            | inr data => inr data
            | inl e => inl (ThrownError e)
            end
       else match res_text response with
            | inr errorText =>
                inl (ThrownDynamics365 (parseDynamics365Error env response errorText))
            | inl e => inl (ThrownError e)
            end, w')
    ∧ w_fetches w' = w_fetches w ∧ w_uuids w' = w_uuids w.
Proof.
  unfold validateDynamics365Response. trun.
  destruct (res_ok response); simpl.
  - destruct (res_json response); by eexists.
  - destruct (res_text response); by eexists.
Qed.

Ltac refused :=
  eexists _, _; split; [reflexivity |]; split; [simpl; congruence |];
  apply route_refused; simpl;
  [congruence | repeat first [by left | right] | done].

Lemma POST_runs request w :
  ∃ r w',
    POST env request w = (r, w')
    ∧ w_uuids w' = S (w_uuids w)
    ∧ route_run env w r w'.
Proof.
  unfold POST, draw_uuid, authenticated, route_failure, do_fetch, read_clock,
    NextResponse_json.
  trun.
  destruct (getSession env) as [e | session] eqn:Hsession; simpl; [refused |].
  destruct (session_user_id session) as [userId |] eqn:Huser; simpl.
  2: { eexists _, _. split; [reflexivity |]. split; [done |].
       eapply route_unauthorized; eauto. }
  destruct (String.eqb userId "") eqn:Hid; simpl.
  { apply String.eqb_eq in Hid as ->.
    eexists _, _. split; [reflexivity |]. split; [done |].
    eapply route_unauthorized; eauto. }
  apply String.eqb_neq in Hid.
  match goal with |- context [getDynamics365Token env userId ?w0] =>
    destruct (getDynamics365Token_runs userId w0) as (r & w1 & Htoken & Hf & Hu & _);
    set (w0' := w0) in * end.
  rewrite Htoken. simpl in Hf, Hu. simpl.
  destruct r as [token |]; simpl; [| refused].
  destruct (String.eqb token "") eqn:Htok; simpl; [refused |].
  apply String.eqb_neq in Htok.
  destruct (request_json request) as [e | body]; simpl; [refused |].
  destruct (destructure body "endpoint") as [e | endpoint]; simpl; [refused |].
  destruct (destructure body "method") as [e | method]; simpl; [refused |].
  destruct (destructure body "data") as [e | data]; simpl; [refused |].
  destruct (truthy endpoint) eqn:Hendpoint; simpl; [| refused].
  match goal with |- context [fetch env ?c0] => set (c := c0) end.
  pose proof (λ w', route_forwarded env w session userId w0' w1 token c w'
                      Hsession Huser Hid Htoken eq_refl Htok eq_refl eq_refl Hendpoint)
    as Hrun.
  unfold forwarded in Hrun. revert Hrun.
  destruct (fetch env c) as [e | response]; simpl; intros Hrun.
  { eexists _, _. split; [reflexivity |]. split; [simpl; congruence |].
    apply Hrun. simpl. congruence. }
  match goal with |- context [validateDynamics365Response env response ?w2] =>
    destruct (validateDynamics365Response_run response w2) as (w3 & -> & Hf3 & Hu3) end.
  simpl in Hf3, Hu3. revert Hrun.
  destruct (res_ok response); simpl.
  - destruct (res_json response) as [e | responseData]; simpl; intros Hrun;
      (eexists _, _; split; [reflexivity |]; split; [simpl; congruence |];
       apply Hrun; simpl; congruence).
  - destruct (res_text response) as [e | errorText]; simpl; intros Hrun.
    { eexists _, _. split; [reflexivity |]. split; [simpl; congruence |].
      apply Hrun. simpl. congruence. }
    revert Hrun. destruct (accepts_status _); simpl; intros Hrun;
      (eexists _, _; split; [reflexivity |]; split; [simpl; congruence |];
       apply Hrun; simpl; congruence).
Qed.

Lemma GET_runs request w :
  ∃ r w',
    GET env request w = (r, w')
    ∧ w_uuids w' = S (w_uuids w)
    ∧ route_run env w r w'.
Proof.
  unfold GET, draw_uuid, authenticated, route_failure, do_fetch, read_clock,
    NextResponse_json.
  trun.
  destruct (getSession env) as [e | session] eqn:Hsession; simpl; [refused |].
  destruct (session_user_id session) as [userId |] eqn:Huser; simpl.
  2: { eexists _, _. split; [reflexivity |]. split; [done |].
       eapply route_unauthorized; eauto. }
  destruct (String.eqb userId "") eqn:Hid; simpl.
  { apply String.eqb_eq in Hid as ->.
    eexists _, _. split; [reflexivity |]. split; [done |].
    eapply route_unauthorized; eauto. }
  apply String.eqb_neq in Hid.
  match goal with |- context [getDynamics365Token env userId ?w0] =>
    destruct (getDynamics365Token_runs userId w0) as (r & w1 & Htoken & Hf & Hu & _);
    set (w0' := w0) in * end.
  rewrite Htoken. simpl in Hf, Hu. simpl.
  destruct r as [token |]; simpl; [| refused].
  destruct (String.eqb token "") eqn:Htok; simpl; [refused |].
  apply String.eqb_neq in Htok.
  destruct (searchParams_endpoint env (request_url request)) as [e | [endpoint |]]; simpl;
    [refused | | refused].
  destruct (String.eqb endpoint "") eqn:Hendpoint; simpl; [refused |].
  match goal with |- context [fetch env ?c0] => set (c := c0) end.
  assert (truthy (call_endpoint c) = true) as Htruthy by (simpl; by rewrite Hendpoint).
  pose proof (λ w', route_forwarded env w session userId w0' w1 token c w'
                      Hsession Huser Hid Htoken eq_refl Htok eq_refl eq_refl Htruthy)
    as Hrun.
  unfold forwarded in Hrun. revert Hrun.
  destruct (fetch env c) as [e | response]; simpl; intros Hrun.
  { eexists _, _. split; [reflexivity |]. split; [simpl; congruence |].
    apply Hrun. simpl. congruence. }
  match goal with |- context [validateDynamics365Response env response ?w2] =>
    destruct (validateDynamics365Response_run response w2) as (w3 & -> & Hf3 & Hu3) end.
  simpl in Hf3, Hu3. revert Hrun.
  destruct (res_ok response); simpl.
  - destruct (res_json response) as [e | responseData]; simpl; intros Hrun;
      (eexists _, _; split; [reflexivity |]; split; [simpl; congruence |];
       apply Hrun; simpl; congruence).
  - destruct (res_text response) as [e | errorText]; simpl; intros Hrun.
    { eexists _, _. split; [reflexivity |]. split; [simpl; congruence |].
      apply Hrun. simpl. congruence. }
    revert Hrun. destruct (accepts_status _); simpl; intros Hrun;
      (eexists _, _; split; [reflexivity |]; split; [simpl; congruence |];
       apply Hrun; simpl; congruence).
Qed.

Lemma handler_runs handler request w :
  handler = POST env ∨ handler = GET env →
  ∃ r w',
    handler request w = (r, w')
    ∧ w_uuids w' = S (w_uuids w)
    ∧ route_run env w r w'.
Proof. intros [-> | ->]; [apply POST_runs | apply GET_runs]. Qed.

Lemma parsed_status_code response errorText :
  err_statusCode (parseDynamics365Error env response errorText) = res_status response.
Proof.
  unfold parseDynamics365Error, parse_error_data.
  destruct (JSON_parse env errorText) as [e | errorData]; simpl; [done |].
  destruct (JS.get errorData "error") as [e | field]; simpl; [done |].
  destruct (JS.get (js_or field (JObj [])) "message"); simpl; [done |].
  destruct (JS.get (js_or field (JObj [])) "innererror"); simpl; [done |].
  destruct (JS.get (js_or field (JObj [])) "code"); simpl; [done |].
  destruct (JS.get (js_or field (JObj [])) "details"); simpl; [done |].
  by destruct (get_opt _ "message").
Qed.

Lemma not_extended {A} (l : list A) (x : A) : l ++ [x] ≠ l.
Proof.
  intros Heq. apply (f_equal length) in Heq. rewrite length_app in Heq. simpl in Heq. lia.
Qed.

(** X25. Whatever the session, the database, the refresh, the request and
    Dynamics 365 do, [POST] and [GET] draw one request id, make at most
    one request, and either answer or throw the error of a refused status.
    They throw exactly when the one request made got a response that was
    not ok, whose text could be read and whose status is not 0 and is
    refused by [NextResponse.json] (outside 200..599, or 304): the
    response of the handler is then built in the [catch], where nothing
    catches. When they answer, the status is accepted and is 200, 400, 401
    or 500, or else the status of a response of Dynamics 365 that was not
    ok; data is only returned with status 200. *)
Theorem handlers_answer_or_refuse_the_status handler request w :
  handler = POST env ∨ handler = GET env →
  ∃ r w',
    handler request w = (r, w')
    ∧ w_uuids w' = S (w_uuids w)
    ∧ (w_fetches w' = w_fetches w ∨ ∃ c, w_fetches w' = w_fetches w ++ [c])
    ∧ match r with
      | inr resp =>
          (nr_status resp ∈ [200%N; 400%N; 401%N; 500%N]
           ∨ ∃ c response,
               w_fetches w' = w_fetches w ++ [c]
               ∧ fetch env c = inr response ∧ res_ok response = false
               ∧ nr_status resp = res_status response)
          ∧ accepts_status (nr_status resp) = true
          ∧ (is_data (nr_body resp) = true → nr_status resp = 200%N)
      | inl e =>
          ∃ c response errorText,
            w_fetches w' = w_fetches w ++ [c]
            ∧ fetch env c = inr response ∧ res_ok response = false
            ∧ res_text response = inr errorText
            ∧ res_status response ≠ 0%N
            ∧ accepts_status (res_status response) = false
            ∧ e = ThrownStatus (res_status response)
      end
    ∧ ∀ c response errorText,
        w_fetches w' = w_fetches w ++ [c] →
        fetch env c = inr response → res_ok response = false →
        res_text response = inr errorText →
        res_status response ≠ 0%N →
        accepts_status (res_status response) = false →
        r = inl (ThrownStatus (res_status response)).
Proof.
  intros Hhandler.
  destruct (handler_runs handler request w Hhandler) as (r & w' & Hrun & Hu & Hcase).
  exists r, w'. do 2 (split; [done |]).
  destruct Hcase as [session w' Hs Hno Hf Hr Hup | resp w' Hf Hstatus Hbody
                     | session userId w0 w1 token c w' Hs Huser Hid Htoken Hf0 Htok Hct Hcb
                       Hce Hf].
  - split; [by left |]. split.
    + split; [left; simpl; do 2 right; by left |]. by split.
    + intros c response errorText Hfetched. rewrite Hf in Hfetched.
      symmetry in Hfetched. by apply not_extended in Hfetched.
  - split; [by left |]. split.
    + split; [left; by right |]. split; [| by rewrite Hbody].
      repeat (apply elem_of_cons in Hstatus as [-> | Hstatus]; [done |]).
      by apply elem_of_nil in Hstatus.
    + intros c response errorText Hfetched. rewrite Hf in Hfetched.
      symmetry in Hfetched. by apply not_extended in Hfetched.
  - split; [right; by exists c |]. split.
    + unfold forwarded. destruct (fetch env c) as [e | response] eqn:Hfetch; simpl.
      { split; [left; do 3 right; by left | by split]. }
      destruct (res_ok response) eqn:Hok.
      { destruct (res_json response); simpl.
        - split; [left; do 3 right; by left | by split].
        - split; [left; by left | by split]. }
      destruct (res_text response) as [e | errorText] eqn:Htext; simpl.
      { split; [left; do 3 right; by left | by split]. }
      rewrite parsed_status_code.
      destruct (N.eqb (res_status response) 0) eqn:Hzero; simpl.
      { split; [left; do 3 right; by left | by split]. }
      apply N.eqb_neq in Hzero.
      destruct (accepts_status (res_status response)) eqn:Haccepts; simpl.
      * split; [right; by exists c, response | by split].
      * by exists c, response, errorText.
    + intros c' response errorText Hfetched Hfetch Hok Htext Hzero Haccepts.
      rewrite Hf in Hfetched. apply app_inv_head in Hfetched. injection Hfetched as ->.
      unfold forwarded. rewrite Hfetch, Hok, Htext, parsed_status_code.
      apply N.eqb_neq in Hzero. by rewrite Hzero, Haccepts.
Qed.


(** X27. Without a user in the session a handler answers 401
    [Unauthorized] and touches nothing: no refresh is asked for, nothing
    is written and no request is made. *)
Theorem request_without_a_user_touches_nothing handler request w session :
  handler = POST env ∨ handler = GET env →
  getSession env = inr session →
  absent (session_user_id session) = true →
  ∃ w',
    handler request w = (inr (mkNextResponse (BodyMessage "Unauthorized") 401), w')
    ∧ w_fetches w' = w_fetches w
    ∧ w_refreshes w' = w_refreshes w
    ∧ w_updates w' = w_updates w.
Proof.
  intros Hhandler Hsession Hnone.
  destruct Hhandler as [-> | ->];
    [unfold POST | unfold GET]; unfold draw_uuid, authenticated, NextResponse_json; trun;
    rewrite Hsession; simpl; rewrite Hnone; simpl; by eexists.
Qed.

(** X28. What a handler answers once it has made its request. When
    [fetch] rejects, or the body of the response cannot be read, the
    answer is 500 with the message of that error. When the response is
    ok, the answer is 200 with its JSON data. When it is not ok, the
    answer carries the error parsed from its text, with the status of the
    response, or 500 when that status is 0. *)
Theorem upstream_outcome_is_passed_on handler request w resp w' c :
  handler = POST env ∨ handler = GET env →
  handler request w = (inr resp, w') →
  w_fetches w' = w_fetches w ++ [c] →
  match fetch env c with
  | inl e => resp = mkNextResponse (BodyError e) 500
  | inr response =>
      if res_ok response
      then match res_json response with
           | inr data => resp = mkNextResponse (BodyData data) 200
           | inl e => resp = mkNextResponse (BodyError e) 500
           end
      else match res_text response with
           | inr errorText =>
               resp = mkNextResponse
                        (BodyDynamics365 (parseDynamics365Error env response errorText))
                        (if N.eqb (res_status response) 0 then 500%N
                         else res_status response)
           | inl e => resp = mkNextResponse (BodyError e) 500
           end
  end.
Proof.
  intros Hhandler Hrun Hfetched.
  destruct (handler_runs handler request w Hhandler) as (r & w1' & Hrun' & _ & Hcase).
  rewrite Hrun in Hrun'. injection Hrun' as Hforwarded <-. symmetry in Hforwarded.
  destruct Hcase as [session w' Hs Hno Hf Hr Hup | resp' w' Hf Hstatus Hbody
                     | session userId w0 w1 token c' w' Hs Huser Hid Htoken Hf0 Htok Hct Hcb
                       Hce Hf].
  - rewrite Hf in Hfetched. symmetry in Hfetched. by apply not_extended in Hfetched.
  - rewrite Hf in Hfetched. symmetry in Hfetched. by apply not_extended in Hfetched.
  - rewrite Hf in Hfetched. apply app_inv_head in Hfetched. injection Hfetched as ->.
    unfold forwarded in Hforwarded. destruct (fetch env c) as [e | response];
      [by injection Hforwarded as <- |].
    destruct (res_ok response).
    + destruct (res_json response); by injection Hforwarded as <-.
    + destruct (res_text response) as [e | errorText]; [by injection Hforwarded as <- |].
      rewrite parsed_status_code in Hforwarded.
      destruct (accepts_status _); [by injection Hforwarded as <- | done].
Qed.

End Facts.

Lemma returned_token_is_fresh_or_refreshed_witness :
  ∃ credential others,
    db_select (env_expiring (inr accounts)) "user-1" = inr (credential :: others)
    ∧ ((cred_accessToken credential = Some "new-token"
        ∧ isExpired credential (clock (env_expiring (inr accounts)) (w_clock start)) = false
        ∧ w_refreshes (getDynamics365Token (env_expiring (inr accounts)) "user-1" start).2
          = w_refreshes start
        ∧ w_updates (getDynamics365Token (env_expiring (inr accounts)) "user-1" start).2
          = w_updates start)
       ∨ (isExpired credential (clock (env_expiring (inr accounts)) (w_clock start)) = true
          ∧ ∃ refreshToken r,
              cred_refreshToken credential = Some refreshToken
              ∧ refreshOAuthToken (env_expiring (inr accounts)) "dynamics365" refreshToken
                = inr (Some r)
              ∧ "new-token" = rr_accessToken r
              ∧ db_update (env_expiring (inr accounts)) (cred_id credential)
                  (refreshed_update (env_expiring (inr accounts)) credential r
                     (S (w_clock start))) = inr tt
              ∧ w_refreshes (getDynamics365Token (env_expiring (inr accounts)) "user-1" start).2
                = w_refreshes start ++ [("dynamics365", refreshToken)]
              ∧ w_updates (getDynamics365Token (env_expiring (inr accounts)) "user-1" start).2
                = w_updates start
                  ++ [(cred_id credential,
                       refreshed_update (env_expiring (inr accounts)) credential r
                         (S (w_clock start)))])).
Proof.
  apply (returned_token_is_fresh_or_refreshed (env_expiring (inr accounts)) "user-1" start
           "new-token" (getDynamics365Token (env_expiring (inr accounts)) "user-1" start).2).
  lazy; reflexivity.
Defined.

(** The update that is written for the refreshed token: it expires an
    hour after the second reading of the clock, and keeps the stored
    refresh token, since the refresh gave none. *)
Example refreshed_token_is_stored :
  getDynamics365Token (env_expiring (inr accounts)) "user-1" start
  = (inr (Some "new-token"),
     mkWorld [mkLog LInfo "Token status check" None;
              mkLog LInfo "Successfully refreshed and updated token" None]
       5 0 [("dynamics365", "refresh-1")]
       [("cred-1", mkTokenUpdate "new-token" (noon + 1 + 3600000) (Some "refresh-1")
                     (noon + 2))] []).
Proof. lazy; reflexivity. Qed.

Lemma expiry_margin_is_five_minutes_witness :
  ∃ r w',
    getDynamics365Token (env_expiring (inr accounts)) "user-1" start = (inr r, w')
    ∧ (match cred_expiresAt (expiring_in 300000) with
       | Some expiresAt =>
           (clock (env_expiring (inr accounts)) (w_clock start) + 300000 < expiresAt)%Z
       | None => True
       end →
       r = Some "old-token" ∧ w_refreshes w' = w_refreshes start
       ∧ w_updates w' = w_updates start)
    ∧ ∀ expiresAt,
        cred_expiresAt (expiring_in 300000) = Some expiresAt →
        (expiresAt ≤ clock (env_expiring (inr accounts)) (w_clock start) + 300000)%Z →
        match cred_refreshToken (expiring_in 300000) with
        | None | Some "" => r = None ∧ w_refreshes w' = w_refreshes start
        | Some refreshToken =>
            w_refreshes w' = w_refreshes start ++ [("dynamics365", refreshToken)]
            ∧ (∀ stored, r = Some stored →
                 ∃ refreshed,
                   refreshOAuthToken (env_expiring (inr accounts)) "dynamics365" refreshToken
                   = inr (Some refreshed)
                   ∧ stored = rr_accessToken refreshed)
        end.
Proof.
  apply (expiry_margin_is_five_minutes (env_expiring (inr accounts)) "user-1" start
           (expiring_in 300000) [] "old-token"); [lazy; reflexivity | lazy; reflexivity | done].
Defined.

(** One millisecond decides: a token that expires 300001 ms after the
    reading is served, one that expires 300000 ms after it is refreshed. *)
Example margin_is_inclusive :
  (getDynamics365Token (env_fresh (inr accounts)) "user-1" start).1 = inr (Some "old-token")
  ∧ w_refreshes (getDynamics365Token (env_fresh (inr accounts)) "user-1" start).2 = []
  ∧ (getDynamics365Token (env_expiring (inr accounts)) "user-1" start).1
    = inr (Some "new-token").
Proof. repeat split; lazy; reflexivity. Qed.

Lemma failed_update_discards_the_refreshed_token_witness :
  ∃ w',
    getDynamics365Token env_read_only "user-1" start = (inr None, w')
    ∧ w_refreshes w' = w_refreshes start ++ [("dynamics365", "refresh-1")]
    ∧ w_updates w'
      = w_updates start
        ++ [(cred_id (expiring_in 300000),
             refreshed_update env_read_only (expiring_in 300000)
               (mkRefreshResult "new-token" 3600 None) (S (w_clock start)))]
    ∧ last (w_log w') = Some (mkLog LError "Failed to update token in database" None).
Proof.
  apply (failed_update_discards_the_refreshed_token env_read_only "user-1" start
           (expiring_in 300000) [] "refresh-1" (mkRefreshResult "new-token" 3600 None)
           (Error "connection lost")); try (lazy; reflexivity). done.
Defined.

(** The error for a JSON body with a message, for a text that is not
    JSON, and for the JSON text [null], whose [error] cannot be read. *)
Example parsed_errors :
  err_message (parseDynamics365Error (env_fresh (inr rate_limited)) rate_limited error_text)
  = JStr "Rate limited"
  ∧ err_message (parseDynamics365Error (env_fresh (inr rate_limited)) rate_limited
                   "Plain text error")
    = JStr "Plain text error"
  ∧ err_message (parseDynamics365Error (env_fresh (inr rate_limited)) rate_limited "null")
    = JStr "null"
  ∧ err_message (parseDynamics365Error (env_fresh (inr rate_limited)) rate_limited "{}")
    = JStr "Dynamics 365 API error: 429 Too Many Requests".
Proof. repeat split; lazy; reflexivity. Qed.

Lemma handlers_answer_or_refuse_the_status_witness :
  ∃ r w',
    POST (env_fresh (inr rate_limited)) post_accounts start = (r, w')
    ∧ w_uuids w' = S (w_uuids start)
    ∧ (w_fetches w' = w_fetches start ∨ ∃ c, w_fetches w' = w_fetches start ++ [c])
    ∧ match r with
      | inr resp =>
          (nr_status resp ∈ [200%N; 400%N; 401%N; 500%N]
           ∨ ∃ c response,
               w_fetches w' = w_fetches start ++ [c]
               ∧ fetch (env_fresh (inr rate_limited)) c = inr response
               ∧ res_ok response = false
               ∧ nr_status resp = res_status response)
          ∧ accepts_status (nr_status resp) = true
          ∧ (is_data (nr_body resp) = true → nr_status resp = 200%N)
      | inl e =>
          ∃ c response errorText,
            w_fetches w' = w_fetches start ++ [c]
            ∧ fetch (env_fresh (inr rate_limited)) c = inr response
            ∧ res_ok response = false
            ∧ res_text response = inr errorText
            ∧ res_status response ≠ 0%N
            ∧ accepts_status (res_status response) = false
            ∧ e = ThrownStatus (res_status response)
      end
    ∧ ∀ c response errorText,
        w_fetches w' = w_fetches start ++ [c] →
        fetch (env_fresh (inr rate_limited)) c = inr response →
        res_ok response = false →
        res_text response = inr errorText →
        res_status response ≠ 0%N →
        accepts_status (res_status response) = false →
        r = inl (ThrownStatus (res_status response)).
Proof.
  apply (handlers_answer_or_refuse_the_status (env_fresh (inr rate_limited))
           (POST (env_fresh (inr rate_limited))) post_accounts start).
  by left.
Defined.

(** A response 304 of Dynamics 365 is not ok, and [NextResponse.json]
    refuses its status in the [catch]: both handlers throw, after the
    request was made. A status 0 is answered with 500. *)
Example refused_status_is_thrown :
  (GET (env_fresh (inr not_modified)) get_accounts start).1 = inl (ThrownStatus 304)
  ∧ (POST (env_fresh (inr not_modified)) post_accounts start).1 = inl (ThrownStatus 304)
  ∧ w_fetches (GET (env_fresh (inr not_modified)) get_accounts start).2
    = [accounts_call None "old-token" None]
  ∧ accepts_status 304 = false ∧ accepts_status 600 = false ∧ accepts_status 199 = false
  ∧ accepts_status 429 = true
  ∧ (∃ error,
       (GET (env_fresh (inr (mkResponse false 0 "" (inr "") (inl (Error "body used")))))
          get_accounts start).1
       = inr (mkNextResponse (BodyDynamics365 error) 500)).
Proof. repeat split; try (lazy; reflexivity). eexists. lazy. reflexivity. Qed.

(** The status 429 of Dynamics 365 is passed on. *)
Example rate_limit_is_passed_on :
  (POST (env_fresh (inr rate_limited)) post_accounts start).1
  = inr (mkNextResponse
           (BodyDynamics365
              (mkDynamics365Error (JStr "Rate limited") (JStr "0x80072321") 429
                 (JObj [("details", JUndefined); ("innerError", JUndefined);
                        ("raw", JObj [("error", JObj [("message", JStr "Rate limited");
                                                      ("code", JStr "0x80072321")])])])))
           429).
Proof. lazy; reflexivity. Qed.


(** The request carries the refreshed token, not the stored one. *)
Example request_carries_the_refreshed_token :
  w_fetches (GET (env_expiring (inr accounts)) get_accounts start).2
  = [accounts_call None "new-token" None]
  ∧ w_fetches (POST (env_fresh (inr accounts)) post_accounts start).2
    = [accounts_call (Some (JStr "POST")) "old-token" (Some (JObj [("name", JStr "Contoso")]))].
Proof. split; lazy; reflexivity. Qed.

Lemma request_without_a_user_touches_nothing_witness :
  ∃ w',
    POST env_signed_out post_accounts start
    = (inr (mkNextResponse (BodyMessage "Unauthorized") 401), w')
    ∧ w_fetches w' = w_fetches start
    ∧ w_refreshes w' = w_refreshes start
    ∧ w_updates w' = w_updates start.
Proof.
  apply (request_without_a_user_touches_nothing env_signed_out (POST env_signed_out)
           post_accounts start None); [by left | lazy; reflexivity | lazy; reflexivity].
Defined.

Lemma upstream_outcome_is_passed_on_witness :
  match fetch (env_fresh (inr rate_limited)) (accounts_call None "old-token" None) with
  | inl e =>
      mkNextResponse
        (BodyDynamics365
           (parseDynamics365Error (env_fresh (inr rate_limited)) rate_limited error_text)) 429
      = mkNextResponse (BodyError e) 500
  | inr response =>
      if res_ok response
      then match res_json response with
           | inr data =>
               mkNextResponse
                 (BodyDynamics365
                    (parseDynamics365Error (env_fresh (inr rate_limited)) rate_limited
                       error_text)) 429
               = mkNextResponse (BodyData data) 200
           | inl e =>
               mkNextResponse
                 (BodyDynamics365
                    (parseDynamics365Error (env_fresh (inr rate_limited)) rate_limited
                       error_text)) 429
               = mkNextResponse (BodyError e) 500
           end
      else match res_text response with
           | inr errorText =>
               mkNextResponse
                 (BodyDynamics365
                    (parseDynamics365Error (env_fresh (inr rate_limited)) rate_limited
                       error_text)) 429
               = mkNextResponse
                   (BodyDynamics365
                      (parseDynamics365Error (env_fresh (inr rate_limited)) response
                         errorText))
                   (if N.eqb (res_status response) 0 then 500%N else res_status response)
           | inl e =>
               mkNextResponse
                 (BodyDynamics365
                    (parseDynamics365Error (env_fresh (inr rate_limited)) rate_limited
                       error_text)) 429
               = mkNextResponse (BodyError e) 500
           end
  end.
Proof.
  apply (upstream_outcome_is_passed_on (env_fresh (inr rate_limited))
           (GET (env_fresh (inr rate_limited))) get_accounts start
           (mkNextResponse
              (BodyDynamics365
                 (parseDynamics365Error (env_fresh (inr rate_limited)) rate_limited
                    error_text)) 429)
           (GET (env_fresh (inr rate_limited)) get_accounts start).2
           (accounts_call None "old-token" None));
    [by right | lazy; reflexivity | lazy; reflexivity].
Defined.

End OAuthFacts.
